(** * Empirical poker hand probability generator: a shallow embedding

    The program (poker_jordan_vanevery.c) keeps a five card hand in the
    global arrays [handRank] and [handSuit], classifies it into the three
    cell key [pokerHandID] and estimates, for every card, the chance that
    replacing it by a random card of the rest of the deck gives a better
    hand.

    The embedding follows the C text function by function.  The globals
    are a record of arrays (lists); every function takes the globals it
    reads and gives back the globals it writes.  An array access outside
    the declared bounds is undefined behaviour in C: here it is the fault
    [OutOfBounds i].  A [while] loop runs on fuel and gives the fault
    [Diverges] when the fuel is used up; a [for] loop with a constant
    bound is a recursion on the number of iterations left.  The calls of
    [rand()] read a list of draws and give the fault [NoMoreDraws] when
    that list is used up.

    All [int] values that occur for hands with ranks in [2,14] are far
    below 2^31, so [int] is modelled by [Z] without wrap-around.  A
    [float] is a number of the binary32 format of IEEE 754, and every
    operation on [float]s is rounded to the nearest, ties to even. *)

From Stdlib Require Import ZArith Floats.SpecFloat Ascii String List Lia.
From stdpp Require Import base numbers strings list sorting.

Open Scope Z_scope.

(** ** Faults and the result monad *)

Inductive fault : Type :=
| OutOfBounds (i : nat)   (* read or write of cell [i] outside the array *)
| Diverges                (* a while loop used up its fuel *)
| NoMoreDraws.            (* the supply of rand() values is used up *)

Inductive result (A : Type) : Type :=
| Ok (a : A)
| Fault (f : fault).

Arguments Ok {A} a.
Arguments Fault {A} f.

Definition bind {A B : Type} (m : result A) (k : A -> result B) : result B :=
  match m with
  | Ok a => k a
  | Fault f => Fault f
  end.

Declare Scope result_scope.
Delimit Scope result_scope with result.
Notation "'let*' x ':=' m 'in' k" := (bind m (fun x => k))
  (at level 10, x pattern, m at level 100, k at level 200) : result_scope.
Open Scope result_scope.

(** ** Arrays *)

(** [a[i]] as an rvalue. *)
Definition rd {A : Type} (a : list A) (i : nat) : result A :=
  match a !! i with
  | Some v => Ok v
  | None => Fault (OutOfBounds i)
  end.

(** [a[i] = v]. *)
Definition wr {A : Type} (a : list A) (i : nat) (v : A) : result (list A) :=
  if (i <? length a)%nat then Ok (<[i:=v]> a) else Fault (OutOfBounds i).

(** ** Constants of the program *)

Definition DECK_SIZE : Z := 52.
Definition HAND_SIZE : nat := 5.
Definition SUIT_COUNT : nat := 4.
Definition RANK_COUNT : nat := 13.
Definition FALSE : Z := 0.
Definition TRUE : Z := 1.
Definition HIGH_CARD : Z := 1.
Definition ONE_PAIR : Z := 2.
Definition TWO_PAIR : Z := 3.
Definition THREE_OF_A_KIND : Z := 4.
Definition STRAIGHT : Z := 5.
Definition FLUSH : Z := 6.
Definition FULL_HOUSE : Z := 7.
Definition FOUR_OF_A_KIND : Z := 8.
Definition STRAIGHT_FLUSH : Z := 9.
Definition DIGITS_IN_POKER_HAND_ID : nat := 3.
Definition MAJOR_RANK_DIGIT : nat := 0.
Definition MINOR_RANK_DIGIT : nat := 1.
Definition LOW_PAIR_DIGIT : nat := 2.

(** [const char SUIT_LIST[] = "CDHS"]: four suits and the closing NUL. *)
Definition SUIT_LIST : list ascii :=
  ["C"; "D"; "H"; "S"; "000"]%char.

(** The value the program gives its local [sampleNumber]. *)
Definition SAMPLE_NUMBER : Z := 750000.

(** ** The type [float]

    [float] is the binary32 format: 24 bits of precision, exponents
    below 128.  The operations are those of the specification of
    floating-point arithmetic of the standard library, which round to
    the nearest, ties to even.  C leaves the format of [float] to the
    implementation; this is the format of the usual compilers, which
    also evaluate a [float] expression in [float]. *)
Definition float : Type := spec_float.

Definition FLT_MANT_DIG : Z := 24.
Definition FLT_MAX_EXP : Z := 128.

(** The conversion of an [int] to [float]: [(float)n], and the usual
    arithmetic conversion of an [int] operand beside a [float] one. *)
Definition float_of_int (n : Z) : float :=
  binary_normalize FLT_MANT_DIG FLT_MAX_EXP n 0 false.

Definition float_mul (x y : float) : float :=
  SFmul FLT_MANT_DIG FLT_MAX_EXP x y.

Definition float_div (x y : float) : float :=
  SFdiv FLT_MANT_DIG FLT_MAX_EXP x y.

(** ** The globals *)

Record globals : Type := mkGlobals {
  handRank : list Z;
  handSuit : list ascii;
  copyHandRank : list Z;
  copyHandSuit : list ascii;
  probabilities : list float;
  pokerHandID : list Z
}.

Definition set_hand (g : globals) (hr : list Z) (hs : list ascii) : globals :=
  {| handRank := hr; handSuit := hs;
     copyHandRank := copyHandRank g; copyHandSuit := copyHandSuit g;
     probabilities := probabilities g; pokerHandID := pokerHandID g |}.

Definition set_pokerHandID (g : globals) (id : list Z) : globals :=
  {| handRank := handRank g; handSuit := handSuit g;
     copyHandRank := copyHandRank g; copyHandSuit := copyHandSuit g;
     probabilities := probabilities g; pokerHandID := id |}.

Definition set_probabilities (g : globals) (p : list float) : globals :=
  {| handRank := handRank g; handSuit := handSuit g;
     copyHandRank := copyHandRank g; copyHandSuit := copyHandSuit g;
     probabilities := p; pokerHandID := pokerHandID g |}.

(** The cards of the hand, rank paired with suit. *)
Definition cards (g : globals) : list (Z * ascii) :=
  zip (handRank g) (handSuit g).

Definition copy_cards (g : globals) : list (Z * ascii) :=
  zip (copyHandRank g) (copyHandSuit g).

(** ** The detectors *)

(** *** isFlush *)

(** [for(i=1; i<HAND_SIZE; ++i) if(flushSuit!=handSuit[i]) return FALSE;]
    gives [false] when the function returns from inside the loop. *)
Fixpoint isFlush_scan (hs : list ascii) (flushSuit : ascii) (n i : nat)
  : result bool :=
  match n with
  | O => Ok true
  | S n' =>
      let* s := rd hs i in
      if negb (Ascii.eqb flushSuit s) then Ok false
      else isFlush_scan hs flushSuit n' (S i)
  end.

(** [for(i=0;i<HAND_SIZE;++i) flushSum+=handRank[i];] *)
Fixpoint isFlush_sum (hr : list Z) (n i : nat) (flushSum : Z) : result Z :=
  match n with
  | O => Ok flushSum
  | S n' =>
      let* r := rd hr i in
      isFlush_sum hr n' (S i) (flushSum + r)
  end.

Definition isFlush (g : globals) : result Z :=
  let* flushSuit := rd (handSuit g) 0 in
  let* same := isFlush_scan (handSuit g) flushSuit (HAND_SIZE - 1) 1 in
  if same then isFlush_sum (handRank g) HAND_SIZE 0 0 else Ok FALSE.

(** *** isStraight *)

Definition specialStraight : list Z := [2; 3; 4; 5; 14].

(** First loop: the index at which the hand leaves {2,3,4,5,14}. *)
Fixpoint isStraight_special (hr : list Z) (n i : nat) : result nat :=
  match n with
  | O => Ok i
  | S n' =>
      let* r := rd hr i in
      let* s := rd specialStraight i in
      if negb (r =? s) then Ok i else isStraight_special hr n' (S i)
  end.

(** Second loop: the index at which the run of consecutive ranks ends. *)
Fixpoint isStraight_run (hr : list Z) (n j : nat) : result nat :=
  match n with
  | O => Ok j
  | S n' =>
      let* a := rd hr j in
      let* b := rd hr (j + 1) in
      if negb (a =? b - 1) then Ok j else isStraight_run hr n' (S j)
  end.

Definition isStraight (g : globals) : result Z :=
  let* i := isStraight_special (handRank g) HAND_SIZE 0 in
  let* j := isStraight_run (handRank g) (HAND_SIZE - 1) 0 in
  let* highCard := (if (j =? HAND_SIZE - 1)%nat
                    then rd (handRank g) (HAND_SIZE - 1) else Ok 0) in
  if (i =? HAND_SIZE)%nat then rd (handRank g) (HAND_SIZE - 2)
  else Ok highCard.

(** *** isXOfAKind *)

(** The source loop is [while(diffCounter<=HAND_SIZE-x+1)] with no bound
    on [i]; the cell [handRank[i+1]] is read in every iteration. *)
Fixpoint isXOfAKind_loop (fuel : nat) (hr : list Z) (x : Z) (i : nat)
    (diffCounter matchCounter : Z) : result Z :=
  match fuel with
  | O => Fault Diverges
  | S fuel' =>
      if diffCounter <=? Z.of_nat HAND_SIZE - x + 1 then
        let* a := rd hr i in
        let* b := rd hr (i + 1) in
        let '(diffCounter', matchCounter') :=
          if a =? b then (diffCounter, matchCounter + 1)
          else (diffCounter + 1, 1) in
        if matchCounter' =? x then rd hr i
        else isXOfAKind_loop fuel' hr x (i + 1) diffCounter' matchCounter'
      else Ok 0
  end.

(** Every iteration moves [i] one cell up, and no iteration gets past
    the end of the array without a fault, so one unit of fuel per cell
    (and one more) is never used up. *)
Definition array_fuel {A : Type} (a : list A) : nat := S (length a).

Definition isXOfAKind (g : globals) (x : Z) : result Z :=
  isXOfAKind_loop (array_fuel (handRank g)) (handRank g) x 0 1 1.

(** *** isFullHouse *)

(** The source loop is [while(uniqueCards<3)], again with no bound on
    [i].  [counter] is the local two cell array. *)
Fixpoint isFullHouse_loop (fuel : nat) (hr : list Z) (i uniqueCards : nat)
    (counter : list Z) (cardRankOfTriplet : Z) : result Z :=
  match fuel with
  | O => Fault Diverges
  | S fuel' =>
      if (uniqueCards <? 3)%nat then
        let* a := rd hr i in
        let* b := rd hr (i + 1) in
        let* (uniqueCards', counter') :=
          (if a =? b then
             let* c := rd counter (uniqueCards - 1) in
             let* counter' := wr counter (uniqueCards - 1) (c + 1) in
             Ok (uniqueCards, counter')
           else Ok (S uniqueCards, counter)) in
        let* c0 := rd counter' 0 in
        let* c1 := rd counter' 1 in
        let* cardRankOfTriplet' :=
          (if (c0 =? 2) && (c1 =? 3) then rd hr (HAND_SIZE - 1)
           else if (c0 =? 3) && (c1 =? 2) then rd hr 0
           else Ok cardRankOfTriplet) in
        isFullHouse_loop fuel' hr (i + 1) uniqueCards' counter'
          cardRankOfTriplet'
      else Ok cardRankOfTriplet
  end.

Definition isFullHouse (g : globals) : result Z :=
  isFullHouse_loop (array_fuel (handRank g)) (handRank g) 0 1 [1; 1] 0.

(** *** isTwoPair *)

(** [while((uniqueCardCount<4) && i<HAND_SIZE-1)]: this loop does bound
    [i]. *)
Fixpoint isTwoPair_loop (fuel : nat) (hr : list Z) (i uniqueCardCount : nat)
    (counter : list Z) : result (list Z) :=
  match fuel with
  | O => Fault Diverges
  | S fuel' =>
      if (uniqueCardCount <? 4)%nat && (i <? HAND_SIZE - 1)%nat then
        let* a := rd hr i in
        let* b := rd hr (i + 1) in
        let* (uniqueCardCount', counter') :=
          (if a =? b then
             let* c := rd counter (uniqueCardCount - 1) in
             let* counter' := wr counter (uniqueCardCount - 1) (c + 1) in
             Ok (uniqueCardCount, counter')
           else Ok (S uniqueCardCount, counter)) in
        isTwoPair_loop fuel' hr (i + 1) uniqueCardCount' counter'
      else Ok counter
  end.

Definition isTwoPair (g : globals) : result Z :=
  let* counter := isTwoPair_loop (array_fuel (handRank g)) (handRank g) 0 1
                    [1; 1; 1] in
  let* c0 := rd counter 0 in
  let* c1 := rd counter 1 in
  let* c2 := rd counter 2 in
  if (c0 =? 2) && (c1 =? 2) then rd (handRank g) (HAND_SIZE / 2)
  else if ((c0 =? 2) && (c2 =? 2)) || ((c1 =? 2) && (c2 =? 2))
       then rd (handRank g) (HAND_SIZE - 1)
  else Ok 0.

(** *** highCard *)

Fixpoint highCard_loop (hr : list Z) (n i : nat) (highCardRank : Z)
  : result Z :=
  match n with
  | O => Ok highCardRank
  | S n' =>
      let* r := rd hr i in
      highCard_loop hr n' (S i)
        (if highCardRank <? r then r else highCardRank)
  end.

Definition highCard (g : globals) : result Z :=
  highCard_loop (handRank g) HAND_SIZE 0 0.

(** ** getHandRank *)

(** [pokerHandID[i] = v]. *)
Definition set_id (g : globals) (i : nat) (v : Z) : result globals :=
  let* id := wr (pokerHandID g) i v in
  Ok (set_pokerHandID g id).

(** [pokerHandID[MAJOR_RANK_DIGIT]=major; pokerHandID[MINOR_RANK_DIGIT]=minor;] *)
Definition set_major_minor (g : globals) (major minor : Z) : result globals :=
  let* g1 := set_id g MAJOR_RANK_DIGIT major in
  set_id g1 MINOR_RANK_DIGIT minor.

Definition getHandRank (g : globals) : result globals :=
  let* g := set_id g LOW_PAIR_DIGIT 0 in
  let* straightMinorRank := isStraight g in
  let* flushMinorRank := isFlush g in
  if negb (flushMinorRank =? 0) && negb (straightMinorRank =? 0) then
    set_major_minor g STRAIGHT_FLUSH straightMinorRank
  else
    let* tempMinorRank := isXOfAKind g 4 in
    if negb (tempMinorRank =? 0) then
      set_major_minor g FOUR_OF_A_KIND tempMinorRank
    else
      let* tempMinorRank := isFullHouse g in
      if negb (tempMinorRank =? 0) then
        set_major_minor g FULL_HOUSE tempMinorRank
      else if negb (flushMinorRank =? 0) then
        set_major_minor g FLUSH flushMinorRank
      else if negb (straightMinorRank =? 0) then
        set_major_minor g STRAIGHT straightMinorRank
      else
        let* tempMinorRank := isXOfAKind g 3 in
        if negb (tempMinorRank =? 0) then
          set_major_minor g THREE_OF_A_KIND tempMinorRank
        else
          let* tempMinorRank := isTwoPair g in
          if negb (tempMinorRank =? 0) then
            let* g := set_major_minor g TWO_PAIR tempMinorRank in
            let* low := isXOfAKind g 2 in
            set_id g LOW_PAIR_DIGIT low
          else
            let* tempMinorRank := isXOfAKind g 2 in
            if negb (tempMinorRank =? 0) then
              set_major_minor g ONE_PAIR tempMinorRank
            else
              let* high := highCard g in
              set_major_minor g HIGH_CARD high.

(** ** isBetterHand *)

(** The [switch] falls through from the case of the baseline category to
    the end; every case below takes the locals as they are when control
    reaches its label.  [true] is [betterHandDetected=TRUE; break]. *)
Definition case_STRAIGHT_FLUSH (g : globals)
    (majorRank minorRank straightMinorRank flushMinorRank : Z) : result bool :=
  let* straightMinorRank :=
    (if straightMinorRank =? 0 then isStraight g else Ok straightMinorRank) in
  let* flushMinorRank :=
    (if flushMinorRank =? 0 then isFlush g else Ok flushMinorRank) in
  if negb (straightMinorRank =? 0) && negb (flushMinorRank =? 0) then
    if majorRank =? STRAIGHT_FLUSH then
      if straightMinorRank >? minorRank then Ok true else Ok false
    else Ok true
  else Ok false.

Definition case_FOUR_OF_A_KIND (g : globals)
    (majorRank minorRank straightMinorRank flushMinorRank : Z) : result bool :=
  let* tempMinor := isXOfAKind g 4 in
  if negb (tempMinor =? 0) then
    if FOUR_OF_A_KIND >? majorRank then Ok true
    else if tempMinor >? minorRank then Ok true
    else case_STRAIGHT_FLUSH g majorRank minorRank straightMinorRank flushMinorRank
  else case_STRAIGHT_FLUSH g majorRank minorRank straightMinorRank flushMinorRank.

Definition case_FULL_HOUSE (g : globals)
    (majorRank minorRank straightMinorRank flushMinorRank : Z) : result bool :=
  let* tempMinor := isFullHouse g in
  if negb (tempMinor =? 0) then
    if FULL_HOUSE >? majorRank then Ok true
    else if tempMinor >? minorRank then Ok true
    else case_FOUR_OF_A_KIND g majorRank minorRank straightMinorRank flushMinorRank
  else case_FOUR_OF_A_KIND g majorRank minorRank straightMinorRank flushMinorRank.

Definition case_FLUSH (g : globals)
    (majorRank minorRank straightMinorRank : Z) : result bool :=
  let* flushMinorRank := isFlush g in
  if negb (flushMinorRank =? 0) then
    if FLUSH >? majorRank then Ok true
    else if flushMinorRank >? minorRank then Ok true
    else case_FULL_HOUSE g majorRank minorRank straightMinorRank flushMinorRank
  else case_FULL_HOUSE g majorRank minorRank straightMinorRank flushMinorRank.

Definition case_STRAIGHT (g : globals) (majorRank minorRank : Z)
  : result bool :=
  let* straightMinorRank := isStraight g in
  if negb (straightMinorRank =? 0) then
    if STRAIGHT >? majorRank then Ok true
    else if straightMinorRank >? minorRank then Ok true
    else case_FLUSH g majorRank minorRank straightMinorRank
  else case_FLUSH g majorRank minorRank straightMinorRank.

Definition case_THREE_OF_A_KIND (g : globals) (majorRank minorRank : Z)
  : result bool :=
  let* tempMinor := isXOfAKind g 3 in
  if negb (tempMinor =? 0) then
    if THREE_OF_A_KIND >? majorRank then Ok true
    else if tempMinor >? minorRank then Ok true
    else case_STRAIGHT g majorRank minorRank
  else case_STRAIGHT g majorRank minorRank.

Definition case_TWO_PAIR (g : globals) (majorRank minorRank : Z)
  : result bool :=
  let* tempMinor := isTwoPair g in
  if negb (tempMinor =? 0) then
    if TWO_PAIR >? majorRank then Ok true
    else if tempMinor >? minorRank then Ok true
    else if tempMinor =? minorRank then
      (* looks at the lower pairs *)
      let* low := isXOfAKind g 2 in
      let* baseLow := rd (pokerHandID g) LOW_PAIR_DIGIT in
      if low >? baseLow then Ok true
      else case_THREE_OF_A_KIND g majorRank minorRank
    else case_THREE_OF_A_KIND g majorRank minorRank
  else case_THREE_OF_A_KIND g majorRank minorRank.

Definition case_ONE_PAIR (g : globals) (majorRank minorRank : Z)
  : result bool :=
  let* tempMinor := isXOfAKind g 2 in
  if negb (tempMinor =? 0) then
    if ONE_PAIR >? majorRank then Ok true
    else if tempMinor >? minorRank then Ok true
    else case_TWO_PAIR g majorRank minorRank
  else case_TWO_PAIR g majorRank minorRank.

Definition case_HIGH_CARD (g : globals) (majorRank minorRank : Z)
  : result bool :=
  let* high := highCard g in
  if high >? minorRank then Ok true
  else case_ONE_PAIR g majorRank minorRank.

Definition isBetterHand (g : globals) : result bool :=
  let* majorRank := rd (pokerHandID g) MAJOR_RANK_DIGIT in
  let* minorRank := rd (pokerHandID g) MINOR_RANK_DIGIT in
  if majorRank =? HIGH_CARD then case_HIGH_CARD g majorRank minorRank
  else if majorRank =? ONE_PAIR then case_ONE_PAIR g majorRank minorRank
  else if majorRank =? TWO_PAIR then case_TWO_PAIR g majorRank minorRank
  else if majorRank =? THREE_OF_A_KIND
       then case_THREE_OF_A_KIND g majorRank minorRank
  else if majorRank =? STRAIGHT then case_STRAIGHT g majorRank minorRank
  else if majorRank =? FLUSH then case_FLUSH g majorRank minorRank 0
  else if majorRank =? FULL_HOUSE
       then case_FULL_HOUSE g majorRank minorRank 0 0
  else if majorRank =? FOUR_OF_A_KIND
       then case_FOUR_OF_A_KIND g majorRank minorRank 0 0
  else if majorRank =? STRAIGHT_FLUSH
       then case_STRAIGHT_FLUSH g majorRank minorRank 0 0
  else Ok false.

(** ** sortHand *)

(** The body of the [for] loop at index [i]: compare two neighbours and
    swap them, rank and suit, when they are out of order. *)
Definition sortHand_step (g : globals) (swapDetector : bool) (i : nat)
  : result (globals * bool) :=
  let* a := rd (handRank g) i in
  let* b := rd (handRank g) (i + 1) in
  if a >? b then
    let* tempRank := rd (handRank g) i in
    let* hr1 := wr (handRank g) i b in
    let* hr2 := wr hr1 (i + 1) tempRank in
    let* tempSuit := rd (handSuit g) i in
    let* s := rd (handSuit g) (i + 1) in
    let* hs1 := wr (handSuit g) i s in
    let* hs2 := wr hs1 (i + 1) tempSuit in
    Ok (set_hand g hr2 hs2, true)
  else Ok (g, swapDetector).

Fixpoint sortHand_for (n i : nat) (g : globals) (swapDetector : bool)
  : result (globals * bool) :=
  match n with
  | O => Ok (g, swapDetector)
  | S n' =>
      let* (g', swapDetector') := sortHand_step g swapDetector i in
      sortHand_for n' (S i) g' swapDetector'
  end.

Fixpoint sortHand_while (fuel : nat) (g : globals) : result globals :=
  match fuel with
  | O => Fault Diverges
  | S fuel' =>
      let* (g', swapDetector) := sortHand_for (HAND_SIZE - 1) 0 g false in
      if swapDetector then sortHand_while fuel' g' else Ok g'
  end.

(** Bubble sort of [n] cells is done after less than [n * n] sweeps. *)
Definition sort_fuel : nat := HAND_SIZE * HAND_SIZE.

Definition sortHand (g : globals) : result globals :=
  sortHand_while sort_fuel g.

(** ** repeatCards *)

(** [char rank = handRank[i]]: the conversion of an [int] to a (signed)
    [char]; the identity on the ranks of a deck. *)
Definition char_of_int (z : Z) : Z := (z + 128) mod 256 - 128.

Fixpoint repeatCards_inner (g : globals) (rank : Z) (suit : ascii)
    (n j : nat) (repCard : bool) : result bool :=
  match n with
  | O => Ok repCard
  | S n' =>
      let* r := rd (handRank g) j in
      if rank =? r then
        let* s := rd (handSuit g) j in
        repeatCards_inner g rank suit n' (S j)
          (if Ascii.eqb suit s then true else repCard)
      else repeatCards_inner g rank suit n' (S j) repCard
  end.

Fixpoint repeatCards_outer (g : globals) (n i : nat) (repCard : bool)
  : result bool :=
  match n with
  | O => Ok repCard
  | S n' =>
      let* r := rd (handRank g) i in
      let* suit := rd (handSuit g) i in
      let* repCard' :=
        repeatCards_inner g (char_of_int r) suit (HAND_SIZE - (i + 1))
          (i + 1) repCard in
      repeatCards_outer g n' (S i) repCard'
  end.

Definition repeatCards (g : globals) : result bool :=
  repeatCards_outer g HAND_SIZE 0 false.

(** ** loadCopyHand *)

Fixpoint loadCopyHand_for (n i : nat) (g : globals) : result globals :=
  match n with
  | O => Ok g
  | S n' =>
      let* r := rd (copyHandRank g) i in
      let* hr := wr (handRank g) i r in
      let* s := rd (copyHandSuit g) i in
      let* hs := wr (handSuit g) i s in
      loadCopyHand_for n' (S i) (set_hand g hr hs)
  end.

Definition loadCopyHand (g : globals) : result globals :=
  loadCopyHand_for HAND_SIZE 0 g.

(** ** getProbabilities *)

(** [100*((float)numOfImprovements/sampleNumber)]: the division is
    done in [float] on the two converted [int]s, and so is the
    multiplication by 100. *)
Definition percentage (numOfImprovements sampleNumber : Z) : float :=
  float_mul (float_of_int 100)
    (float_div (float_of_int numOfImprovements) (float_of_int sampleNumber)).

(** The [do { ... } while(repeatCards()==TRUE||sameHand==TRUE)] loop.
    Every iteration calls [rand()] twice and writes the drawn card into
    the cell [swapIndex] of the hand. *)
Fixpoint getProbabilities_draw (draws : list nat) (g : globals)
    (swapIndex : nat) (tempRank : Z) (tempSuit : ascii)
  : result (globals * Z * ascii * list nat) :=
  match draws with
  | r1 :: r2 :: rest =>
      let randRank := Z.of_nat (r1 mod RANK_COUNT) + 2 in
      let* randSuit := rd SUIT_LIST (r2 mod SUIT_COUNT) in
      let* hr := wr (handRank g) swapIndex randRank in
      let* hs := wr (handSuit g) swapIndex randSuit in
      let g' := set_hand g hr hs in
      let sameHand := (randRank =? tempRank) && Ascii.eqb randSuit tempSuit in
      let* repCard := repeatCards g' in
      if repCard || sameHand
      then getProbabilities_draw rest g' swapIndex tempRank tempSuit
      else Ok (g', randRank, randSuit, rest)
  | _ => Fault NoMoreDraws
  end.

(** [for(k=0;k<HAND_SIZE;++k)]: where the drawn card is after sorting;
    [swapIndex] keeps its value when the card is not found. *)
Fixpoint getProbabilities_locate (g : globals) (randRank : Z)
    (randSuit : ascii) (n k swapIndex : nat) : result nat :=
  match n with
  | O => Ok swapIndex
  | S n' =>
      let* r := rd (handRank g) k in
      if randRank =? r then
        let* s := rd (handSuit g) k in
        if Ascii.eqb randSuit s then Ok k
        else getProbabilities_locate g randRank randSuit n' (S k) swapIndex
      else getProbabilities_locate g randRank randSuit n' (S k) swapIndex
  end.

(** The body of [for(j=0; j<sampleNumber; ++j)], [n] times. *)
Fixpoint getProbabilities_trials (n : nat) (g : globals) (swapIndex : nat)
    (tempRank : Z) (tempSuit : ascii) (numOfImprovements : Z)
    (draws : list nat) : result (globals * nat * Z * list nat) :=
  match n with
  | O => Ok (g, swapIndex, numOfImprovements, draws)
  | S n' =>
      let* (g1, randRank, randSuit, draws1) :=
        getProbabilities_draw draws g swapIndex tempRank tempSuit in
      let* g2 := sortHand g1 in
      let* swapIndex' :=
        getProbabilities_locate g2 randRank randSuit HAND_SIZE 0 swapIndex in
      let* better := isBetterHand g2 in
      getProbabilities_trials n' g2 swapIndex' tempRank tempSuit
        (if better then numOfImprovements + 1 else numOfImprovements)
        draws1
  end.

(** [for(j=0; j<HAND_SIZE; ++j)]: the cell of the original hand that
    holds the discarded card gets the percentage. *)
Fixpoint getProbabilities_store (sampleNumber : Z) (g : globals)
    (tempRank : Z) (tempSuit : ascii) (numOfImprovements : Z) (n j : nat)
  : result globals :=
  match n with
  | O => Ok g
  | S n' =>
      let* s := rd (copyHandSuit g) j in
      if Ascii.eqb tempSuit s then
        let* r := rd (copyHandRank g) j in
        if tempRank =? r then
          let* p := wr (probabilities g) j
                      (percentage numOfImprovements sampleNumber) in
          Ok (set_probabilities g p)
        else getProbabilities_store sampleNumber g tempRank tempSuit
               numOfImprovements n' (S j)
      else getProbabilities_store sampleNumber g tempRank tempSuit
             numOfImprovements n' (S j)
  end.

(** The head of the body of the outer loop: reload, sort, remember the
    card to discard. *)
Definition getProbabilities_enter (g : globals) (i : nat)
  : result (globals * Z * ascii) :=
  let* g1 := loadCopyHand g in
  let* g2 := sortHand g1 in
  let* tempSuit := rd (handSuit g2) i in
  let* tempRank := rd (handRank g2) i in
  Ok (g2, tempRank, tempSuit).

(** The body of [for(i=0; i<HAND_SIZE; ++i)]. *)
Definition getProbabilities_position (sampleNumber : Z) (g : globals)
    (i : nat) (draws : list nat) : result (globals * list nat) :=
  let* (g2, tempRank, tempSuit) := getProbabilities_enter g i in
  let* (g3, swapIndex, numOfImprovements, draws') :=
    getProbabilities_trials (Z.to_nat sampleNumber) g2 i tempRank tempSuit 0
      draws in
  let* g4 := getProbabilities_store sampleNumber g3 tempRank tempSuit
               numOfImprovements HAND_SIZE 0 in
  Ok (g4, draws').

Fixpoint getProbabilities_for (sampleNumber : Z) (n i : nat) (g : globals)
    (draws : list nat) : result (globals * list nat) :=
  match n with
  | O => Ok (g, draws)
  | S n' =>
      let* (g', draws') := getProbabilities_position sampleNumber g i draws in
      getProbabilities_for sampleNumber n' (S i) g' draws'
  end.

(** The program fixes [sampleNumber] to [SAMPLE_NUMBER]; it is an
    argument here. *)
Definition getProbabilities (sampleNumber : Z) (g : globals)
    (draws : list nat) : result (globals * list nat) :=
  getProbabilities_for sampleNumber HAND_SIZE 0 g draws.

(** ** main, for one good line *)

Definition set_copy (g : globals) (cr : list Z) (cs : list ascii) : globals :=
  {| handRank := handRank g; handSuit := handSuit g;
     copyHandRank := cr; copyHandSuit := cs;
     probabilities := probabilities g; pokerHandID := pokerHandID g |}.

(** [copyHandRank[i]=handRank[i]; copyHandSuit[i]=handSuit[i];] *)
Fixpoint main_copy_for (n i : nat) (g : globals) : result globals :=
  match n with
  | O => Ok g
  | S n' =>
      let* r := rd (handRank g) i in
      let* cr := wr (copyHandRank g) i r in
      let* s := rd (handSuit g) i in
      let* cs := wr (copyHandSuit g) i s in
      main_copy_for n' (S i) (set_copy g cr cs)
  end.

(** What [main] does with a hand read without error. *)
Definition main_good_line (sampleNumber : Z) (g : globals) (draws : list nat)
  : result (globals * list nat) :=
  let* g1 := main_copy_for HAND_SIZE 0 g in
  let* g2 := sortHand g1 in
  let* g3 := getHandRank g2 in
  getProbabilities sampleNumber g3 draws.

(** [classify] of the specification: sort, then rank; the key is the
    content of [pokerHandID]. *)
Definition classify (g : globals) : result (list Z) :=
  let* g1 := sortHand g in
  let* g2 := getHandRank g1 in
  Ok (pokerHandID g2).

(** The globals as the program starts: zeroed arrays, with the hand that
    [readLine] has stored. *)
Definition initial (hr : list Z) (hs : list ascii) : globals :=
  {| handRank := hr; handSuit := hs;
     copyHandRank := [0; 0; 0; 0; 0];
     copyHandSuit := ["000"; "000"; "000"; "000"; "000"]%char;
     probabilities := [S754_zero false; S754_zero false; S754_zero false;
                       S754_zero false; S754_zero false];
     pokerHandID := [0; 0; 0] |}.

(** ** Notions of the specification *)

(** The arrays have their declared sizes. *)
Definition hand_ok (g : globals) : Prop :=
  length (handRank g) = HAND_SIZE /\ length (handSuit g) = HAND_SIZE.

Definition globals_ok (g : globals) : Prop :=
  hand_ok g /\
  length (copyHandRank g) = HAND_SIZE /\
  length (copyHandSuit g) = HAND_SIZE /\
  length (probabilities g) = HAND_SIZE /\
  length (pokerHandID g) = DIGITS_IN_POKER_HAND_ID.

(** A card of the deck. *)
Definition is_card (c : Z * ascii) : Prop :=
  2 <= c.1 <= 14 /\ c.2 ∈ take SUIT_COUNT SUIT_LIST.

(** Five different cards of the deck. *)
Definition valid_cards (cs : list (Z * ascii)) : Prop :=
  length cs = HAND_SIZE /\ Forall is_card cs /\ NoDup cs.

Definition valid_hand (g : globals) : Prop :=
  hand_ok g /\ valid_cards (cards g).

(** The hand is kept in ascending order of rank. *)
Definition sorted_hand (g : globals) : Prop :=
  Sorted Z.le (handRank g).

(** The hand of [g] with the key [id] as the baseline. *)
Definition with_baseline (g : globals) (id : list Z) : globals :=
  set_pokerHandID g id.

(** The strict lexicographic order on keys (category, primary tie-break,
    secondary tie-break). *)
Definition key_ltb (k1 k2 : list Z) : bool :=
  match k1, k2 with
  | [c1; p1; s1], [c2; p2; s2] =>
      (c1 <? c2) ||
      ((c1 =? c2) && ((p1 <? p2) || ((p1 =? p2) && (s1 <? s2))))
  | _, _ => false
  end.

(** The five ranks are five consecutive ranks, or the wheel. *)
Definition forms_straight (ranks : list Z) : Prop :=
  (exists r, ranks ≡ₚ [r; r + 1; r + 2; r + 3; r + 4]) \/
  ranks ≡ₚ specialStraight.

(** What a function leaves alone when it only works on the hand. *)
Definition same_rest (g g' : globals) : Prop :=
  copyHandRank g' = copyHandRank g /\
  copyHandSuit g' = copyHandSuit g /\
  probabilities g' = probabilities g /\
  pokerHandID g' = pokerHandID g.

(** The measure of the bubble sort: the number of pairs out of order. *)
Fixpoint smaller_after (x : Z) (l : list Z) : nat :=
  match l with
  | [] => 0
  | y :: l' => (if x >? y then 1 else 0) + smaller_after x l'
  end.

Fixpoint inversions (l : list Z) : nat :=
  match l with
  | [] => 0
  | x :: l' => smaller_after x l' + inversions l'
  end.

(** The number of neighbours in the hand with different ranks. *)
Fixpoint changes (l : list Z) : nat :=
  match l with
  | x :: ((y :: _) as l') => (if x =? y then 0 else 1) + changes l'
  | _ => 0
  end.

(** The ladder of [getHandRank] as a relation between the results of the
    detectors and the key: one rule for every branch of the [if] chain,
    with the tests that lead to the branch as premises. *)
Inductive ladder (g : globals) : list Z -> Prop :=
| ladder_straight_flush s f :
    isStraight g = Ok s -> isFlush g = Ok f ->
    f <> 0 -> s <> 0 ->
    ladder g [STRAIGHT_FLUSH; s; 0]
| ladder_four_of_a_kind s f t :
    isStraight g = Ok s -> isFlush g = Ok f ->
    ~ (f <> 0 /\ s <> 0) ->
    isXOfAKind g 4 = Ok t -> t <> 0 ->
    ladder g [FOUR_OF_A_KIND; t; 0]
| ladder_full_house s f t :
    isStraight g = Ok s -> isFlush g = Ok f ->
    ~ (f <> 0 /\ s <> 0) ->
    isXOfAKind g 4 = Ok 0 ->
    isFullHouse g = Ok t -> t <> 0 ->
    ladder g [FULL_HOUSE; t; 0]
| ladder_flush f :
    isStraight g = Ok 0 -> isFlush g = Ok f ->
    isXOfAKind g 4 = Ok 0 ->
    isFullHouse g = Ok 0 ->
    f <> 0 ->
    ladder g [FLUSH; f; 0]
| ladder_straight s :
    isStraight g = Ok s -> isFlush g = Ok 0 ->
    isXOfAKind g 4 = Ok 0 ->
    isFullHouse g = Ok 0 ->
    s <> 0 ->
    ladder g [STRAIGHT; s; 0]
| ladder_three_of_a_kind t :
    isStraight g = Ok 0 -> isFlush g = Ok 0 ->
    isXOfAKind g 4 = Ok 0 ->
    isFullHouse g = Ok 0 ->
    isXOfAKind g 3 = Ok t -> t <> 0 ->
    ladder g [THREE_OF_A_KIND; t; 0]
| ladder_two_pair t low :
    isStraight g = Ok 0 -> isFlush g = Ok 0 ->
    isXOfAKind g 4 = Ok 0 ->
    isFullHouse g = Ok 0 ->
    isXOfAKind g 3 = Ok 0 ->
    isTwoPair g = Ok t -> t <> 0 ->
    isXOfAKind g 2 = Ok low ->
    ladder g [TWO_PAIR; t; low]
| ladder_one_pair t :
    isStraight g = Ok 0 -> isFlush g = Ok 0 ->
    isXOfAKind g 4 = Ok 0 ->
    isFullHouse g = Ok 0 ->
    isXOfAKind g 3 = Ok 0 ->
    isTwoPair g = Ok 0 ->
    isXOfAKind g 2 = Ok t -> t <> 0 ->
    ladder g [ONE_PAIR; t; 0]
| ladder_high_card h :
    isStraight g = Ok 0 -> isFlush g = Ok 0 ->
    isXOfAKind g 4 = Ok 0 ->
    isFullHouse g = Ok 0 ->
    isXOfAKind g 3 = Ok 0 ->
    isTwoPair g = Ok 0 ->
    isXOfAKind g 2 = Ok 0 ->
    highCard g = Ok h ->
    ladder g [HIGH_CARD; h; 0].

(** The detector that stands for a category in the ladder; a straight
    flush is detected when the straight and the flush detector both
    succeed.  A detector succeeds when it gives a value other than 0. *)
Definition detector (g : globals) (category : Z) : result Z :=
  if category =? STRAIGHT_FLUSH then
    let* s := isStraight g in
    let* f := isFlush g in
    Ok (if negb (f =? 0) && negb (s =? 0) then s else 0)
  else if category =? FOUR_OF_A_KIND then isXOfAKind g 4
  else if category =? FULL_HOUSE then isFullHouse g
  else if category =? FLUSH then isFlush g
  else if category =? STRAIGHT then isStraight g
  else if category =? THREE_OF_A_KIND then isXOfAKind g 3
  else if category =? TWO_PAIR then isTwoPair g
  else if category =? ONE_PAIR then isXOfAKind g 2
  else highCard g.

(** Two neighbours of the hand are in order. *)
Definition in_order (g : globals) (k : nat) : Prop :=
  exists a b,
    handRank g !! k = Some a /\ handRank g !! (k + 1)%nat = Some b /\ a <= b.

(** All cards of the hand have one suit. *)
Definition one_suit (hs : list ascii) : Prop :=
  forall s s', s ∈ hs -> s' ∈ hs -> s = s'.

(** The sum of the ranks of the hand. *)
Definition rank_sum (hr : list Z) : Z := foldr Z.add 0 hr.

(** The key that [f] leaves in [pokerHandID]. *)
Definition key_of (r : result globals) : result (list Z) :=
  let* g := r in Ok (pokerHandID g).

(** What the two loops of [repeatCards] compute, on the list of cards:
    some card is followed by a card with the same rank and suit. *)
Definition same_card (rank : Z) (suit : ascii) (c : Z * ascii) : bool :=
  (rank =? c.1) && Ascii.eqb suit c.2.

Fixpoint has_repeat (cs : list (Z * ascii)) : bool :=
  match cs with
  | [] => false
  | c :: cs' => existsb (same_card (char_of_int c.1) c.2) cs' || has_repeat cs'
  end.

(** The invariant of the trials for the card at [i] of the sorted
    original hand [H]: the four cards next to the cell [swapIndex] are
    the four cards of [H] that stay. *)
Definition trial_inv (H : list (Z * ascii)) (i : nat) (g : globals)
    (swapIndex : nat) : Prop :=
  hand_ok g /\ (swapIndex < HAND_SIZE)%nat /\
  delete swapIndex (cards g) ≡ₚ delete i H.

(** The baseline of the estimation: the key and the original order of
    the hand. *)
Definition same_baseline (g g' : globals) : Prop :=
  pokerHandID g' = pokerHandID g /\
  copyHandRank g' = copyHandRank g /\
  copyHandSuit g' = copyHandSuit g.

(** Two states hold the same hand. *)
Definition same_hand (g g' : globals) : Prop :=
  handRank g' = handRank g /\ handSuit g' = handSuit g.

(** The original hand as every round sorts it. *)
Definition sorted_original (g : globals) : list (Z * ascii) :=
  match getProbabilities_enter g 0 with
  | Ok (g2, _, _) => cards g2
  | Fault _ => []
  end.

(** The card that two values of [rand()] give. *)
Definition card_of_draws (r1 r2 : nat) : Z * ascii :=
  (Z.of_nat (r1 mod RANK_COUNT) + 2,
   default "000"%char (SUIT_LIST !! (r2 mod SUIT_COUNT)%nat)).

(** The detectors whose loops have no bound stay inside the hand. *)
Definition deep_in_bounds (g : globals) : Prop :=
  (exists v, isXOfAKind g 3 = Ok v) /\
  (exists v, isFullHouse g = Ok v) /\
  (exists v, isXOfAKind g 4 = Ok v).

(** [isBetterHand] stays inside every hand that the trials for the card
    at [i] of [H] give it, against the baseline [id]. *)
Definition cascade_in_bounds (H : list (Z * ascii)) (i : nat) (id : list Z)
  : Prop :=
  forall g1 k,
    pokerHandID g1 = id -> valid_hand g1 -> sorted_hand g1 ->
    trial_inv H i g1 k ->
    exists b, isBetterHand g1 = Ok b.

(** The supply of draws holds [n] cards outside [cs]; a card of [cs]
    that comes up is passed over. *)
Fixpoint enough_draws (cs : list (Z * ascii)) (draws : list nat) (n : nat)
  {struct draws} : bool :=
  match n with
  | O => true
  | S n' =>
      match draws with
      | r1 :: r2 :: rest =>
          if bool_decide (card_of_draws r1 r2 ∈ cs)
          then enough_draws cs rest n
          else enough_draws cs rest n'
      | _ => false
      end
  end.

(** The baseline is a high card or one pair, or the five ranks of the
    original hand are different. *)
Definition safe_baseline (g : globals) : Prop :=
  (exists M, pokerHandID g !! MAJOR_RANK_DIGIT = Some M /\
             (M = HIGH_CARD \/ M = ONE_PAIR)) \/
  NoDup (copyHandRank g).

(** ** Runs of equal ranks *)

(** The lengths of the runs of equal neighbours in an array of ranks;
    in a sorted hand, how often every rank occurs. *)
Fixpoint runs (l : list Z) : list nat :=
  match l with
  | [] => []
  | a :: l' =>
      match l' with
      | [] => [1%nat]
      | b :: _ =>
          if a =? b
          then match runs l' with
               | n :: ns => S n :: ns
               | [] => [1%nat]
               end
          else 1%nat :: runs l'
      end
  end.

(** The longest run of equal neighbours. *)
Definition longest_run (l : list Z) : nat := foldr Nat.max 0%nat (runs l).

(** The runs of a sorted hand with two pairs, and with a full house. *)
Definition two_pair_runs : list (list nat) :=
  [[2; 2; 1]; [2; 1; 2]; [1; 2; 2]]%nat.
Definition full_house_runs : list (list nat) := [[2; 3]; [3; 2]]%nat.

(** The categories of the keys that [getHandRank] stores in the runs
    that stay inside the hand. *)
Definition categories_in_bounds : list Z :=
  [HIGH_CARD; ONE_PAIR; THREE_OF_A_KIND; STRAIGHT; FLUSH; FOUR_OF_A_KIND;
   STRAIGHT_FLUSH].


(** ** Input and output *)

(** What the C standard leaves undefined besides the array accesses. *)
Inductive undefined : Type :=
| MemoryFault (f : fault)   (* a fault of the functions on the globals *)
| NoReturnValue             (* the value of a call that ended without [return] is used *)
| Uninitialised.            (* a local is read before it is assigned *)

Inductive outcome (A : Type) : Type :=
| Returns (a : A)
| Undefined (u : undefined).

Arguments Returns {A} a.
Arguments Undefined {A} u.

Definition bind_outcome {A B : Type} (m : outcome A) (k : A -> outcome B)
  : outcome B :=
  match m with
  | Returns a => k a
  | Undefined u => Undefined u
  end.

Definition lift {A : Type} (r : result A) : outcome A :=
  match r with
  | Ok a => Returns a
  | Fault f => Undefined (MemoryFault f)
  end.

Declare Scope outcome_scope.
Delimit Scope outcome_scope with outcome.
Notation "'let!' x ':=' m 'in' k" := (bind_outcome m (fun x => k))
  (at level 10, x pattern, m at level 100, k at level 200) : outcome_scope.
Open Scope outcome_scope.

(** [const char RANK_LIST[] = "234567890JQKA"]: thirteen ranks and the
    closing NUL. *)
Definition RANK_LIST : list ascii :=
  ["2"; "3"; "4"; "5"; "6"; "7"; "8"; "9"; "0"; "J"; "Q"; "K"; "A";
   "000"]%char.

(** A [char] is its byte; as an [int] it is signed, as in
    [char_of_int]. *)
Definition int_of_char (c : ascii) : Z :=
  char_of_int (Z.of_N (N_of_ascii c)).

(** [EOF] is -1; converted to [char] it is the byte 255. *)
Definition EOF : Z := -1.
Definition EOF_char : ascii := "255"%char.
Definition newline : ascii := "010"%char.

(** What [printf] is called with: [printf("%c",c)], [printf] of a string
    without conversions, and [printf(" %.1f%%",p)]. *)
Inductive printed : Type :=
| Char (c : ascii)
| Text (s : string)
| Percent (p : float).

(** [c=getchar()] with [char c], on the rest of the standard input. *)
Definition getchar (input : list ascii) : ascii * list ascii :=
  match input with
  | [] => (EOF_char, [])
  | c :: rest => (c, rest)
  end.

Fixpoint isSuit_for (inputSuit : ascii) (n i : nat) : result Z :=
  match n with
  | O => Ok FALSE
  | S n' =>
      let* s := rd SUIT_LIST i in
      if Ascii.eqb inputSuit s then Ok TRUE
      else isSuit_for inputSuit n' (S i)
  end.

Definition isSuit (inputSuit : ascii) : result Z :=
  isSuit_for inputSuit SUIT_COUNT 0.

Fixpoint isRank_for (inputRank : ascii) (n i : nat) : result Z :=
  match n with
  | O => Ok FALSE
  | S n' =>
      let* r := rd RANK_LIST i in
      if Ascii.eqb inputRank r then Ok TRUE
      else isRank_for inputRank n' (S i)
  end.

Definition isRank (inputRank : ascii) : result Z :=
  isRank_for inputRank RANK_COUNT 0.

(** [trashToEndOfLine] reads and prints up to the end of the line; it
    has no [return] statement. *)
Fixpoint trashToEndOfLine (input : list ascii) (output : list printed)
  : list ascii * list printed :=
  match input with
  | [] => ([], output)
  | c :: rest =>
      if negb (Ascii.eqb c newline) && negb (Ascii.eqb c EOF_char)
      then trashToEndOfLine rest (output ++ [Char c])
      else (rest, output)
  end.

(** [for(i=8; i<RANK_COUNT; ++i)]; [rankAsInteger] has no value when
    the loop finds nothing. *)
Fixpoint rankToInt_for (c : ascii) (n i : nat) : outcome Z :=
  match n with
  | O => Undefined Uninitialised
  | S n' =>
      let! r := lift (rd RANK_LIST i) in
      if Ascii.eqb c r then Returns (Z.of_nat i + 2)
      else rankToInt_for c n' (S i)
  end.

Definition rankToInt (c : ascii) : outcome Z :=
  if (int_of_char c >=? int_of_char "2") && (int_of_char c <=? int_of_char "9")
  then Returns (int_of_char c - int_of_char "0")
  else rankToInt_for c (RANK_COUNT - 8) 8.

(** The locals of [readLine] that live across the iterations. *)
Record readLine_locals : Type := {
  isError : Z;
  charCount : Z;
  inputCount : Z;
  rankCount : nat;
  suitCount : nat;
  branchNum : Z
}.

(** The [while((c=getchar())!='\n' && c!=EOF)] loop of [readLine]: the
    result is [c] and the state when the loop is left.  In the three
    branches that call [trashToEndOfLine] its value is assigned to
    [c]. *)
Fixpoint readLine_while (input : list ascii) (output : list printed)
    (g : globals) (l : readLine_locals)
  : outcome (ascii * readLine_locals * list ascii * list printed * globals) :=
  match input with
  | [] => Returns (EOF_char, l, [], output, g)
  | c :: input' =>
      if negb (Ascii.eqb c newline) && negb (Ascii.eqb c EOF_char) then
        let output := output ++ [Char c] in
        let charCount := charCount l + 1 in
        let branchNum := branchNum l + 1 in
        let branchNum := if branchNum >? 3 then 1 else branchNum in
        if branchNum =? 1 then
          let! r := lift (isRank c) in
          if r =? TRUE then
            let! v := rankToInt c in
            let! hr := lift (wr (handRank g) (rankCount l) v) in
            readLine_while input' output (set_hand g hr (handSuit g))
              {| isError := isError l; charCount := charCount;
                 inputCount := inputCount l;
                 rankCount := rankCount l + 1; suitCount := suitCount l;
                 branchNum := branchNum |}
          else
            let '(_, _) := trashToEndOfLine input' output in
            Undefined NoReturnValue
        else if branchNum =? 2 then
          let! s := lift (isSuit c) in
          if s =? TRUE then
            let! hs := lift (wr (handSuit g) (suitCount l) c) in
            readLine_while input' output (set_hand g (handRank g) hs)
              {| isError := isError l; charCount := charCount;
                 inputCount := inputCount l + 1;
                 rankCount := rankCount l; suitCount := suitCount l + 1;
                 branchNum := branchNum |}
          else
            let '(_, _) := trashToEndOfLine input' output in
            Undefined NoReturnValue
        else if branchNum =? 3 then
          if Ascii.eqb c " " then
            readLine_while input' output g
              {| isError := isError l; charCount := charCount;
                 inputCount := inputCount l;
                 rankCount := rankCount l; suitCount := suitCount l;
                 branchNum := branchNum |}
          else
            let '(_, _) := trashToEndOfLine input' output in
            Undefined NoReturnValue
        else
          readLine_while input' output g
            {| isError := isError l; charCount := charCount;
               inputCount := inputCount l;
               rankCount := rankCount l; suitCount := suitCount l;
               branchNum := branchNum |}
      else Returns (c, l, input', output, g)
  end.

Definition readLine (input : list ascii) (output : list printed)
    (g : globals) : outcome (Z * list ascii * list printed * globals) :=
  let! (c, l, input, output, g) :=
    readLine_while input output g
      {| isError := 1; charCount := 0; inputCount := 0; rankCount := 0;
         suitCount := 0; branchNum := 0 |} in
  let isError := if negb (inputCount l =? Z.of_nat HAND_SIZE) then 0
                 else isError l in
  let! repCard := lift (repeatCards g) in
  let isError := if repCard then 0 else isError in
  let isError := if Ascii.eqb c EOF_char then EOF else isError in
  Returns (isError, input, output, g).

(** [printHandRank]: the [switch] prints nothing for a digit outside
    1..9. *)
Definition printHandRank (g : globals) (output : list printed)
  : result (list printed) :=
  let* major := rd (pokerHandID g) MAJOR_RANK_DIGIT in
  Ok (if major =? HIGH_CARD then output ++ [Text "High Card"]
      else if major =? ONE_PAIR then output ++ [Text "Pair"]
      else if major =? TWO_PAIR then output ++ [Text "Two Pair"]
      else if major =? THREE_OF_A_KIND then output ++ [Text "Three of a Kind"]
      else if major =? STRAIGHT then output ++ [Text "Straight"]
      else if major =? FLUSH then output ++ [Text "Flush"]
      else if major =? FULL_HOUSE then output ++ [Text "Full House"]
      else if major =? FOUR_OF_A_KIND then output ++ [Text "Four of a Kind"]
      else if major =? STRAIGHT_FLUSH then output ++ [Text "Straight Flush"]
      else output).

(** [for(int i=0; i<HAND_SIZE; ++i) printf(" %.1f%%",probabilities[i]);] *)
Fixpoint main_print_for (g : globals) (n i : nat) (output : list printed)
  : result (list printed) :=
  match n with
  | O => Ok output
  | S n' =>
      let* p := rd (probabilities g) i in
      main_print_for g n' (S i) (output ++ [Percent p])
  end.

(** The state of a run of [main]. *)
Record world : Type := {
  stdin : list ascii;
  stdout : list printed;
  memory : globals;
  rand : list nat
}.

(** One evaluation of the condition of
    [while((lineStatus=readLine())!=EOF)] and, when it holds, of the
    body; the flag says whether the loop goes on. *)
Definition main_body (sampleNumber : Z) (w : world) : outcome (bool * world) :=
  let! (lineStatus, input, output, g) :=
    readLine (stdin w) (stdout w) (memory w) in
  if lineStatus =? EOF then
    Returns (false, {| stdin := input; stdout := output; memory := g;
                       rand := rand w |})
  else
    let! g := lift (main_copy_for HAND_SIZE 0 g) in
    let output := output ++ [Text " >>>"] in
    if lineStatus =? 1 then
      let! g := lift (sortHand g) in
      let! g := lift (getHandRank g) in
      let! (g, draws) := lift (getProbabilities sampleNumber g (rand w)) in
      let! output := lift (printHandRank g output) in
      let! output := lift (main_print_for g HAND_SIZE 0 output) in
      Returns (true, {| stdin := input;
                        stdout := output ++ [Text (String newline EmptyString)];
                        memory := g; rand := draws |})
    else
      Returns (true, {| stdin := input;
                        stdout := output ++ [Text "Error";
                                             Text (String newline EmptyString)];
                        memory := g; rand := rand w |}).

Fixpoint main_while (fuel : nat) (sampleNumber : Z) (w : world)
  : outcome world :=
  match fuel with
  | O => Undefined (MemoryFault Diverges)
  | S fuel' =>
      let! (continue, w') := main_body sampleNumber w in
      if continue then main_while fuel' sampleNumber w' else Returns w'
  end.

(** Every line that is answered ends with a newline that [readLine] has
    read, so one unit of fuel for every character of the input, and one
    more, is never used up. *)
Definition main_fuel (input : list ascii) : nat := S (length input).

(** The globals are zero when the program starts; [srand] fixes the values
    that [rand()] gives, here the list [draws].  The program fixes
    [sampleNumber] to [SAMPLE_NUMBER]; it is an argument here, as in
    [getProbabilities].  [main] returns 0. *)
Definition startup (input : list ascii) (draws : list nat) : world :=
  {| stdin := input; stdout := [];
     memory := initial [0; 0; 0; 0; 0]
                 ["000"; "000"; "000"; "000"; "000"]%char;
     rand := draws |}.

Definition main (sampleNumber : Z) (input : list ascii) (draws : list nat)
  : outcome (Z * world) :=
  let! w := main_while (main_fuel input) sampleNumber (startup input draws) in
  Returns (0, w).

(** *** Notions for the input *)

(** The rank that a character stands for: its place in [RANK_LIST],
    counted from 2. *)
Definition rank_value (c : ascii) : Z :=
  match list_find (fun r => r = c) (take RANK_COUNT RANK_LIST) with
  | Some (i, _) => Z.of_nat i + 2
  | None => 0
  end.

(** A card as it is typed: a rank character and a suit character. *)
Definition typed_card (c : ascii * ascii) : Prop :=
  c.1 ∈ take RANK_COUNT RANK_LIST /\ c.2 ∈ take SUIT_COUNT SUIT_LIST.

(** Cards typed one after the other, a space before each. *)
Fixpoint more_cards (cs : list (ascii * ascii)) : list ascii :=
  match cs with
  | [] => []
  | (r, s) :: cs' => " "%char :: r :: s :: more_cards cs'
  end.

(** A line of cards, without the newline. *)
Definition line_of (cs : list (ascii * ascii)) : list ascii :=
  match cs with
  | [] => []
  | (r, s) :: cs' => r :: s :: more_cards cs'
  end.

(** The cards stored from the cell [n] on. *)
Fixpoint store_cards (n : nat) (cs : list (ascii * ascii)) (g : globals)
  : globals :=
  match cs with
  | [] => g
  | (r, s) :: cs' =>
      store_cards (S n) cs'
        (set_hand g (<[n:=rank_value r]> (handRank g))
           (<[n:=s]> (handSuit g)))
  end.

(** The state of the loop of [readLine] between two cards. *)
Definition after_cards (n : nat) (l : readLine_locals) : Prop :=
  rankCount l = n /\ suitCount l = n /\ inputCount l = Z.of_nat n /\
  branchNum l = 2.

Definition count_cards (k : nat) (l : readLine_locals) : readLine_locals :=
  {| isError := isError l; charCount := charCount l + 3 * Z.of_nat k;
     inputCount := inputCount l + Z.of_nat k;
     rankCount := rankCount l + k; suitCount := suitCount l + k;
     branchNum := branchNum l |}.

(** The card that two typed characters stand for. *)
Definition card_value (c : ascii * ascii) : Z * ascii := (rank_value c.1, c.2).


(** The names that [printHandRank] prints. *)
Definition category_name (major : Z) : list printed :=
  if major =? HIGH_CARD then [Text "High Card"]
  else if major =? ONE_PAIR then [Text "Pair"]
  else if major =? TWO_PAIR then [Text "Two Pair"]
  else if major =? THREE_OF_A_KIND then [Text "Three of a Kind"]
  else if major =? STRAIGHT then [Text "Straight"]
  else if major =? FLUSH then [Text "Flush"]
  else if major =? FULL_HOUSE then [Text "Full House"]
  else if major =? FOUR_OF_A_KIND then [Text "Four of a Kind"]
  else if major =? STRAIGHT_FLUSH then [Text "Straight Flush"]
  else [].

(** A result that is no divergence, and satisfies [P] when it is a
    value. *)
Definition ends_with {A : Type} (P : A -> Prop) (o : outcome A) : Prop :=
  match o with
  | Returns a => P a
  | Undefined u => u <> MemoryFault Diverges
  end.

(** * Theorems *)

(** ** Evaluation on the hands of the specification *)

Example classify_four_of_a_kind :
  classify (initial [2; 2; 5; 2; 2] ["D"; "C"; "H"; "H"; "S"]%char)
  = Ok [FOUR_OF_A_KIND; 2; 0].
Proof. reflexivity. Qed.

Example classify_straight_flush :
  classify (initial [2; 3; 4; 5; 6] ["H"; "H"; "H"; "H"; "H"]%char)
  = Ok [STRAIGHT_FLUSH; 6; 0].
Proof. reflexivity. Qed.

(** C8: the wheel 14H 2H 3H 4H 5H (and the same ranks in any one suit) is
    classified as a straight flush with primary tie-break 5. *)
Theorem C8_wheel_is_straight_flush_5 :
  classify (initial [14; 2; 3; 4; 5] ["H"; "H"; "H"; "H"; "H"]%char)
  = Ok [STRAIGHT_FLUSH; 5; 0] /\
  forall s : ascii,
    classify (initial [14; 2; 3; 4; 5] [s; s; s; s; s])
    = Ok [STRAIGHT_FLUSH; 5; 0].
Proof.
  split; [reflexivity|].
  intros s. unfold classify, sortHand. cbn.
  rewrite Ascii.eqb_refl. reflexivity.
Qed.

(** ** Tools *)

Arguments isFlush : simpl never.
Arguments isStraight : simpl never.
Arguments isXOfAKind : simpl never.
Arguments isFullHouse : simpl never.
Arguments isTwoPair : simpl never.
Arguments highCard : simpl never.
Arguments getHandRank : simpl never.
Arguments isBetterHand : simpl never.
Arguments sortHand : simpl never.
Arguments repeatCards : simpl never.
Arguments loadCopyHand : simpl never.

Lemma rd_ok {A : Type} (a : list A) (i : nat) (v : A) :
  rd a i = Ok v <-> a !! i = Some v.
Proof.
  unfold rd. destruct (a !! i); split; intros H; try discriminate;
    congruence.
Qed.

Lemma rd_lt {A : Type} (a : list A) (i : nat) :
  (i < length a)%nat -> exists v, rd a i = Ok v /\ a !! i = Some v.
Proof.
  intros H. destruct (lookup_lt_is_Some_2 a i H) as [v Hv].
  exists v. split; [by apply rd_ok | done].
Qed.

Lemma wr_ok {A : Type} (a : list A) (i : nat) (v : A) (a' : list A) :
  wr a i v = Ok a' <-> (i < length a)%nat /\ a' = <[i:=v]> a.
Proof.
  unfold wr. destruct (Nat.ltb_spec i (length a)); split.
  - intros [= <-]. done.
  - intros [_ ->]. done.
  - discriminate.
  - intros [? _]. lia.
Qed.

Lemma wr_lt {A : Type} (a : list A) (i : nat) (v : A) :
  (i < length a)%nat -> wr a i v = Ok (<[i:=v]> a).
Proof. intros H. by apply wr_ok. Qed.

(** An array of five cells, cell by cell. *)
Lemma length_5 {A : Type} (l : list A) :
  length l = HAND_SIZE -> exists a b c d e, l = [a; b; c; d; e].
Proof.
  destruct l as [|a [|b [|c [|d [|e [|]]]]]]; try discriminate. eauto 6.
Qed.

Lemma length_3 {A : Type} (l : list A) :
  length l = DIGITS_IN_POKER_HAND_ID -> exists a b c, l = [a; b; c].
Proof. destruct l as [|a [|b [|c [|]]]]; try discriminate. eauto. Qed.

Ltac explicit_hand g :=
  let hr := fresh "hr" in
  let hs := fresh "hs" in
  let Hr := fresh "Hr" in
  let Hs := fresh "Hs" in
  destruct g as [hr hs ? ? ? ?];
  match goal with
  | H : hand_ok _ |- _ =>
      destruct H as [Hr Hs]; simpl in Hr, Hs;
      apply length_5 in Hr as (?a & ?b & ?c & ?d & ?e & ->);
      apply length_5 in Hs as (?s & ?s & ?s & ?s & ?s & ->)
  end.

(** Split on every comparison of ranks that blocks the evaluation. *)
Ltac split_ranks :=
  repeat (cbn;
    match goal with
    | |- context [?x =? ?y] =>
        destruct (Z.eqb_spec x y); try lia
    | |- context [?x <? ?y] =>
        destruct (Z.ltb_spec x y); try lia
    | |- context [?x >? ?y] =>
        rewrite (Z.gtb_ltb x y)
    end).

(** ** Which detectors stay inside the hand *)

Lemma isFlush_total (g : globals) :
  hand_ok g -> exists v, isFlush g = Ok v.
Proof.
  intros H. explicit_hand g. unfold isFlush. cbn.
  repeat match goal with
    | |- context [Ascii.eqb ?x ?y] => destruct (Ascii.eqb x y); cbn
    end; eauto.
Qed.

Lemma isStraight_total (g : globals) :
  hand_ok g -> exists v, isStraight g = Ok v.
Proof.
  intros H. explicit_hand g. unfold isStraight.
  split_ranks; eauto.
Qed.

Lemma isTwoPair_total (g : globals) :
  hand_ok g -> exists v, isTwoPair g = Ok v.
Proof.
  intros H. explicit_hand g. unfold isTwoPair.
  split_ranks; eauto.
Qed.

Lemma highCard_total (g : globals) :
  hand_ok g -> exists v, highCard g = Ok v.
Proof.
  intros H. explicit_hand g. unfold highCard.
  split_ranks; eauto.
Qed.

Lemma isXOfAKind_2_total (g : globals) :
  hand_ok g -> exists v, isXOfAKind g 2 = Ok v.
Proof.
  intros H. explicit_hand g. unfold isXOfAKind.
  split_ranks; eauto.
Qed.

(** The unbounded loops never use up their fuel: they end, or they leave
    the array first. *)
Lemma isXOfAKind_loop_fuel (fuel : nat) (hr : list Z) (x : Z) (i : nat)
    (diffCounter matchCounter : Z) :
  (0 < fuel)%nat -> (length hr <= fuel + i)%nat ->
  isXOfAKind_loop fuel hr x i diffCounter matchCounter <> Fault Diverges.
Proof.
  revert i diffCounter matchCounter.
  induction fuel as [|fuel IH]; intros i dc mc Hpos Hlen; [lia|].
  simpl. destruct (dc <=? Z.of_nat HAND_SIZE - x + 1); [|discriminate].
  unfold rd at 1. destruct (hr !! i) as [a|] eqn:Ha; [|discriminate].
  simpl. unfold rd at 1.
  destruct (hr !! (i + 1)%nat) as [b|] eqn:Hb; [|discriminate].
  simpl. apply lookup_lt_Some in Hb.
  destruct (a =? b);
    match goal with
    | |- (if ?c then _ else _) <> _ => destruct c
    end;
    try (unfold rd; rewrite Ha; discriminate);
    apply IH; lia.
Qed.

Lemma isXOfAKind_never_diverges (g : globals) (x : Z) :
  isXOfAKind g x <> Fault Diverges.
Proof. apply isXOfAKind_loop_fuel; unfold array_fuel; lia. Qed.

Lemma bind_terminates {A B : Type} (m : result A) (k : A -> result B) :
  m <> Fault Diverges ->
  (forall a, m = Ok a -> k a <> Fault Diverges) ->
  bind m k <> Fault Diverges.
Proof. destruct m as [a|f]; simpl; [auto | congruence]. Qed.

Lemma rd_terminates {A : Type} (a : list A) (i : nat) :
  rd a i <> Fault Diverges.
Proof. unfold rd. destruct (a !! i); discriminate. Qed.

Lemma wr_terminates {A : Type} (a : list A) (i : nat) (v : A) :
  wr a i v <> Fault Diverges.
Proof. unfold wr. destruct (i <? length a)%nat; discriminate. Qed.

Lemma isFullHouse_loop_fuel (fuel : nat) (hr : list Z) (i uniqueCards : nat)
    (counter : list Z) (cardRankOfTriplet : Z) :
  (0 < fuel)%nat -> (length hr <= fuel + i)%nat ->
  isFullHouse_loop fuel hr i uniqueCards counter cardRankOfTriplet
  <> Fault Diverges.
Proof.
  revert i uniqueCards counter cardRankOfTriplet.
  induction fuel as [|fuel IH]; intros i u cnt t Hpos Hlen; [lia|].
  simpl. destruct (u <? 3)%nat; [|discriminate].
  apply bind_terminates; [apply rd_terminates|]. intros a _.
  apply bind_terminates; [apply rd_terminates|]. intros b Hb.
  apply rd_ok, lookup_lt_Some in Hb.
  apply bind_terminates.
  { destruct (a =? b); [|discriminate].
    apply bind_terminates; [apply rd_terminates|]. intros c _.
    apply bind_terminates; [apply wr_terminates|]. discriminate. }
  intros [u' cnt'] _.
  apply bind_terminates; [apply rd_terminates|]. intros c0 _.
  apply bind_terminates; [apply rd_terminates|]. intros c1 _.
  apply bind_terminates.
  { repeat match goal with
      | |- (if ?c then _ else _) <> _ => destruct c
      end; first [apply rd_terminates | discriminate]. }
  intros t' _. apply IH; lia.
Qed.

Lemma isFullHouse_never_diverges (g : globals) :
  isFullHouse g <> Fault Diverges.
Proof. apply isFullHouse_loop_fuel; unfold array_fuel; lia. Qed.

(** ** The loops without a bound on the index *)

Ltac concrete_valid_hand :=
  repeat split; try reflexivity;
  [ repeat constructor; cbn; try lia
  | apply (bool_decide_unpack _); vm_compute; exact I ].

(** [isFullHouse] stays inside the hand exactly when the hand has at
    least three different ranks: on a full house and on four of a kind it
    reads [handRank[5]]. *)
Lemma isFullHouse_in_bounds (g : globals) :
  hand_ok g -> (2 <= changes (handRank g))%nat ->
  exists v, isFullHouse g = Ok v.
Proof.
  intros H. explicit_hand g. unfold isFullHouse. cbn [handRank changes].
  intros Hc. split_ranks; eauto; cbn in Hc; lia.
Qed.

Lemma isFullHouse_out_of_bounds (g : globals) :
  hand_ok g -> (changes (handRank g) < 2)%nat ->
  isFullHouse g = Fault (OutOfBounds 5).
Proof.
  intros H. explicit_hand g. unfold isFullHouse. cbn [handRank changes].
  intros Hc. split_ranks; eauto; cbn in Hc; lia.
Qed.

(** C2, at a full house, at four of a kind and at two pairs: the loops of
    [isFullHouse] and [isXOfAKind] read the cell [handRank[5]], which is
    outside the hand. *)
Theorem C2_detectors_read_past_the_hand :
  let full_house :=
    initial [2; 2; 2; 5; 5] ["C"; "D"; "H"; "C"; "D"]%char in
  let four_of_a_kind :=
    initial [2; 2; 2; 2; 5] ["C"; "D"; "H"; "S"; "H"]%char in
  let two_pair :=
    initial [2; 7; 7; 14; 14] ["C"; "H"; "S"; "C"; "D"]%char in
  (valid_hand full_house /\ sorted_hand full_house) /\
  (valid_hand four_of_a_kind /\ sorted_hand four_of_a_kind) /\
  (valid_hand two_pair /\ sorted_hand two_pair) /\
  isFullHouse full_house = Fault (OutOfBounds 5) /\
  isFullHouse four_of_a_kind = Fault (OutOfBounds 5) /\
  isXOfAKind full_house 4 = Fault (OutOfBounds 5) /\
  isXOfAKind two_pair 3 = Fault (OutOfBounds 5).
Proof.
  cbv zeta.
  repeat match goal with
    | |- _ /\ _ => split
    end;
    try reflexivity;
    try (repeat constructor; lia);
    try concrete_valid_hand.
Qed.

(** ** getHandRank and its ladder *)

(** The detectors read the hand only. *)
Lemma detectors_read_hand (g g' : globals) :
  handRank g' = handRank g -> handSuit g' = handSuit g ->
  isStraight g' = isStraight g /\ isFlush g' = isFlush g /\
  (forall x, isXOfAKind g' x = isXOfAKind g x) /\
  isFullHouse g' = isFullHouse g /\ isTwoPair g' = isTwoPair g /\
  highCard g' = highCard g.
Proof.
  intros Hr Hs.
  unfold isStraight, isFlush, isXOfAKind, isFullHouse, isTwoPair, highCard.
  rewrite Hr, Hs. done.
Qed.

Lemma ladder_read_hand (g g' : globals) (key : list Z) :
  handRank g' = handRank g -> handSuit g' = handSuit g ->
  ladder g key -> ladder g' key.
Proof.
  intros Hr Hs H.
  destruct (detectors_read_hand g g' Hr Hs) as (E1 & E2 & E3 & E4 & E5 & E6).
  inversion H; subst;
    [ eapply ladder_straight_flush | eapply ladder_four_of_a_kind
    | eapply ladder_full_house | eapply ladder_flush | eapply ladder_straight
    | eapply ladder_three_of_a_kind | eapply ladder_two_pair
    | eapply ladder_one_pair | eapply ladder_high_card ];
    rewrite ?E1, ?E2, ?E3, ?E4, ?E5, ?E6; eauto.
Qed.

Ltac zero_tests :=
  repeat match goal with
    | H : negb _ = true |- _ => apply negb_true_iff in H
    | H : negb _ = false |- _ => apply negb_false_iff in H
    | H : _ && _ = true |- _ => apply andb_true_iff in H as [? ?]
    | H : _ && _ = false |- _ => apply andb_false_iff in H
    | H : _ = false \/ _ = false |- _ => destruct H
    | H : (_ =? _) = true |- _ => apply Z.eqb_eq in H
    | H : (_ =? _) = false |- _ => apply Z.eqb_neq in H
    end.

(** Unfold one [let*] of a hypothesis [H : ... = Ok _]. *)
Ltac step_ok H :=
  match type of H with
  | bind ?m _ = Ok _ =>
      let E := fresh "E" in
      destruct m eqn:E; simpl in H; [|discriminate H]
  | (if ?c then _ else _) = Ok _ =>
      let C := fresh "C" in
      destruct c eqn:C
  end.

(** The same, without unfolding anything but the [let*]. *)
Ltac step_bind H :=
  match type of H with
  | bind ?m _ = Ok _ =>
      let E := fresh "E" in
      destruct m eqn:E; cbn [bind] in H; [|discriminate H]
  | (if ?c then _ else _) = Ok _ =>
      let C := fresh "C" in
      destruct c eqn:C
  end.

Lemma set_id_ok (g g' : globals) (i : nat) (v : Z) :
  set_id g i v = Ok g' ->
  (i < length (pokerHandID g))%nat /\
  g' = set_pokerHandID g (<[i:=v]> (pokerHandID g)).
Proof.
  unfold set_id. intros H. step_ok H. apply wr_ok in E as [? ->].
  by injection H as <-.
Qed.

(** [getHandRank] gives exactly the keys of the ladder. *)
Lemma getHandRank_ladder (g g' : globals) :
  getHandRank g = Ok g' ->
  exists M m l,
    ladder g [M; m; l] /\
    (3 <= length (pokerHandID g))%nat /\
    g' = set_pokerHandID g (M :: m :: l :: drop 3 (pokerHandID g)).
Proof.
  unfold getHandRank. intros H.
  step_ok H. apply set_id_ok in E as [Hlen ->].
  unfold LOW_PAIR_DIGIT in *.
  destruct (pokerHandID g) as [|x [|y [|z rest]]] eqn:Hid;
    simpl in Hlen; try lia.
  cbn [insert list_insert] in H.
  set (g0 := set_pokerHandID g (x :: y :: 0 :: rest)) in *.
  destruct (detectors_read_hand g g0 eq_refl eq_refl)
    as (E1 & E2 & E3 & E4 & E5 & E6).
  rewrite ?E1, ?E2, ?E3, ?E4, ?E5, ?E6 in H.
  assert (Hset : forall M m,
    set_major_minor g0 M m = Ok (set_pokerHandID g (M :: m :: 0 :: rest))).
  { intros M m. reflexivity. }
  repeat first
    [ rewrite Hset in H
    | step_ok H ];
    zero_tests;
    try (injection H as <-;
         eexists _, _, _; split_and!;
           [idtac | simpl; lia | reflexivity];
         subst; econstructor; first [eassumption | lia]).
Qed.

Lemma ladder_getHandRank (g : globals) (M m l x y z : Z) (rest : list Z) :
  ladder g [M; m; l] ->
  pokerHandID g = x :: y :: z :: rest ->
  getHandRank g = Ok (set_pokerHandID g (M :: m :: l :: rest)).
Proof.
  intros H Hid. unfold getHandRank, set_id. rewrite Hid.
  unfold LOW_PAIR_DIGIT. cbn [wr length Nat.ltb Nat.leb bind insert
    list_insert].
  set (g0 := set_pokerHandID g (x :: y :: 0 :: rest)) in *.
  destruct (detectors_read_hand g g0 eq_refl eq_refl)
    as (E1 & E2 & E3 & E4 & E5 & E6).
  rewrite ?E1, ?E2, ?E3, ?E4, ?E5, ?E6.
  inversion H; subst;
    repeat match goal with
      | E : ?d = Ok _ |- context [?d] => rewrite E; cbn [bind]
      end;
    repeat match goal with
      | |- context [?a =? 0] => destruct (Z.eqb_spec a 0); try lia;
                               cbn [negb andb bind]
      end;
    try reflexivity; try tauto.
  (* two pairs *)
  unfold set_major_minor, set_id. cbn.
  change (isXOfAKind _ 2) with (isXOfAKind g 2).
  match goal with
  | E : isXOfAKind g 2 = Ok _ |- _ => rewrite E
  end.
  reflexivity.
Qed.

Ltac order_tests :=
  zero_tests;
  repeat match goal with
    | H : (_ >? _) = _ |- _ => rewrite Z.gtb_ltb in H
    | H : (_ <? _) = true |- _ => apply Z.ltb_lt in H
    | H : (_ <? _) = false |- _ => apply Z.ltb_ge in H
    end.

Ltac unfold_categories :=
  unfold STRAIGHT_FLUSH, FOUR_OF_A_KIND, FULL_HOUSE, FLUSH, STRAIGHT,
    THREE_OF_A_KIND, TWO_PAIR, ONE_PAIR, HIGH_CARD in *.

Ltac unfold_cases H :=
  unfold isBetterHand, case_HIGH_CARD, case_ONE_PAIR, case_TWO_PAIR,
    case_THREE_OF_A_KIND, case_STRAIGHT, case_FLUSH, case_FULL_HOUSE,
    case_FOUR_OF_A_KIND, case_STRAIGHT_FLUSH,
    MAJOR_RANK_DIGIT, MINOR_RANK_DIGIT, LOW_PAIR_DIGIT in H.

(** Run [isBetterHand] in [H : isBetterHand g = Ok r] with the results of
    the detectors that are known, splitting on the others. *)
Ltac run_better H :=
  repeat first
    [ match type of H with
      | context [bind ?d _] =>
          match goal with
          | E : d = Ok _ |- _ => rewrite E in H; cbn [bind] in H
          end
      end
    | step_ok H ].

(** The cascade of [isBetterHand] against the ladder of [getHandRank]:
    when the cascade gets to its end without leaving the hand, its answer
    is the strict comparison of the two keys. *)
Lemma isBetterHand_compares_keys (g0 g : globals) (M m l M' m' l' : Z)
    (rest : list Z) (r : bool) :
  ladder g0 [M; m; l] ->
  ladder g [M'; m'; l'] ->
  pokerHandID g = M :: m :: l :: rest ->
  isBetterHand g = Ok r ->
  r = key_ltb [M; m; l] [M'; m'; l'].
Proof.
  intros H0 H Hid Hb.
  unfold_cases Hb. rewrite Hid in Hb.
  inversion H0; subst; clear H0;
    inversion H; subst; clear H;
    unfold_categories; cbn in Hb;
    run_better Hb;
    injection Hb as <-;
    repeat match goal with
      | E : (if ?c then _ else _) = Ok _ |- _ =>
          destruct c eqn:?; injection E as E
      end;
    order_tests; cbn;
    try congruence;
    repeat match goal with
      | |- context [?a =? ?b] => destruct (Z.eqb_spec a b); try lia
      | |- context [?a <? ?b] => destruct (Z.ltb_spec a b); try lia
      end;
    try reflexivity; try lia; try congruence.
Qed.

(** Run the cascade in the goal with the results of the detectors that
    the context gives. *)
Ltac run_better_goal :=
  repeat first
    [ match goal with
      | E : ?d = Ok _ |- context [bind ?d _] => rewrite E; cbn [bind]
      | E : ?d = Ok _ |- context [if _ then ?d else _] => rewrite E
      end
    | match goal with
      | |- context [?a =? ?b] =>
          destruct (Z.eqb_spec a b); try lia; cbn [negb andb orb bind]
      | |- context [?a >? ?b] =>
          rewrite (Z.gtb_ltb a b)
      | |- context [?a <? ?b] =>
          destruct (Z.ltb_spec a b); try lia; cbn [negb andb orb bind]
      end ].

(** On the hand that has the baseline key itself the cascade stays
    inside the hand and finds no better hand. *)
Lemma isBetterHand_tie (g : globals) (M m l : Z) (rest : list Z) :
  ladder g [M; m; l] ->
  pokerHandID g = M :: m :: l :: rest ->
  isBetterHand g = Ok false.
Proof.
  intros H Hid.
  unfold isBetterHand, case_HIGH_CARD, case_ONE_PAIR, case_TWO_PAIR,
    case_THREE_OF_A_KIND, case_STRAIGHT, case_FLUSH, case_FULL_HOUSE,
    case_FOUR_OF_A_KIND, case_STRAIGHT_FLUSH,
    MAJOR_RANK_DIGIT, MINOR_RANK_DIGIT, LOW_PAIR_DIGIT.
  rewrite Hid.
  inversion H; subst; clear H; unfold_categories; cbn;
    run_better_goal; try reflexivity; try tauto; try lia.
Qed.

(** A hand whose own key is the baseline key is no improvement, when
    [getHandRank] gives the hand a key: [gb] holds the same hand with
    that key as the baseline.  Two pairs and full houses get no key
    this way. *)
Lemma isBetterHand_own_key (g g1 gb : globals) :
  getHandRank g = Ok g1 ->
  handRank gb = handRank g -> handSuit gb = handSuit g ->
  pokerHandID gb = pokerHandID g1 ->
  isBetterHand gb = Ok false.
Proof.
  intros H Hr Hs Hid.
  apply getHandRank_ladder in H as (M & m & l & HL & _ & ->).
  simpl in Hid.
  eapply isBetterHand_tie; [|exact Hid].
  eapply ladder_read_hand; eauto.
Qed.

(** ** The ladder assigns the highest category, when it assigns one *)

Lemma ladder_highest (g : globals) (M m l : Z) :
  ladder g [M; m; l] ->
  HIGH_CARD <= M <= STRAIGHT_FLUSH /\
  detector g M = Ok m /\
  (M <> HIGH_CARD -> m <> 0) /\
  forall c, M < c <= STRAIGHT_FLUSH -> detector g c = Ok 0.
Proof.
  intros H. unfold detector.
  inversion H; subst; clear H; unfold_categories;
    (split; [lia|]); (split; [|split; [intros; first [lia | assumption]|]]).
  all: try (intros c Hc;
    assert (Hcs : c = 2 \/ c = 3 \/ c = 4 \/ c = 5 \/ c = 6 \/ c = 7 \/
                  c = 8 \/ c = 9) by lia;
    repeat destruct Hcs as [-> | Hcs]; try subst c; try lia).
  all: cbn;
    repeat match goal with
      | E : ?d = Ok _ |- context [?d] => rewrite E; cbn [bind]
      end;
    repeat match goal with
      | |- context [?a =? 0] =>
          destruct (Z.eqb_spec a 0); try lia; cbn [negb andb]
      end;
    try reflexivity; try tauto.
Qed.

Lemma getHandRank_highest (g g' : globals) :
  getHandRank g = Ok g' ->
  exists M m l rest,
    pokerHandID g' = M :: m :: l :: rest /\
    HIGH_CARD <= M <= STRAIGHT_FLUSH /\
    detector g M = Ok m /\
    (M <> HIGH_CARD -> m <> 0) /\
    forall c, M < c <= STRAIGHT_FLUSH -> detector g c = Ok 0.
Proof.
  intros H. apply getHandRank_ladder in H as (M & m & l & HL & _ & ->).
  exists M, m, l, (drop 3 (pokerHandID g)).
  split; [reflexivity|]. by apply (ladder_highest g M m l).
Qed.

(** A straight and a flush together are a straight flush with the
    tie-break of the straight. *)
Lemma getHandRank_straight_flush (g : globals) (s f x y z : Z)
    (rest : list Z) :
  isStraight g = Ok s -> isFlush g = Ok f -> s <> 0 -> f <> 0 ->
  pokerHandID g = x :: y :: z :: rest ->
  getHandRank g = Ok (set_pokerHandID g (STRAIGHT_FLUSH :: s :: 0 :: rest)).
Proof.
  intros Hs Hf Hs0 Hf0 Hid. eapply ladder_getHandRank; [|exact Hid].
  eapply ladder_straight_flush; eauto.
Qed.

(** C3, at a full house and at two pairs: several detectors succeed, but
    [getHandRank] reads [handRank[5]] before it gets to the category of
    the hand, and assigns nothing. *)
Theorem C3_getHandRank_leaves_the_hand :
  let full_house :=
    initial [2; 2; 2; 3; 3] ["C"; "D"; "H"; "C"; "D"]%char in
  let two_pair :=
    initial [2; 7; 7; 14; 14] ["C"; "H"; "S"; "C"; "D"]%char in
  (valid_hand full_house /\ sorted_hand full_house) /\
  (valid_hand two_pair /\ sorted_hand two_pair) /\
  detector full_house ONE_PAIR = Ok 2 /\
  detector full_house THREE_OF_A_KIND = Ok 2 /\
  getHandRank full_house = Fault (OutOfBounds 5) /\
  detector two_pair ONE_PAIR = Ok 7 /\
  detector two_pair TWO_PAIR = Ok 14 /\
  getHandRank two_pair = Fault (OutOfBounds 5) /\
  classify (initial [14; 14; 7; 7; 2] ["C"; "D"; "H"; "S"; "C"]%char)
  = Fault (OutOfBounds 5).
Proof.
  cbv zeta.
  repeat match goal with
    | |- _ /\ _ => split
    end;
    try reflexivity;
    try (repeat constructor; lia);
    try concrete_valid_hand.
Qed.

(** C1, at a baseline with three fives and a candidate with four fives:
    both hands have a key, the key of the candidate is the greater one,
    and [isBetterHand] reads [handRank[5]] in [isFullHouse] on its way
    from the case of the baseline to the case of the candidate.  The
    candidate comes up in the program: it is the baseline with the 3D
    replaced by the 5S. *)
Theorem C1_isBetterHand_leaves_the_hand :
  let baseline :=
    initial [2; 3; 5; 5; 5] ["C"; "D"; "C"; "D"; "H"]%char in
  let candidate :=
    initial [2; 5; 5; 5; 5] ["C"; "S"; "C"; "D"; "H"]%char in
  (valid_hand baseline /\ sorted_hand baseline) /\
  (valid_hand candidate /\ sorted_hand candidate) /\
  getHandRank baseline
  = Ok (with_baseline baseline [THREE_OF_A_KIND; 5; 0]) /\
  getHandRank candidate
  = Ok (with_baseline candidate [FOUR_OF_A_KIND; 5; 0]) /\
  key_ltb [THREE_OF_A_KIND; 5; 0] [FOUR_OF_A_KIND; 5; 0] = true /\
  isBetterHand (with_baseline candidate [THREE_OF_A_KIND; 5; 0])
  = Fault (OutOfBounds 5) /\
  main_good_line 1 (initial [5; 2; 5; 3; 5] ["C"; "C"; "D"; "D"; "H"]%char)
    [0; 1; 3; 3]%nat
  = Fault (OutOfBounds 5).
Proof.
  cbv zeta.
  repeat match goal with
    | |- _ /\ _ => split
    end;
    try reflexivity;
    try (repeat constructor; lia);
    try concrete_valid_hand.
Qed.

(** ** sortHand *)

Lemma smaller_after_app (x : Z) (l1 l2 : list Z) :
  smaller_after x (l1 ++ l2)
  = (smaller_after x l1 + smaller_after x l2)%nat.
Proof. induction l1 as [|y l1 IH]; simpl; [done | rewrite IH; lia]. Qed.

(** Swapping two neighbours that are out of order takes away one pair out
    of order. *)
Lemma inversions_swap (l1 l2 : list Z) (a b : Z) :
  b < a ->
  S (inversions (l1 ++ b :: a :: l2)) = inversions (l1 ++ a :: b :: l2).
Proof.
  intros Hab. induction l1 as [|x l1 IH]; simpl.
  - destruct (Z.gtb_spec a b); [|lia].
    destruct (Z.gtb_spec b a); lia.
  - rewrite <- IH. rewrite !smaller_after_app. simpl. lia.
Qed.

Lemma smaller_after_le (x : Z) (l : list Z) :
  (smaller_after x l <= length l)%nat.
Proof. induction l as [|y l IH]; simpl; [lia | destruct (x >? y); lia]. Qed.

Lemma inversions_bound (l : list Z) :
  (2 * inversions l + length l <= length l * length l)%nat.
Proof.
  induction l as [|x l IH]; simpl; [lia|].
  pose proof (smaller_after_le x l). nia.
Qed.

Lemma same_rest_refl (g : globals) : same_rest g g.
Proof. by repeat split. Qed.

Lemma same_rest_trans (g1 g2 g3 : globals) :
  same_rest g1 g2 -> same_rest g2 g3 -> same_rest g1 g3.
Proof.
  intros (? & ? & ? & ?) (? & ? & ? & ?). repeat split; congruence.
Qed.

(** One step of the sweep: nothing happens on two neighbours in order;
    two neighbours out of order are swapped, together with their suits. *)
Lemma sortHand_step_spec (g : globals) (swapDetector : bool) (i : nat) :
  hand_ok g -> (i < 4)%nat ->
  (sortHand_step g swapDetector i = Ok (g, swapDetector) /\ in_order g i) \/
  (exists g',
     sortHand_step g swapDetector i = Ok (g', true) /\
     hand_ok g' /\ cards g' ≡ₚ cards g /\ same_rest g g' /\
     (inversions (handRank g') < inversions (handRank g))%nat).
Proof.
  intros H Hi. explicit_hand g.
  unfold sortHand_step, in_order, cards.
  destruct i as [|[|[|[|i]]]]; [| | | |lia]; cbn -[inversions];
    rewrite Z.gtb_ltb;
    match goal with
    | |- context [?y <? ?x] =>
        destruct (Z.ltb_spec y x) as [Hlt|Hge]; [right|left; eauto 6]
    end;
    (eexists; repeat split;
     [ repeat first [apply perm_swap | apply perm_skip]
     | cbn [handRank set_hand] ]).
  - pose proof (inversions_swap [] [c; d; e] a b Hlt) as Hs.
    simpl app in Hs. lia.
  - pose proof (inversions_swap [a] [d; e] b c Hlt) as Hs.
    simpl app in Hs. lia.
  - pose proof (inversions_swap [a; b] [e] c d Hlt) as Hs.
    simpl app in Hs. lia.
  - pose proof (inversions_swap [a; b; c] [] d e Hlt) as Hs.
    simpl app in Hs. lia.
Qed.

(** A sweep over the cells [i], ..., [i + n - 1]. *)
Lemma sortHand_for_spec (n i : nat) (g : globals) (swapDetector : bool) :
  hand_ok g -> (i + n <= 4)%nat ->
  exists g' swapDetector',
    sortHand_for n i g swapDetector = Ok (g', swapDetector') /\
    hand_ok g' /\ cards g' ≡ₚ cards g /\ same_rest g g' /\
    (swapDetector' = false ->
       swapDetector = false /\ g' = g /\
       forall k, (i <= k < i + n)%nat -> in_order g k) /\
    (swapDetector' = true ->
       swapDetector = true \/
       (inversions (handRank g') < inversions (handRank g))%nat) /\
    (inversions (handRank g') <= inversions (handRank g))%nat.
Proof.
  revert i g swapDetector.
  induction n as [|n IH]; intros i g sw Hok Hin; simpl.
  - exists g, sw. split_and!; auto using same_rest_refl.
    intros ->. split_and!; auto. intros; lia.
  - destruct (sortHand_step_spec g sw i Hok) as
      [[-> Hord] | (g1 & -> & Hok1 & Hperm1 & Hrest1 & Hinv1)]; [lia | |];
      simpl.
    + destruct (IH (S i) g sw Hok) as
        (g' & sw' & -> & Hok' & Hperm & Hrest & Hf & Ht & Hle); [lia|].
      exists g', sw'. split_and!; auto.
      intros E. destruct (Hf E) as (-> & -> & Hall). split_and!; auto.
      intros k Hk. destruct (decide (k = i)) as [->|]; [done|].
      apply Hall. lia.
    + destruct (IH (S i) g1 true Hok1) as
        (g' & sw' & -> & Hok' & Hperm & Hrest & Hf & Ht & Hle); [lia|].
      exists g', sw'. split_and!; auto.
      * by rewrite Hperm.
      * eapply same_rest_trans; eauto.
      * intros E. by destruct (Hf E).
      * intros E. right. lia.
      * lia.
Qed.

Lemma in_order_sorted (g : globals) :
  hand_ok g -> (forall k, (0 <= k < 0 + 4)%nat -> in_order g k) ->
  sorted_hand g.
Proof.
  intros H Hall. explicit_hand g. unfold sorted_hand, in_order in *.
  cbn [handRank] in *.
  pose proof (Hall 0%nat ltac:(lia)) as (? & ? & [= <-] & [= <-] & ?).
  pose proof (Hall 1%nat ltac:(lia)) as (? & ? & [= <-] & [= <-] & ?).
  pose proof (Hall 2%nat ltac:(lia)) as (? & ? & [= <-] & [= <-] & ?).
  pose proof (Hall 3%nat ltac:(lia)) as (? & ? & [= <-] & [= <-] & ?).
  repeat constructor; lia.
Qed.

Lemma sortHand_while_spec (fuel : nat) (g : globals) :
  hand_ok g -> (inversions (handRank g) < fuel)%nat ->
  exists g',
    sortHand_while fuel g = Ok g' /\
    hand_ok g' /\ cards g' ≡ₚ cards g /\ same_rest g g' /\ sorted_hand g'.
Proof.
  revert g. induction fuel as [|fuel IH]; intros g Hok Hfuel; [lia|].
  cbn [sortHand_while]. change (HAND_SIZE - 1)%nat with 4%nat.
  destruct (sortHand_for_spec 4 0 g false Hok) as
    (g1 & sw & -> & Hok1 & Hperm1 & Hrest1 & Hf & Ht & Hle); [lia|].
  simpl. destruct sw.
  - destruct (Ht eq_refl) as [|Hlt]; [done|].
    destruct (IH g1 Hok1) as (g' & -> & Hok' & Hperm & Hrest & Hsorted);
      [lia|].
    exists g'. split_and!; auto.
    + by rewrite Hperm.
    + eapply same_rest_trans; eauto.
  - destruct (Hf eq_refl) as (_ & -> & Hall).
    exists g. split_and!; auto using same_rest_refl.
    by apply in_order_sorted.
Qed.

(** [sortHand] ends on every hand of five cells; it permutes the cards,
    leaves the hand in ascending order of rank and touches nothing else. *)
Lemma sortHand_spec (g : globals) :
  hand_ok g ->
  exists g',
    sortHand g = Ok g' /\
    hand_ok g' /\ cards g' ≡ₚ cards g /\ same_rest g g' /\ sorted_hand g'.
Proof.
  intros Hok. apply sortHand_while_spec; [done|].
  destruct Hok as [Hr _]. pose proof (inversions_bound (handRank g)).
  rewrite Hr in *. unfold sort_fuel, HAND_SIZE in *. lia.
Qed.

(** ** Classification does not depend on the order of the cards *)

Lemma cards_ranks (g : globals) : hand_ok g -> (cards g).*1 = handRank g.
Proof. intros [Hr Hs]. apply fst_zip. lia. Qed.

Lemma cards_suits (g : globals) : hand_ok g -> (cards g).*2 = handSuit g.
Proof. intros [Hr Hs]. apply snd_zip. lia. Qed.

Lemma one_suit_perm (hs hs' : list ascii) :
  hs ≡ₚ hs' -> one_suit hs -> one_suit hs'.
Proof.
  intros Hp H s s' Hs Hs'. apply H; by rewrite Hp.
Qed.

Lemma rank_sum_perm (hr hr' : list Z) :
  hr ≡ₚ hr' -> rank_sum hr = rank_sum hr'.
Proof.
  unfold rank_sum. induction 1; simpl; lia.
Qed.

(** [isFlush] gives the sum of the ranks when all suits are equal, and 0
    otherwise. *)
Lemma isFlush_cases (g : globals) :
  hand_ok g ->
  (one_suit (handSuit g) /\ isFlush g = Ok (rank_sum (handRank g))) \/
  (~ one_suit (handSuit g) /\ isFlush g = Ok 0).
Proof.
  intros H. explicit_hand g. unfold isFlush, one_suit, rank_sum. cbn.
  repeat match goal with
    | |- context [Ascii.eqb ?x ?y] =>
        destruct (Ascii.eqb_spec x y); [subst|]; cbn
    end.
  1: { left. split; [|f_equal; lia].
       intros x y Hx Hy.
       repeat match goal with
         | H : _ ∈ _ :: _ |- _ => apply elem_of_cons in H as [->|H]
         | H : _ ∈ [] |- _ => by apply elem_of_nil in H
         end; done. }
  all: right; split; [|done]; intros Hu;
    match goal with
    | n : ?x <> ?y |- _ => apply n, Hu; repeat constructor
    end.
Qed.

Lemma isFlush_perm (g g' : globals) :
  hand_ok g -> hand_ok g' ->
  handRank g' = handRank g -> handSuit g' ≡ₚ handSuit g ->
  isFlush g' = isFlush g.
Proof.
  intros Hok Hok' Hr Hs.
  destruct (isFlush_cases g Hok) as [[Hu ->] | [Hu ->]];
    destruct (isFlush_cases g' Hok') as [[Hu' ->] | [Hu' ->]].
  - by rewrite Hr.
  - destruct Hu'. eapply one_suit_perm; [symmetry|]; eauto.
  - destruct Hu. eapply one_suit_perm; eauto.
  - done.
Qed.

(** The key depends on the ranks, on the answer of [isFlush], and on
    nothing else. *)
Ltac bind_head t :=
  lazymatch t with
  | bind ?m _ => bind_head m
  | if ?c then _ else _ => c
  | _ => t
  end.

Lemma getHandRank_key_ext (g g' : globals) :
  handRank g' = handRank g -> isFlush g' = isFlush g ->
  length (pokerHandID g) = DIGITS_IN_POKER_HAND_ID ->
  length (pokerHandID g') = DIGITS_IN_POKER_HAND_ID ->
  key_of (getHandRank g') = key_of (getHandRank g).
Proof.
  intros Hr Hf Hid Hid'.
  apply length_3 in Hid as (x & y & z & Hid).
  apply length_3 in Hid' as (x' & y' & z' & Hid').
  assert (ES : isStraight g' = isStraight g)
    by (unfold isStraight; by rewrite Hr).
  assert (EX : forall x, isXOfAKind g' x = isXOfAKind g x)
    by (intros; unfold isXOfAKind; by rewrite Hr).
  assert (EH : isFullHouse g' = isFullHouse g)
    by (unfold isFullHouse; by rewrite Hr).
  assert (ET : isTwoPair g' = isTwoPair g)
    by (unfold isTwoPair; by rewrite Hr).
  assert (EC : highCard g' = highCard g)
    by (unfold highCard; by rewrite Hr).
  unfold key_of, getHandRank, set_major_minor, set_id.
  rewrite Hid, Hid'.
  repeat
    (cbn;
     repeat match goal with
       | |- context [isStraight (set_pokerHandID ?s ?id)] =>
           change (isStraight (set_pokerHandID s id)) with (isStraight s)
       | |- context [isFlush (set_pokerHandID ?s ?id)] =>
           change (isFlush (set_pokerHandID s id)) with (isFlush s)
       | |- context [isXOfAKind (set_pokerHandID ?s ?id) ?x] =>
           change (isXOfAKind (set_pokerHandID s id) x)
             with (isXOfAKind s x)
       | |- context [isFullHouse (set_pokerHandID ?s ?id)] =>
           change (isFullHouse (set_pokerHandID s id)) with (isFullHouse s)
       | |- context [isTwoPair (set_pokerHandID ?s ?id)] =>
           change (isTwoPair (set_pokerHandID s id)) with (isTwoPair s)
       | |- context [highCard (set_pokerHandID ?s ?id)] =>
           change (highCard (set_pokerHandID s id)) with (highCard s)
       end;
     rewrite ?ES, ?Hf, ?EX, ?EH, ?ET, ?EC;
     cbn [bind pokerHandID set_pokerHandID];
     match goal with
     | |- ?lhs = _ =>
         let h := bind_head lhs in
         lazymatch h with
         | Ok _ => fail
         | _ =>
             lazymatch type of h with
             | bool => destruct h
             | _ => destruct h; [|cbn [bind]; reflexivity]
             end
         end
     end);
    cbn; reflexivity.
Qed.

(** Two hands with the same cards in different orders are classified
    alike: where [classify] gives a key to one of them, it gives the
    same key to the other, and where it leaves the hand on one of them,
    it does so on the other. *)
Lemma classify_permutation_invariant (g g' : globals) :
  hand_ok g -> hand_ok g' ->
  length (pokerHandID g) = DIGITS_IN_POKER_HAND_ID ->
  length (pokerHandID g') = DIGITS_IN_POKER_HAND_ID ->
  cards g' ≡ₚ cards g ->
  classify g' = classify g.
Proof.
  intros Hok Hok' Hid Hid' Hperm.
  destruct (sortHand_spec g Hok) as
    (g1 & E1 & Hok1 & Hp1 & (_ & _ & _ & Hid1) & Hs1).
  destruct (sortHand_spec g' Hok') as
    (g1' & E1' & Hok1' & Hp1' & (_ & _ & _ & Hid1') & Hs1').
  unfold classify. rewrite E1, E1'. cbn [bind].
  assert (Hcards : cards g1' ≡ₚ cards g1).
  { by rewrite Hp1', Hp1. }
  assert (Hr : handRank g1' = handRank g1).
  { apply (Sorted_unique Z.le); [done..|].
    rewrite <- (cards_ranks g1'), <- (cards_ranks g1) by done.
    by apply fmap_Permutation. }
  assert (Hs : handSuit g1' ≡ₚ handSuit g1).
  { rewrite <- (cards_suits g1'), <- (cards_suits g1) by done.
    by apply fmap_Permutation. }
  apply getHandRank_key_ext; try congruence.
  by apply isFlush_perm.
Qed.


(** ** Flushes *)

Lemma sorted_5 (a b c d e : Z) :
  Sorted Z.le [a; b; c; d; e] -> a <= b /\ b <= c /\ c <= d /\ d <= e.
Proof.
  intros H.
  repeat match goal with
    | H : Sorted _ (_ :: _) |- _ => apply Sorted_inv in H as [H ?]
    | H : HdRel _ _ (_ :: _) |- _ => apply HdRel_inv in H
    end.
  done.
Qed.

Lemma NoDup_5 {A : Type} (a b c d e : A) :
  NoDup [a; b; c; d; e] ->
  a <> b /\ a <> c /\ a <> d /\ a <> e /\ b <> c /\ b <> d /\ b <> e /\
  c <> d /\ c <> e /\ d <> e.
Proof.
  intros H.
  repeat match goal with
    | H : NoDup (_ :: _) |- _ => apply NoDup_cons in H as [? H]
    | H : _ ∉ _ :: _ |- _ => apply not_elem_of_cons in H as [? H]
    end.
  done.
Qed.

(** On five ranks in strictly ascending order [isStraight] finds the
    straights and nothing else. *)
Lemma isStraight_no_straight (g : globals) :
  hand_ok g -> sorted_hand g -> ~ forms_straight (handRank g) ->
  isStraight g = Ok 0.
Proof.
  intros H Hsorted Hns. explicit_hand g.
  apply sorted_5 in Hsorted as (? & ? & ? & ?).
  unfold isStraight. cbn [handRank] in *.
  split_ranks; try reflexivity; exfalso; apply Hns.
  all: first
    [ assert (E : [a; b; c; d; e] = specialStraight)
        by (unfold specialStraight; repeat f_equal; lia);
      rewrite E; by right
    | assert (E : [a; b; c; d; e] = [a; a + 1; a + 2; a + 3; a + 4])
        by (repeat f_equal; lia);
      rewrite E; left; by exists a ].
Qed.

(** Five different ranks in ascending order: no detector of equal ranks
    succeeds, and none leaves the hand. *)
Lemma no_equal_ranks (g : globals) (a b c d e : Z) :
  handRank g = [a; b; c; d; e] ->
  a < b -> b < c -> c < d -> d < e ->
  isXOfAKind g 4 = Ok 0 /\ isFullHouse g = Ok 0 /\
  isXOfAKind g 3 = Ok 0 /\ isTwoPair g = Ok 0 /\ isXOfAKind g 2 = Ok 0.
Proof.
  intros E ? ? ? ?.
  unfold isXOfAKind, isFullHouse, isTwoPair. rewrite E.
  split_and!; split_ranks; reflexivity.
Qed.

Lemma valid_cards_perm (cs cs' : list (Z * ascii)) :
  cs ≡ₚ cs' -> valid_cards cs -> valid_cards cs'.
Proof.
  intros Hp (Hl & Hc & Hn). split_and!.
  - by rewrite <- Hp.
  - by rewrite <- Hp.
  - by rewrite <- Hp.
Qed.

Lemma forms_straight_perm (hr hr' : list Z) :
  hr ≡ₚ hr' -> forms_straight hr -> forms_straight hr'.
Proof.
  intros Hp [[r H] | H]; [left; exists r | right]; by rewrite <- Hp.
Qed.

(** The hands of C9 after [sortHand]: one suit, five ranks of the deck in
    strictly ascending order. *)
Lemma flush_hand_sorted (g : globals) :
  valid_hand g -> sorted_hand g -> one_suit (handSuit g) ->
  exists a b c d e,
    handRank g = [a; b; c; d; e] /\
    2 <= a /\ a < b /\ b < c /\ c < d /\ d < e.
Proof.
  intros [Hok (_ & Hc & Hn)] Hs Hu. pose proof Hok as Hok'.
  explicit_hand g. unfold cards, sorted_hand, one_suit in *.
  cbn [handRank handSuit zip zip_with] in *.
  apply sorted_5 in Hs as (? & ? & ? & ?).
  assert (Hs : s0 = s /\ s1 = s /\ s2 = s /\ s3 = s).
  { split_and!; apply Hu; repeat constructor. }
  destruct Hs as (-> & -> & -> & ->).
  apply NoDup_5 in Hn as (? & ? & ? & ? & ? & ? & ? & ? & ? & ?).
  apply Forall_cons in Hc as [[[? ?] _] _]. cbn in *.
  exists a, b, c, d, e. split_and!; try done.
  all: assert (forall x y : Z, (x, s) <> (y, s) -> x <> y)
         as Hne by congruence.
  all: match goal with
       | |- ?x < ?y =>
           assert (x <> y) by (apply Hne; assumption); lia
       end.
Qed.

(** C9: five cards of one suit whose ranks are not a straight are
    classified as a flush whose primary tie-break is the sum of the five
    ranks, with secondary tie-break 0. *)
Theorem C9_flush_tie_break_is_rank_sum (g : globals) :
  valid_hand g ->
  length (pokerHandID g) = DIGITS_IN_POKER_HAND_ID ->
  one_suit (handSuit g) ->
  ~ forms_straight (handRank g) ->
  classify g = Ok [FLUSH; rank_sum (handRank g); 0].
Proof.
  intros [Hok Hv] Hid Hu Hns.
  destruct (sortHand_spec g Hok) as
    (g1 & E1 & Hok1 & Hp1 & (_ & _ & _ & Hid1) & Hs1).
  unfold classify. rewrite E1. cbn [bind].
  assert (Hr : handRank g1 ≡ₚ handRank g).
  { rewrite <- (cards_ranks g1), <- (cards_ranks g) by done.
    by apply fmap_Permutation. }
  assert (Hs : handSuit g1 ≡ₚ handSuit g).
  { rewrite <- (cards_suits g1), <- (cards_suits g) by done.
    by apply fmap_Permutation. }
  assert (Hu1 : one_suit (handSuit g1)).
  { eapply one_suit_perm; [symmetry|]; eauto. }
  destruct (flush_hand_sorted g1)
    as (a & b & c & d & e & E & ? & ? & ? & ? & ?);
    [split; [done | eapply valid_cards_perm; [symmetry|]; eauto] | done..|].
  destruct (no_equal_ranks g1 a b c d e E) as (E4 & EH & _); [done..|].
  assert (ES : isStraight g1 = Ok 0).
  { apply isStraight_no_straight; [done..|].
    intros Hf. apply Hns. eapply forms_straight_perm; eauto. }
  destruct (isFlush_cases g1 Hok1) as [[_ EF] | [Hnu _]]; [|done].
  apply length_3 in Hid as (x & y & z & Hid).
  rewrite (ladder_getHandRank g1 FLUSH (rank_sum (handRank g1)) 0 x y z [])
    by (first [ by rewrite Hid1, Hid
              | eapply ladder_flush; eauto;
                rewrite E; unfold rank_sum; simpl; lia ]).
  cbn. by rewrite (rank_sum_perm _ _ Hr).
Qed.

Lemma C9_witness :
  classify (initial [2; 3; 9; 5; 6] ["H"; "H"; "H"; "H"; "H"]%char)
  = Ok [FLUSH; 25; 0].
Proof.
  apply (C9_flush_tie_break_is_rank_sum
           (initial [2; 3; 9; 5; 6] ["H"; "H"; "H"; "H"; "H"]%char)).
  - concrete_valid_hand.
  - reflexivity.
  - intros s s' Hs Hs'. cbn in Hs, Hs'.
    repeat match goal with
      | H : _ ∈ _ :: _ |- _ => apply elem_of_cons in H as [->|H]
      | H : _ ∈ [] |- _ => by apply elem_of_nil in H
      end; reflexivity.
  - assert (H2 : (2 : Z) ∈ [2; 3; 9; 5; 6]) by repeat constructor.
    assert (H9 : (9 : Z) ∈ [2; 3; 9; 5; 6]) by repeat constructor.
    intros [[r Hp] | Hp]; cbn [handRank initial] in Hp;
      rewrite Hp in H2, H9; unfold specialStraight in *;
      repeat match goal with
        | H : _ ∈ _ :: _ |- _ => apply elem_of_cons in H as [?|H]
        | H : _ ∈ [] |- _ => apply elem_of_nil in H
        end; lia.
Defined.

(** ** repeatCards *)

Lemma char_of_int_rank (r : Z) : -128 <= r < 128 -> char_of_int r = r.
Proof.
  intros H. unfold char_of_int.
  rewrite Z.mod_small by lia. lia.
Qed.

Lemma cards_lookup (g : globals) (i : nat) :
  hand_ok g -> (i < HAND_SIZE)%nat ->
  exists r s,
    handRank g !! i = Some r /\ handSuit g !! i = Some s /\
    cards g !! i = Some (r, s).
Proof.
  intros [Hr Hs] Hi.
  destruct (lookup_lt_is_Some_2 (handRank g) i) as [r Er]; [lia|].
  destruct (lookup_lt_is_Some_2 (handSuit g) i) as [s Es]; [lia|].
  exists r, s. split_and!; [done..|]. by apply lookup_zip_Some.
Qed.

Lemma cards_length (g : globals) : hand_ok g -> length (cards g) = HAND_SIZE.
Proof. intros [Hr Hs]. unfold cards. rewrite length_zip. lia. Qed.

Lemma repeatCards_inner_spec (g : globals) (rank : Z) (suit : ascii)
    (n j : nat) (repCard : bool) :
  hand_ok g -> (j + n = HAND_SIZE)%nat ->
  repeatCards_inner g rank suit n j repCard
  = Ok (repCard || existsb (same_card rank suit) (drop j (cards g))).
Proof.
  intros Hok. revert j repCard.
  induction n as [|n IH]; intros j rep Hj; simpl.
  - rewrite drop_ge by (rewrite cards_length by done; lia).
    simpl. by rewrite orb_false_r.
  - destruct (cards_lookup g j Hok) as (r & s & Er & Es & Ec); [lia|].
    rewrite (drop_S _ _ _ Ec). simpl.
    unfold rd. rewrite Er. simpl. unfold same_card at 1. simpl.
    destruct (rank =? r); simpl.
    + rewrite Es. simpl. rewrite IH by lia.
      destruct (Ascii.eqb suit s), rep; reflexivity.
    + rewrite IH by lia. reflexivity.
Qed.

Lemma repeatCards_outer_spec (g : globals) (n i : nat) (repCard : bool) :
  hand_ok g -> (i + n = HAND_SIZE)%nat ->
  repeatCards_outer g n i repCard
  = Ok (repCard || has_repeat (drop i (cards g))).
Proof.
  intros Hok. revert i repCard.
  induction n as [|n IH]; intros i rep Hi; simpl.
  - rewrite drop_ge by (rewrite cards_length by done; lia).
    simpl. by rewrite orb_false_r.
  - destruct (cards_lookup g i Hok) as (r & s & Er & Es & Ec); [lia|].
    rewrite (drop_S _ _ _ Ec). simpl.
    unfold rd. rewrite Er, Es. simpl.
    rewrite repeatCards_inner_spec by (done || unfold HAND_SIZE in *; lia).
    simpl. rewrite IH by lia.
    replace (i + 1)%nat with (S i) by lia.
    by rewrite orb_assoc.
Qed.

(** A card of the deck has a rank that fits a [char]. *)
Lemma has_repeat_NoDup (cs : list (Z * ascii)) :
  Forall (fun c => -128 <= c.1 < 128) cs ->
  has_repeat cs = false <-> NoDup cs.
Proof.
  induction 1 as [|[r s] cs Hr Hcs IH]; simpl.
  - split; [constructor | done].
  - rewrite NoDup_cons, orb_false_iff, IH.
    rewrite char_of_int_rank by done.
    assert (existsb (same_card r s) cs = false <-> (r, s) ∉ cs) as ->; [|done].
    rewrite <- not_true_iff_false, existsb_exists.
    split; intros Hn Hin; apply Hn.
    + exists (r, s). split; [by apply list_elem_of_In|].
      unfold same_card. simpl. by rewrite Z.eqb_refl, Ascii.eqb_refl.
    + destruct Hin as ([r' s'] & Hin & Hsame).
      unfold same_card in Hsame. simpl in Hsame.
      apply andb_true_iff in Hsame as [->%Z.eqb_eq ->%Ascii.eqb_eq].
      by apply list_elem_of_In.
Qed.

Lemma is_card_char (c : Z * ascii) : is_card c -> -128 <= c.1 < 128.
Proof. intros [? _]. lia. Qed.

(** [repeatCards] says whether two cards of the hand are equal. *)
Lemma repeatCards_spec (g : globals) :
  hand_ok g -> Forall is_card (cards g) ->
  exists b, repeatCards g = Ok b /\ (b = false <-> NoDup (cards g)).
Proof.
  intros Hok Hc. unfold repeatCards.
  rewrite repeatCards_outer_spec by done. simpl.
  eexists; split; [done|]. apply has_repeat_NoDup.
  eapply Forall_impl; [done | apply is_card_char].
Qed.

(** ** What the estimator leaves alone *)

Lemma same_baseline_refl (g : globals) : same_baseline g g.
Proof. by repeat split. Qed.

Lemma same_baseline_trans (g1 g2 g3 : globals) :
  same_baseline g1 g2 -> same_baseline g2 g3 -> same_baseline g1 g3.
Proof. intros (? & ? & ?) (? & ? & ?). repeat split; congruence. Qed.

Lemma same_rest_baseline (g g' : globals) :
  same_rest g g' -> same_baseline g g'.
Proof. intros (? & ? & ? & ?). by repeat split. Qed.

Lemma sortHand_step_frame (g g' : globals) (sw sw' : bool) (i : nat) :
  sortHand_step g sw i = Ok (g', sw') -> same_rest g g'.
Proof.
  unfold sortHand_step. intros H. repeat step_ok H;
    injection H as <- <-; by repeat split.
Qed.

Lemma sortHand_for_frame (n i : nat) (g g' : globals) (sw sw' : bool) :
  sortHand_for n i g sw = Ok (g', sw') -> same_rest g g'.
Proof.
  revert i g sw. induction n as [|n IH]; intros i g sw H; simpl in H.
  - injection H as <- <-. apply same_rest_refl.
  - step_ok H. destruct a as [g1 sw1].
    apply sortHand_step_frame in E. apply IH in H.
    eapply same_rest_trans; eauto.
Qed.

Lemma sortHand_while_frame (fuel : nat) (g g' : globals) :
  sortHand_while fuel g = Ok g' -> same_rest g g'.
Proof.
  revert g. induction fuel as [|fuel IH]; intros g H;
    cbn [sortHand_while] in H; [discriminate|].
  step_bind H. destruct a as [g1 sw].
  apply sortHand_for_frame in E. destruct sw.
  - apply IH in H. eapply same_rest_trans; eauto.
  - by injection H as <-.
Qed.

Lemma sortHand_frame (g g' : globals) :
  sortHand g = Ok g' -> same_rest g g'.
Proof. apply sortHand_while_frame. Qed.

Lemma loadCopyHand_for_frame (n i : nat) (g g' : globals) :
  loadCopyHand_for n i g = Ok g' -> same_rest g g'.
Proof.
  revert i g. induction n as [|n IH]; intros i g H; simpl in H.
  - injection H as <-. apply same_rest_refl.
  - repeat step_ok H. apply IH in H. exact H.
Qed.

Lemma getProbabilities_draw_frame (draws rest : list nat) (g g' : globals)
    (k : nat) (tempRank randRank : Z) (tempSuit randSuit : ascii) :
  getProbabilities_draw draws g k tempRank tempSuit
  = Ok (g', randRank, randSuit, rest) ->
  same_rest g g'.
Proof.
  revert g.
  cut (forall g,
    (getProbabilities_draw draws g k tempRank tempSuit
     = Ok (g', randRank, randSuit, rest) -> same_rest g g') /\
    (forall r, getProbabilities_draw (r :: draws) g k tempRank tempSuit
     = Ok (g', randRank, randSuit, rest) -> same_rest g g')).
  { intros H g. apply H. }
  induction draws as [|r2 draws IH]; intros g.
  - split; [discriminate | intros r; discriminate].
  - split; [apply IH|].
    intros r1 H. simpl in H. repeat step_ok H.
    + apply (IH (set_hand g a0 a1)) in H. exact H.
    + injection H as <- <- <- <-. by repeat split.
Qed.

Lemma getProbabilities_trials_frame (n : nat) (g g' : globals) (k k' : nat)
    (tempRank : Z) (tempSuit : ascii) (num num' : Z)
    (draws draws' : list nat) :
  getProbabilities_trials n g k tempRank tempSuit num draws
  = Ok (g', k', num', draws') ->
  same_rest g g'.
Proof.
  revert g k num draws.
  induction n as [|n IH]; intros g k num draws H;
    cbn [getProbabilities_trials] in H.
  - injection H as <- <- <- <-. apply same_rest_refl.
  - step_bind H. destruct a as [[[g1 rr] rs] d1]. cbn beta iota in H.
    step_bind H. step_bind H. step_bind H.
    apply getProbabilities_draw_frame in E.
    apply sortHand_frame in E0. apply IH in H.
    eauto using same_rest_trans.
Qed.

Lemma getProbabilities_store_frame (sn : Z) (g g' : globals) (tempRank : Z)
    (tempSuit : ascii) (num : Z) (n j : nat) :
  getProbabilities_store sn g tempRank tempSuit num n j = Ok g' ->
  same_baseline g g' /\ handRank g' = handRank g /\
  handSuit g' = handSuit g /\
  length (probabilities g') = length (probabilities g).
Proof.
  revert j. induction n as [|n IH]; intros j H; simpl in H.
  - injection H as <-. by repeat split.
  - repeat step_ok H; try (by eapply IH).
    injection H as <-. apply wr_ok in E1 as [? ->].
    repeat split. simpl. by rewrite length_insert.
Qed.

Lemma getProbabilities_enter_frame (g g2 : globals) (i : nat) (tempRank : Z)
    (tempSuit : ascii) :
  getProbabilities_enter g i = Ok (g2, tempRank, tempSuit) ->
  same_rest g g2.
Proof.
  unfold getProbabilities_enter, loadCopyHand. intros H.
  repeat step_bind H. injection H as <- <- <-.
  apply loadCopyHand_for_frame in E. apply sortHand_frame in E0.
  eauto using same_rest_trans.
Qed.

Lemma getProbabilities_position_frame (sn : Z) (g g' : globals) (i : nat)
    (draws draws' : list nat) :
  getProbabilities_position sn g i draws = Ok (g', draws') ->
  same_baseline g g'.
Proof.
  unfold getProbabilities_position. intros H.
  step_bind H. destruct a as [[g2 tr] ts]. cbn beta iota in H.
  step_bind H. destruct a as [[[g3 k] num] d]. cbn beta iota in H.
  step_bind H. injection H as <- <-.
  apply getProbabilities_enter_frame, same_rest_baseline in E.
  apply getProbabilities_trials_frame, same_rest_baseline in E0.
  apply getProbabilities_store_frame in E1 as [E1 _].
  eauto using same_baseline_trans.
Qed.

Lemma getProbabilities_for_frame (sn : Z) (n i : nat) (g g' : globals)
    (draws draws' : list nat) :
  getProbabilities_for sn n i g draws = Ok (g', draws') ->
  same_baseline g g'.
Proof.
  revert i g draws. induction n as [|n IH]; intros i g draws H;
    cbn [getProbabilities_for] in H.
  - injection H as <- <-. apply same_baseline_refl.
  - step_bind H. destruct a as [g1 d1]. cbn beta iota in H.
    apply getProbabilities_position_frame in E. apply IH in H.
    eauto using same_baseline_trans.
Qed.

(** C10: nothing in [getProbabilities] writes [pokerHandID],
    [copyHandRank] or [copyHandSuit].  After [i] rounds of the outer loop
    they are as at the call; so they are when round [i] has reloaded and
    sorted the hand, and after every number [n] of trials of that round,
    that is on every state on which [isBetterHand] is called.  With
    [i = HAND_SIZE] the first part is about the state at the return. *)
Theorem C10_baseline_never_written (sampleNumber : Z) (g gi : globals)
    (draws di : list nat) (i : nat) :
  getProbabilities_for sampleNumber i 0 g draws = Ok (gi, di) ->
  same_baseline g gi /\
  forall n g2 tempRank tempSuit gN swapIndex numOfImprovements dN,
    getProbabilities_enter gi i = Ok (g2, tempRank, tempSuit) ->
    getProbabilities_trials n g2 i tempRank tempSuit 0 di
    = Ok (gN, swapIndex, numOfImprovements, dN) ->
    same_baseline g g2 /\ same_baseline g gN.
Proof.
  intros Hfor. apply getProbabilities_for_frame in Hfor.
  split; [done|].
  intros n g2 tr ts gN k num dN Henter Htrials.
  apply getProbabilities_enter_frame, same_rest_baseline in Henter.
  apply getProbabilities_trials_frame, same_rest_baseline in Htrials.
  eauto using same_baseline_trans.
Qed.

(** In [main] the baseline is the key that [getHandRank] has computed
    from the sorted input hand, and the copy is the input hand in its
    original order. *)
Lemma main_good_line_baseline (sampleNumber : Z) (g g' : globals)
    (draws draws' : list nat) :
  main_good_line sampleNumber g draws = Ok (g', draws') ->
  exists g1 g2 g3,
    main_copy_for HAND_SIZE 0 g = Ok g1 /\ sortHand g1 = Ok g2 /\
    getHandRank g2 = Ok g3 /\ same_baseline g3 g'.
Proof.
  unfold main_good_line. intros H. repeat step_bind H.
  eexists _, _, _. split_and!; [done..|].
  by apply getProbabilities_for_frame in H.
Qed.

Lemma C10_witness :
  let g := set_pokerHandID
             (set_copy (initial [2; 3; 5; 6; 9] ["H"; "H"; "H"; "H"; "C"]%char)
                [2; 3; 9; 5; 6] ["H"; "H"; "C"; "H"; "H"]%char)
             [HIGH_CARD; 9; 0] in
  let draws := [0; 0; 1; 1; 2; 2; 3; 3; 4; 4]%nat in
  exists gi,
    getProbabilities_for 1 HAND_SIZE 0 g draws = Ok (gi, []) /\
    same_baseline g gi.
Proof.
  cbv zeta. eexists. split; [vm_compute; reflexivity|].
  match goal with
  | |- same_baseline ?g ?gi =>
      apply (proj1 (C10_baseline_never_written 1 g gi
                      [0; 0; 1; 1; 2; 2; 3; 3; 4; 4]%nat [] HAND_SIZE
                      ltac:(vm_compute; reflexivity)))
  end.
Defined.

(** ** The rejection sampling *)

Lemma loadCopyHand_spec (g : globals) :
  hand_ok g ->
  length (copyHandRank g) = HAND_SIZE ->
  length (copyHandSuit g) = HAND_SIZE ->
  loadCopyHand g = Ok (set_hand g (copyHandRank g) (copyHandSuit g)).
Proof.
  intros H Hcr Hcs. explicit_hand g. simpl in Hcr, Hcs.
  apply length_5 in Hcr as (? & ? & ? & ? & ? & ->).
  apply length_5 in Hcs as (? & ? & ? & ? & ? & ->).
  reflexivity.
Qed.

Lemma delete_insert_same {A : Type} (l : list A) (k : nat) (x : A) :
  delete k (<[k:=x]> l) = delete k l.
Proof.
  revert k. induction l as [|y l IH]; intros [|k]; simpl; try done.
  by rewrite IH.
Qed.

Lemma cards_set_hand_insert (g : globals) (k : nat) (r : Z) (s : ascii) :
  cards (set_hand g (<[k:=r]> (handRank g)) (<[k:=s]> (handSuit g)))
  = <[k:=(r, s)]> (cards g).
Proof. unfold cards. simpl. symmetry. apply (insert_zip_with pair). Qed.

(** A card drawn by [rand()%RANK_COUNT + 2] and
    [SUIT_LIST[rand()%SUIT_COUNT]] is a card of the deck. *)
Lemma drawn_card (r1 r2 : nat) (s : ascii) :
  rd SUIT_LIST (r2 mod SUIT_COUNT) = Ok s ->
  is_card (Z.of_nat (r1 mod RANK_COUNT) + 2, s).
Proof.
  intros Hs. split; simpl.
  - pose proof (Nat.mod_upper_bound r1 RANK_COUNT). unfold RANK_COUNT in *.
    lia.
  - pose proof (Nat.mod_upper_bound r2 SUIT_COUNT) as Hlt.
    unfold SUIT_COUNT in *. specialize (Hlt ltac:(lia)).
    apply rd_ok in Hs.
    destruct (r2 mod 4)%nat as [|[|[|[|?]]]]; [..|lia];
      injection Hs as <-; repeat constructor.
Qed.

(** The do-while loop: when it ends, the card it has put into the cell
    [swapIndex] is a card of the deck, is not the card [temp] that was
    there at first, and is different from the four other cards. *)
Lemma getProbabilities_draw_spec (draws rest : list nat) (g g' : globals)
    (k : nat) (tempRank randRank : Z) (tempSuit randSuit : ascii) :
  hand_ok g -> (k < HAND_SIZE)%nat ->
  Forall is_card (delete k (cards g)) ->
  getProbabilities_draw draws g k tempRank tempSuit
  = Ok (g', randRank, randSuit, rest) ->
  hand_ok g' /\
  cards g' = <[k:=(randRank, randSuit)]> (cards g) /\
  is_card (randRank, randSuit) /\
  (randRank, randSuit) <> (tempRank, tempSuit) /\
  NoDup (cards g') /\
  exists used, draws = used ++ rest.
Proof.
  revert g.
  cut (forall g,
    (hand_ok g -> (k < HAND_SIZE)%nat ->
     Forall is_card (delete k (cards g)) ->
     getProbabilities_draw draws g k tempRank tempSuit
     = Ok (g', randRank, randSuit, rest) ->
     hand_ok g' /\
     cards g' = <[k:=(randRank, randSuit)]> (cards g) /\
     is_card (randRank, randSuit) /\
     (randRank, randSuit) <> (tempRank, tempSuit) /\
     NoDup (cards g') /\
     exists used, draws = used ++ rest) /\
    (forall r1,
     hand_ok g -> (k < HAND_SIZE)%nat ->
     Forall is_card (delete k (cards g)) ->
     getProbabilities_draw (r1 :: draws) g k tempRank tempSuit
     = Ok (g', randRank, randSuit, rest) ->
     hand_ok g' /\
     cards g' = <[k:=(randRank, randSuit)]> (cards g) /\
     is_card (randRank, randSuit) /\
     (randRank, randSuit) <> (tempRank, tempSuit) /\
     NoDup (cards g') /\
     exists used, r1 :: draws = used ++ rest)).
  { intros H g. apply H. }
  induction draws as [|r2 draws IH]; intros g.
  - split; [discriminate | intros r1; discriminate].
  - split; [apply IH|].
    intros r1 Hok Hk Hfix H. cbn [getProbabilities_draw] in H.
    step_bind H. rename a into s.
    do 2 (step_bind H;
          match goal with
          | E : wr _ _ _ = Ok _ |- _ => apply wr_ok in E as [_ ->]
          end).
    cbv zeta in H.
    set (r := Z.of_nat (r1 mod RANK_COUNT) + 2) in *.
    set (g1 := set_hand g (<[k:=r]> (handRank g)) (<[k:=s]> (handSuit g)))
      in *.
    assert (Hcard : is_card (r, s)) by (by apply (drawn_card r1 r2)).
    assert (Hok1 : hand_ok g1).
    { destruct Hok. split; simpl; by rewrite length_insert. }
    assert (Hc1 : cards g1 = <[k:=(r, s)]> (cards g))
      by apply cards_set_hand_insert.
    assert (Hlk : cards g1 !! k = Some (r, s)).
    { rewrite Hc1. apply list_lookup_insert_eq.
      rewrite cards_length by done. done. }
    assert (Hd1 : delete k (cards g1) = delete k (cards g)).
    { rewrite Hc1. apply delete_insert_same. }
    assert (Hall1 : Forall is_card (cards g1)).
    { rewrite (delete_Permutation _ _ _ Hlk), Hd1. by constructor. }
    destruct (repeatCards_spec g1 Hok1 Hall1) as (b & Eb & Hb).
    rewrite Eb in H. cbn [bind] in H.
    destruct (b || (r =? tempRank) && Ascii.eqb s tempSuit) eqn:Hrej.
    + destruct (IH g1) as [IH1 _].
      destruct IH1 as (? & Hc & ? & ? & ? & used & ->);
        [done | done | by rewrite Hd1 | done |].
      split_and!; try done.
      * by rewrite Hc, Hc1, list_insert_insert_eq.
      * by exists (r1 :: r2 :: used).
    + injection H as <- <- <- <-.
      apply orb_false_iff in Hrej as [-> Hsame].
      split_and!; try done.
      * intros [= Er Es]. rewrite Er, Es in Hsame.
        by rewrite Z.eqb_refl, Ascii.eqb_refl in Hsame.
      * by apply Hb.
      * by exists [r1; r2].
Qed.

(** The [for] loop that looks for the drawn card after sorting finds it
    where it is. *)
Lemma getProbabilities_locate_spec (g : globals) (randRank : Z)
    (randSuit : ascii) (n k swapIndex : nat) :
  hand_ok g -> (k + n = HAND_SIZE)%nat ->
  (randRank, randSuit) ∈ drop k (cards g) ->
  exists j,
    getProbabilities_locate g randRank randSuit n k swapIndex = Ok j /\
    (j < HAND_SIZE)%nat /\ cards g !! j = Some (randRank, randSuit).
Proof.
  intros Hok. revert k.
  induction n as [|n IH]; intros k Hk Hin.
  - rewrite drop_ge in Hin by (rewrite cards_length by done; lia).
    by apply elem_of_nil in Hin.
  - destruct (cards_lookup g k Hok) as (r & s & Er & Es & Ec); [lia|].
    rewrite (drop_S _ _ _ Ec) in Hin. cbn [getProbabilities_locate].
    unfold rd. rewrite Er. cbn [bind].
    destruct (Z.eqb_spec randRank r) as [->|Hr].
    + rewrite Es. cbn [bind].
      destruct (Ascii.eqb_spec randSuit s) as [->|Hs].
      * exists k. split_and!; [done | lia | done].
      * apply IH; [lia|].
        apply elem_of_cons in Hin as [Hin|Hin]; [congruence | done].
    + apply IH; [lia|].
      apply elem_of_cons in Hin as [Hin|Hin]; [congruence | done].
Qed.

(** ** One round of the outer loop *)

Lemma copy_cards_length (g : globals) :
  globals_ok g -> length (copy_cards g) = HAND_SIZE.
Proof.
  intros (_ & Hr & Hs & _). unfold copy_cards. rewrite length_zip. lia.
Qed.

(** The head of a round: the hand is the original hand, sorted; the card
    to discard is its card at [i]. *)
Lemma getProbabilities_enter_spec (g g2 : globals) (i : nat) (tempRank : Z)
    (tempSuit : ascii) :
  globals_ok g -> (i < HAND_SIZE)%nat ->
  getProbabilities_enter g i = Ok (g2, tempRank, tempSuit) ->
  hand_ok g2 /\ sorted_hand g2 /\ cards g2 ≡ₚ copy_cards g /\
  cards g2 !! i = Some (tempRank, tempSuit) /\ same_rest g g2.
Proof.
  intros (Hok & Hcr & Hcs & _) Hi. unfold getProbabilities_enter.
  rewrite loadCopyHand_spec by done. cbn [bind].
  set (g1 := set_hand g (copyHandRank g) (copyHandSuit g)).
  destruct (sortHand_spec g1) as (g2' & -> & Hok2 & Hp & Hrest & Hsorted);
    [by split|].
  cbn [bind]. intros H.
  destruct (cards_lookup g2' i Hok2 Hi) as (r & s & Er & Es & Ec).
  unfold rd in H. rewrite Es, Er in H. cbn [bind] in H.
  injection H as <- <- <-. by split_and!.
Qed.

Lemma valid_cards_delete (H : list (Z * ascii)) (i : nat) :
  valid_cards H -> Forall is_card (delete i H).
Proof.
  intros (_ & Hc & _). by apply Forall_delete.
Qed.

(** What the do-while loop accepts, in a state that satisfies the
    invariant of the trials. *)
Lemma getProbabilities_draw_avoids (H : list (Z * ascii)) (i : nat)
    (draws rest : list nat) (g g1 : globals) (k : nat)
    (tempRank randRank : Z) (tempSuit randSuit : ascii) :
  valid_cards H -> H !! i = Some (tempRank, tempSuit) ->
  trial_inv H i g k ->
  getProbabilities_draw draws g k tempRank tempSuit
  = Ok (g1, randRank, randSuit, rest) ->
  ((randRank, randSuit) ∉ H) /\
  ((randRank, randSuit) ∉ delete k (cards g)) /\
  (randRank, randSuit) <> (tempRank, tempSuit) /\
  hand_ok g1 /\
  cards g1 !! k = Some (randRank, randSuit) /\
  delete k (cards g1) ≡ₚ delete i H.
Proof.
  intros Hv Ht (Hok & Hk & Hfix) Hd.
  apply getProbabilities_draw_spec in Hd
    as (Hok1 & Hc1 & Hcard & Hne & Hnd & _); [|done..|].
  2: { rewrite Hfix. by apply valid_cards_delete. }
  assert (Hlk : cards g1 !! k = Some (randRank, randSuit)).
  { rewrite Hc1. apply list_lookup_insert_eq.
    by rewrite cards_length. }
  assert (Hd1 : delete k (cards g1) = delete k (cards g)).
  { rewrite Hc1. apply delete_insert_same. }
  rewrite (delete_Permutation _ _ _ Hlk) in Hnd.
  apply NoDup_cons in Hnd as [Hnotin _]. rewrite Hd1 in Hnotin.
  split_and!; try done.
  - rewrite (delete_Permutation _ _ _ Ht), <- Hfix.
    apply not_elem_of_cons. done.
  - by rewrite Hd1.
Qed.

(** The invariant holds after every number of trials, and the counter
    goes up by at most one in a trial. *)
Lemma getProbabilities_trials_inv (H : list (Z * ascii)) (i n : nat)
    (g g' : globals) (k k' : nat) (tempRank : Z) (tempSuit : ascii)
    (num num' : Z) (draws draws' : list nat) :
  valid_cards H -> H !! i = Some (tempRank, tempSuit) ->
  trial_inv H i g k ->
  getProbabilities_trials n g k tempRank tempSuit num draws
  = Ok (g', k', num', draws') ->
  trial_inv H i g' k' /\ num <= num' <= num + Z.of_nat n.
Proof.
  intros Hv Ht. revert g k num draws.
  induction n as [|n IH]; intros g k num draws Hinv Hrun;
    cbn [getProbabilities_trials] in Hrun.
  - injection Hrun as <- <- <- <-. split; [done | lia].
  - step_bind Hrun. destruct a as [[[g1 rr] rs] d1]. cbn beta iota in Hrun.
    destruct (getProbabilities_draw_avoids H i _ _ _ _ _ _ _ _ _ Hv Ht Hinv E)
      as (_ & _ & _ & Hok1 & Hlk1 & Hfix1).
    destruct (sortHand_spec g1 Hok1) as (g2 & E2 & Hok2 & Hp2 & _ & _).
    rewrite E2 in Hrun. cbn [bind] in Hrun.
    destruct (getProbabilities_locate_spec g2 rr rs HAND_SIZE 0 k Hok2)
      as (j & Ej & Hj & Hlk2); [done | |].
    { rewrite drop_0, Hp2. by eapply list_elem_of_lookup_2. }
    rewrite Ej in Hrun. cbn [bind] in Hrun.
    step_bind Hrun.
    apply IH in Hrun as [Hinv' Hnum].
    + split; [done|]. destruct a; lia.
    + split_and!; [done..|].
      apply (Permutation_cons_inv (a := (rr, rs))).
      rewrite <- (delete_Permutation _ _ _ Hlk2), Hp2.
      rewrite (delete_Permutation _ _ _ Hlk1). by rewrite Hfix1.
Qed.

(** [sortHand] works on the hand and is a function of the hand. *)
Lemma sortHand_step_hand (g g' : globals) (sw : bool) (i : nat) :
  same_hand g g' ->
  match sortHand_step g sw i, sortHand_step g' sw i with
  | Ok (g1, sw1), Ok (g1', sw1') => same_hand g1 g1' /\ sw1 = sw1'
  | Fault _, Fault _ => True
  | _, _ => False
  end.
Proof.
  intros [Hr Hs]. unfold sortHand_step. rewrite Hr, Hs.
  repeat match goal with
    | |- context [bind ?m _] => destruct m; cbn [bind]
    | |- context [if ?c then _ else _] => destruct c
    end; done.
Qed.

Lemma sortHand_for_hand (n i : nat) (g g' : globals) (sw : bool) :
  same_hand g g' ->
  match sortHand_for n i g sw, sortHand_for n i g' sw with
  | Ok (g1, sw1), Ok (g1', sw1') => same_hand g1 g1' /\ sw1 = sw1'
  | Fault _, Fault _ => True
  | _, _ => False
  end.
Proof.
  revert i g g' sw. induction n as [|n IH]; intros i g g' sw Hh;
    cbn [sortHand_for]; [done|].
  pose proof (sortHand_step_hand g g' sw i Hh) as Hstep.
  destruct (sortHand_step g sw i) as [[g1 sw1]|],
    (sortHand_step g' sw i) as [[g1' sw1']|]; try done.
  destruct Hstep as [Hh1 <-]. cbn [bind]. by apply IH.
Qed.

Lemma sortHand_while_hand (fuel : nat) (g g' : globals) :
  same_hand g g' ->
  match sortHand_while fuel g, sortHand_while fuel g' with
  | Ok g1, Ok g1' => same_hand g1 g1'
  | Fault _, Fault _ => True
  | _, _ => False
  end.
Proof.
  revert g g'. induction fuel as [|fuel IH]; intros g g' Hh;
    cbn [sortHand_while]; [done|].
  pose proof (sortHand_for_hand (HAND_SIZE - 1) 0 g g' false Hh) as Hfor.
  destruct (sortHand_for (HAND_SIZE - 1) 0 g false) as [[g1 sw1]|],
    (sortHand_for (HAND_SIZE - 1) 0 g' false) as [[g1' sw1']|]; try done.
  destruct Hfor as [Hh1 <-]. cbn [bind]. destruct sw1; [by apply IH | done].
Qed.

(** The sorted original hand is the same in every round. *)
Lemma getProbabilities_enter_fun (g g' g2 g2' : globals) (i i' : nat)
    (tempRank tempRank' : Z) (tempSuit tempSuit' : ascii) :
  globals_ok g -> globals_ok g' -> same_baseline g g' ->
  getProbabilities_enter g i = Ok (g2, tempRank, tempSuit) ->
  getProbabilities_enter g' i' = Ok (g2', tempRank', tempSuit') ->
  cards g2' = cards g2.
Proof.
  intros (Hok & Hcr & Hcs & _) (Hok' & Hcr' & Hcs' & _) (_ & Er & Es).
  unfold getProbabilities_enter.
  rewrite !loadCopyHand_spec by done. cbn [bind]. intros H H'.
  pose proof (sortHand_while_hand sort_fuel
                (set_hand g (copyHandRank g) (copyHandSuit g))
                (set_hand g' (copyHandRank g') (copyHandSuit g'))) as Hh.
  unfold sortHand in H, H'.
  step_bind H. step_bind H'. specialize (Hh ltac:(by split)).
  destruct Hh as [Hr Hs]. repeat step_bind H. repeat step_bind H'.
  injection H as <- _ _. injection H' as <- _ _.
  unfold cards. by rewrite Hr, Hs.
Qed.

(** The [for] loop that stores the percentage finds the discarded card
    in the original hand and writes that cell of [probabilities]. *)
Lemma copy_cards_lookup (g : globals) (j : nat) :
  globals_ok g -> (j < HAND_SIZE)%nat ->
  exists r s,
    copyHandRank g !! j = Some r /\ copyHandSuit g !! j = Some s /\
    copy_cards g !! j = Some (r, s).
Proof.
  intros (_ & Hr & Hs & _) Hj.
  destruct (lookup_lt_is_Some_2 (copyHandRank g) j) as [r Er]; [lia|].
  destruct (lookup_lt_is_Some_2 (copyHandSuit g) j) as [s Es]; [lia|].
  exists r, s. split_and!; [done..|]. by apply lookup_zip_Some.
Qed.

Lemma getProbabilities_store_spec (sn : Z) (g : globals) (tempRank : Z)
    (tempSuit : ascii) (num : Z) (n j0 : nat) :
  globals_ok g -> (j0 + n = HAND_SIZE)%nat ->
  (tempRank, tempSuit) ∈ drop j0 (copy_cards g) ->
  exists j,
    (j < HAND_SIZE)%nat /\
    copy_cards g !! j = Some (tempRank, tempSuit) /\
    getProbabilities_store sn g tempRank tempSuit num n j0
    = Ok (set_probabilities g (<[j:=percentage num sn]> (probabilities g))).
Proof.
  intros Hok. revert j0.
  induction n as [|n IH]; intros j0 Hj Hin.
  - rewrite drop_ge in Hin by (rewrite copy_cards_length by done; lia).
    by apply elem_of_nil in Hin.
  - destruct (copy_cards_lookup g j0 Hok) as (r & s & Er & Es & Ec); [lia|].
    rewrite (drop_S _ _ _ Ec) in Hin. cbn [getProbabilities_store].
    unfold rd. rewrite Es. cbn [bind].
    destruct (Ascii.eqb_spec tempSuit s) as [->|Hs].
    + rewrite Er. cbn [bind].
      destruct (Z.eqb_spec tempRank r) as [->|Hr].
      * exists j0. split_and!; [lia | done |].
        rewrite wr_lt; [done|].
        destruct Hok as (_ & _ & _ & -> & _). lia.
      * apply IH; [lia|].
        apply elem_of_cons in Hin as [Hin|Hin]; [congruence | done].
    + apply IH; [lia|].
      apply elem_of_cons in Hin as [Hin|Hin]; [congruence | done].
Qed.

Lemma getProbabilities_enter_total (g : globals) (i : nat) :
  globals_ok g -> (i < HAND_SIZE)%nat ->
  exists g2 tempRank tempSuit,
    getProbabilities_enter g i = Ok (g2, tempRank, tempSuit).
Proof.
  intros (Hh & Hcr & Hcs & _) Hi. unfold getProbabilities_enter.
  rewrite loadCopyHand_spec by done. cbn [bind].
  destruct (sortHand_spec (set_hand g (copyHandRank g) (copyHandSuit g)))
    as (g1 & -> & Hok1 & _); [by split|].
  cbn [bind].
  destruct (cards_lookup g1 i Hok1 Hi) as (r & s & Er & Es & _).
  unfold rd. rewrite Es, Er. cbn [bind]. eauto.
Qed.

Lemma getProbabilities_enter_sorted_original (g g2 : globals) (i : nat)
    (tempRank : Z) (tempSuit : ascii) :
  globals_ok g ->
  getProbabilities_enter g i = Ok (g2, tempRank, tempSuit) ->
  cards g2 = sorted_original g.
Proof.
  intros Hok H. unfold sorted_original.
  destruct (getProbabilities_enter_total g 0 Hok) as (g0 & r0 & s0 & E0);
    [unfold HAND_SIZE; lia|].
  rewrite E0.
  eapply (getProbabilities_enter_fun g g); eauto using same_baseline_refl.
Qed.

Lemma sorted_original_baseline (g g' : globals) :
  globals_ok g -> globals_ok g' -> same_baseline g g' ->
  sorted_original g' = sorted_original g.
Proof.
  intros Hok Hok' Hb. unfold sorted_original.
  destruct (getProbabilities_enter_total g 0 Hok) as (g0 & r0 & s0 & E0);
    [unfold HAND_SIZE; lia|].
  destruct (getProbabilities_enter_total g' 0 Hok') as (g0' & r0' & s0' & E0');
    [unfold HAND_SIZE; lia|].
  rewrite E0, E0'.
  eapply getProbabilities_enter_fun; [| | |exact E0|exact E0']; done.
Qed.

(** One round: the trials run on the sorted original hand with its card
    at [i] replaced; the percentage of the round goes into the cell of
    [probabilities] at which the original hand has that card. *)
Lemma getProbabilities_position_spec (sn : Z) (g g' : globals) (i : nat)
    (draws draws' : list nat) :
  globals_ok g -> valid_cards (copy_cards g) -> (i < HAND_SIZE)%nat ->
  getProbabilities_position sn g i draws = Ok (g', draws') ->
  exists g2 tempRank tempSuit gN k num j,
    getProbabilities_enter g i = Ok (g2, tempRank, tempSuit) /\
    sorted_original g !! i = Some (tempRank, tempSuit) /\
    getProbabilities_trials (Z.to_nat sn) g2 i tempRank tempSuit 0 draws
    = Ok (gN, k, num, draws') /\
    0 <= num <= Z.of_nat (Z.to_nat sn) /\
    (j < HAND_SIZE)%nat /\
    copy_cards g !! j = Some (tempRank, tempSuit) /\
    probabilities g' = <[j:=percentage num sn]> (probabilities g) /\
    globals_ok g' /\ same_baseline g g'.
Proof.
  intros Hok Hv Hi H. pose proof H as Hframe.
  apply getProbabilities_position_frame in Hframe.
  unfold getProbabilities_position in H.
  step_bind H. destruct a as [[g2 tr] ts]. cbn beta iota in H.
  step_bind H. destruct a as [[[gN k] num] dN]. cbn beta iota in H.
  step_bind H. injection H as <- <-.
  pose proof (getProbabilities_enter_sorted_original _ _ _ _ _ Hok E) as HH.
  pose proof E as Henter.
  apply getProbabilities_enter_spec in Henter
    as (Hok2 & _ & Hp & Ht & Hrest2); [|done..].
  assert (Hv2 : valid_cards (cards g2)).
  { eapply valid_cards_perm; [symmetry|]; eauto. }
  assert (Hinv2 : trial_inv (cards g2) i g2 i) by (by split_and!).
  destruct (getProbabilities_trials_inv _ _ _ _ _ _ _ _ _ _ _ _ _
              Hv2 Ht Hinv2 E0) as [(HokN & _ & _) Hnum].
  pose proof (getProbabilities_trials_frame _ _ _ _ _ _ _ _ _ _ _ E0)
    as HrestN.
  pose proof (same_rest_trans _ _ _ Hrest2 HrestN)
    as (Ecr & Ecs & Epr & Eid).
  assert (HokN' : globals_ok gN).
  { destruct Hok as (_ & ? & ? & ? & ?).
    split_and!; [done | congruence..]. }
  assert (Hcopy : copy_cards gN = copy_cards g).
  { unfold copy_cards. by rewrite Ecr, Ecs. }
  destruct (getProbabilities_store_spec sn gN tr ts num HAND_SIZE 0 HokN')
    as (j & Hj & Hlk & Estore); [done | |].
  { rewrite drop_0, Hcopy, <- Hp. by eapply list_elem_of_lookup_2. }
  rewrite Estore in E1. injection E1 as <-.
  exists g2, tr, ts, gN, k, num, j.
  split_and!; try done.
  - by rewrite <- HH.
  - lia.
  - lia.
  - by rewrite <- Hcopy.
  - simpl. by rewrite Epr.
  - destruct HokN' as (? & ? & ? & ? & ?).
    split_and!; simpl; try done. by rewrite length_insert.
Qed.

(** ** The outer loop *)

Lemma sorted_original_valid (g : globals) :
  globals_ok g -> valid_cards (copy_cards g) ->
  valid_cards (sorted_original g) /\ sorted_original g ≡ₚ copy_cards g.
Proof.
  intros Hok Hv.
  destruct (getProbabilities_enter_total g 0 Hok) as (g0 & r0 & s0 & E0);
    [unfold HAND_SIZE; lia|].
  rewrite <- (getProbabilities_enter_sorted_original _ _ _ _ _ Hok E0).
  apply getProbabilities_enter_spec in E0 as (_ & _ & Hp & _);
    [|done | unfold HAND_SIZE; lia].
  split; [|done]. eapply valid_cards_perm; [symmetry|]; eauto.
Qed.

(** [n] rounds from round [i] on: [js] lists the cells of
    [probabilities] that the rounds write, in the order of the rounds. *)
Lemma getProbabilities_for_spec (sn : Z) (n i : nat) (g g' : globals)
    (draws draws' : list nat) :
  globals_ok g -> valid_cards (copy_cards g) -> (i + n <= HAND_SIZE)%nat ->
  getProbabilities_for sn n i g draws = Ok (g', draws') ->
  globals_ok g' /\ same_baseline g g' /\
  exists js,
    length js = n /\ NoDup js /\
    (forall t j, js !! t = Some j ->
       (j < HAND_SIZE)%nat /\
       exists c num gi di g2 gN k dN,
         sorted_original g !! (i + t)%nat = Some c /\
         copy_cards g !! j = Some c /\
         getProbabilities_for sn t i g draws = Ok (gi, di) /\
         getProbabilities_enter gi (i + t) = Ok (g2, c.1, c.2) /\
         getProbabilities_trials (Z.to_nat sn) g2 (i + t) c.1 c.2 0 di
         = Ok (gN, k, num, dN) /\
         0 <= num <= Z.of_nat (Z.to_nat sn) /\
         probabilities g' !! j = Some (percentage num sn)) /\
    (forall j, j ∉ js -> probabilities g' !! j = probabilities g !! j).
Proof.
  revert i g draws.
  induction n as [|n IH]; intros i g draws Hok Hv Hin H;
    cbn [getProbabilities_for] in H.
  - injection H as <- <-. split_and!; [done | apply same_baseline_refl|].
    exists []. split_and!; [done | constructor | | done].
    intros t j Ht. by rewrite lookup_nil in Ht.
  - step_bind H. destruct a as [g1 d1]. cbn beta iota in H.
    pose proof E as Hpos.
    apply getProbabilities_position_spec in Hpos
      as (g2 & tr & ts & gN & k & num & j & Henter & HH & Htrials & Hnum &
          Hj & Hlk & Hpr & Hok1 & Hb1); [|done | done | lia].
    assert (Hcopy1 : copy_cards g1 = copy_cards g).
    { destruct Hb1 as (_ & Ecr & Ecs). unfold copy_cards.
      by rewrite Ecr, Ecs. }
    assert (HH1 : sorted_original g1 = sorted_original g)
      by (by apply sorted_original_baseline).
    destruct (IH (S i) g1 d1) as (Hok' & Hb' & js & Hlen & Hnd & Hjs & Hfr);
      [done | by rewrite Hcopy1 | lia | done |].
    destruct (sorted_original_valid g Hok Hv) as [(_ & _ & HndH) _].
    assert (Hnotin : j ∉ js).
    { intros (t & Ht)%list_elem_of_lookup_1.
      destruct (Hjs t j Ht) as (_ & c & ? & ? & ? & ? & ? & ? & ? & Hc &
                                Hcj & _).
      rewrite Hcopy1, Hlk in Hcj. injection Hcj as <-.
      rewrite HH1 in Hc.
      pose proof (NoDup_lookup _ _ _ _ HndH HH Hc). lia. }
    split_and!; [done | eauto using same_baseline_trans |].
    exists (j :: js). split_and!.
    + simpl. by rewrite Hlen.
    + by constructor.
    + intros [|t] j' Ht; simpl in Ht.
      * injection Ht as <-. split; [done|].
        exists (tr, ts), num, g, draws, g2, gN, k, d1.
        rewrite Nat.add_0_r. split_and!; try done; try lia.
        rewrite Hfr, Hpr by done. apply list_lookup_insert_eq.
        destruct Hok as (_ & _ & _ & -> & _). done.
      * destruct (Hjs t j' Ht) as (Hj' & c & num' & gi & di & g2' & gN' &
                                   k' & dN' & Hc & Hcj & Hfor & He & Htr &
                                   Hn & Hp).
        split; [done|].
        exists c, num', gi, di, g2', gN', k', dN'.
        replace (i + S t)%nat with (S i + t)%nat by lia.
        split_and!; try done; try lia.
        -- by rewrite <- HH1.
        -- by rewrite <- Hcopy1.
        -- cbn [getProbabilities_for]. rewrite E. done.
    + intros j' Hj'. apply not_elem_of_cons in Hj' as [Hne Hj'].
      rewrite Hfr, Hpr by done. by apply list_lookup_insert_ne.
Qed.

(** C5: in every round [i] of the outer loop, after any number [n] of
    trials, the card that the do-while loop of the next trial accepts is
    not a card of the original hand: it is not the card [temp] that the
    round replaces, and not one of the four cards next to the cell
    [swapIndex], which are the four other cards of the original hand. *)
Theorem C5_replacement_not_in_original_hand (sampleNumber : Z)
    (g gi g2 gN g1 : globals) (draws di dN rest : list nat)
    (i n swapIndex : nat) (tempRank randRank numOfImprovements : Z)
    (tempSuit randSuit : ascii) :
  globals_ok g -> valid_cards (copy_cards g) -> (i < HAND_SIZE)%nat ->
  getProbabilities_for sampleNumber i 0 g draws = Ok (gi, di) ->
  getProbabilities_enter gi i = Ok (g2, tempRank, tempSuit) ->
  getProbabilities_trials n g2 i tempRank tempSuit 0 di
  = Ok (gN, swapIndex, numOfImprovements, dN) ->
  getProbabilities_draw dN gN swapIndex tempRank tempSuit
  = Ok (g1, randRank, randSuit, rest) ->
  ((randRank, randSuit) ∉ copy_cards g) /\
  (randRank, randSuit) <> (tempRank, tempSuit) /\
  ((randRank, randSuit) ∉ delete swapIndex (cards gN)) /\
  (tempRank, tempSuit) :: delete swapIndex (cards gN) ≡ₚ copy_cards g.
Proof.
  intros Hg Hv Hi Hfor Henter Htrials Hdraw.
  apply getProbabilities_for_spec in Hfor as (Hgi & (_ & Hcr & Hcs) & _);
    [|done | done | lia].
  assert (Hcopy : copy_cards gi = copy_cards g).
  { unfold copy_cards. by rewrite Hcr, Hcs. }
  apply getProbabilities_enter_spec in Henter
    as (Hok2 & _ & Hp & Ht & _); [|done..].
  rewrite Hcopy in Hp.
  assert (Hv2 : valid_cards (cards g2)).
  { eapply valid_cards_perm; [symmetry|]; eauto. }
  assert (Hinv2 : trial_inv (cards g2) i g2 i) by (by split_and!).
  destruct (getProbabilities_trials_inv _ _ _ _ _ _ _ _ _ _ _ _ _
              Hv2 Ht Hinv2 Htrials) as [HinvN _].
  destruct (getProbabilities_draw_avoids _ _ _ _ _ _ _ _ _ _ _
              Hv2 Ht HinvN Hdraw) as (Hnot & Hfix & Hne & _).
  destruct HinvN as (_ & _ & HfixN).
  split_and!; try done.
  - by rewrite <- Hp.
  - by rewrite HfixN, <- (delete_Permutation _ _ _ Ht).
Qed.

(** The do-while loop ends as soon as the draws offer a card that is not
    in the hand. *)
Lemma getProbabilities_draw_accepts (g : globals) (k : nat) (tempRank : Z)
    (tempSuit : ascii) (r1 r2 : nat) (rest : list nat) (s : ascii) :
  hand_ok g -> (k < HAND_SIZE)%nat ->
  Forall is_card (delete k (cards g)) ->
  rd SUIT_LIST (r2 mod SUIT_COUNT) = Ok s ->
  (Z.of_nat (r1 mod RANK_COUNT) + 2, s) ∉ delete k (cards g) ->
  NoDup (delete k (cards g)) ->
  (Z.of_nat (r1 mod RANK_COUNT) + 2, s) <> (tempRank, tempSuit) ->
  exists g1,
    getProbabilities_draw (r1 :: r2 :: rest) g k tempRank tempSuit
    = Ok (g1, Z.of_nat (r1 mod RANK_COUNT) + 2, s, rest).
Proof.
  intros Hok Hk Hfix Hs Hnotin Hnd Hne.
  cbn [getProbabilities_draw]. rewrite Hs. cbn [bind].
  destruct Hok as [Hr Hsu].
  rewrite !wr_lt by lia. cbn [bind]. cbv zeta.
  set (r := Z.of_nat (r1 mod RANK_COUNT) + 2) in *.
  set (g1 := set_hand g (<[k:=r]> (handRank g)) (<[k:=s]> (handSuit g))).
  assert (Hok1 : hand_ok g1).
  { split; simpl; by rewrite length_insert. }
  assert (Hc1 : cards g1 = <[k:=(r, s)]> (cards g))
    by apply cards_set_hand_insert.
  assert (Hlk : cards g1 !! k = Some (r, s)).
  { rewrite Hc1. apply list_lookup_insert_eq.
    rewrite cards_length by done. done. }
  assert (Hd1 : delete k (cards g1) = delete k (cards g)).
  { rewrite Hc1. apply delete_insert_same. }
  assert (Hall1 : Forall is_card (cards g1)).
  { rewrite (delete_Permutation _ _ _ Hlk), Hd1. constructor; [|done].
    by apply (drawn_card r1 r2). }
  destruct (repeatCards_spec g1 Hok1 Hall1) as (b & -> & Hb).
  cbn [bind].
  assert (b = false) as ->.
  { apply Hb. rewrite (delete_Permutation _ _ _ Hlk), Hd1.
    by constructor. }
  assert ((r =? tempRank) && Ascii.eqb s tempSuit = false) as ->.
  { apply andb_false_iff.
    destruct (Z.eqb_spec r tempRank) as [->|]; [right|by left].
    destruct (Ascii.eqb_spec s tempSuit) as [->|]; done. }
  by exists g1.
Qed.

Ltac concrete_valid_cards :=
  repeat split; try reflexivity;
  [ repeat constructor; cbn; try lia
  | apply (bool_decide_unpack _); vm_compute; exact I ].

Lemma C5_witness :
  let g := set_pokerHandID
             (set_copy (initial [2; 3; 5; 6; 9] ["H"; "H"; "H"; "H"; "C"]%char)
                [2; 3; 9; 5; 6] ["H"; "H"; "C"; "H"; "H"]%char)
             [HIGH_CARD; 9; 0] in
  (3, "D"%char) ∉ copy_cards g.
Proof.
  cbv zeta.
  set (g := set_pokerHandID _ _).
  set (draws := [0; 0; 1; 1; 2; 2; 3; 3; 4; 4]%nat).
  eassert (E1 : getProbabilities_for 1 1 0 g draws = Ok _)
    by (vm_compute; reflexivity).
  match type of E1 with
  | _ = Ok (?gi, ?di) =>
      eassert (E2 : getProbabilities_enter gi 1 = Ok _)
        by (vm_compute; reflexivity);
      match type of E2 with
      | _ = Ok (?g2, ?tr, ?ts) =>
          eassert (E3 : getProbabilities_trials 0 g2 1 tr ts 0 di = Ok _)
            by (vm_compute; reflexivity);
          match type of E3 with
          | _ = Ok (?gN, ?k, ?num, ?dN) =>
              eassert (E4 : getProbabilities_draw dN gN k tr ts = Ok _)
                by (vm_compute; reflexivity);
              match type of E4 with
              | _ = Ok (?g1, ?rr, ?rs, ?rest) =>
                  assert (Hg : globals_ok g) by (by repeat split);
                  assert (Hv : valid_cards (copy_cards g))
                    by concrete_valid_cards;
                  assert (Hi : (1 < HAND_SIZE)%nat)
                    by (unfold HAND_SIZE; lia);
                  exact (proj1 (C5_replacement_not_in_original_hand
                                  1 g gi g2 gN g1 draws di dN rest 1 0 k
                                  tr rr num ts rs Hg Hv Hi E1 E2 E3 E4))
              end
          end
      end
  end.
Defined.

(** ** When the estimation returns *)

(** The cases of the [switch], from the last one up: a case returns
    when its detector stays inside the hand and the cases below it
    return. *)
Ltac case_ifs :=
  repeat match goal with
    | |- exists b, (if ?c then _ else _) = Ok b => destruct c
    end; eauto.

Lemma case_STRAIGHT_FLUSH_total (g : globals) (M m s f : Z) :
  hand_ok g -> exists b, case_STRAIGHT_FLUSH g M m s f = Ok b.
Proof.
  intros Hok. unfold case_STRAIGHT_FLUSH.
  destruct (isStraight_total g Hok) as [s' Es].
  destruct (isFlush_total g Hok) as [f' Ef].
  rewrite Es, Ef.
  repeat match goal with
    | |- context [if ?c then _ else _] => destruct c; cbn [bind]
    end; eauto.
Qed.

Lemma case_FOUR_OF_A_KIND_total (g : globals) (M m s f : Z) :
  hand_ok g -> deep_in_bounds g ->
  exists b, case_FOUR_OF_A_KIND g M m s f = Ok b.
Proof.
  intros Hok (_ & _ & v & E). unfold case_FOUR_OF_A_KIND.
  rewrite E. cbn [bind].
  pose proof (case_STRAIGHT_FLUSH_total g M m s f Hok). case_ifs.
Qed.

Lemma case_FULL_HOUSE_total (g : globals) (M m s f : Z) :
  hand_ok g -> deep_in_bounds g ->
  exists b, case_FULL_HOUSE g M m s f = Ok b.
Proof.
  intros Hok Hd. pose proof Hd as (_ & (v & E) & _).
  unfold case_FULL_HOUSE. rewrite E. cbn [bind].
  pose proof (case_FOUR_OF_A_KIND_total g M m s f Hok Hd). case_ifs.
Qed.

Lemma case_FLUSH_total (g : globals) (M m s : Z) :
  hand_ok g -> deep_in_bounds g ->
  exists b, case_FLUSH g M m s = Ok b.
Proof.
  intros Hok Hd. destruct (isFlush_total g Hok) as [f E].
  unfold case_FLUSH. rewrite E. cbn [bind].
  pose proof (case_FULL_HOUSE_total g M m s f Hok Hd). case_ifs.
Qed.

Lemma case_STRAIGHT_total (g : globals) (M m : Z) :
  hand_ok g -> deep_in_bounds g ->
  exists b, case_STRAIGHT g M m = Ok b.
Proof.
  intros Hok Hd. destruct (isStraight_total g Hok) as [s E].
  unfold case_STRAIGHT. rewrite E. cbn [bind].
  pose proof (case_FLUSH_total g M m s Hok Hd). case_ifs.
Qed.

Lemma case_THREE_OF_A_KIND_total (g : globals) (M m : Z) :
  hand_ok g -> deep_in_bounds g ->
  exists b, case_THREE_OF_A_KIND g M m = Ok b.
Proof.
  intros Hok Hd. pose proof Hd as ((v & E) & _).
  unfold case_THREE_OF_A_KIND. rewrite E. cbn [bind].
  pose proof (case_STRAIGHT_total g M m Hok Hd). case_ifs.
Qed.

Lemma case_TWO_PAIR_total (g : globals) (M m : Z) :
  hand_ok g -> length (pokerHandID g) = DIGITS_IN_POKER_HAND_ID ->
  deep_in_bounds g ->
  exists b, case_TWO_PAIR g M m = Ok b.
Proof.
  intros Hok Hid Hd. destruct (isTwoPair_total g Hok) as [v E].
  destruct (isXOfAKind_2_total g Hok) as [low E2].
  destruct (rd_lt (pokerHandID g) LOW_PAIR_DIGIT) as (l & El & _).
  { rewrite Hid. unfold LOW_PAIR_DIGIT, DIGITS_IN_POKER_HAND_ID. lia. }
  unfold case_TWO_PAIR. rewrite E. cbn [bind].
  pose proof (case_THREE_OF_A_KIND_total g M m Hok Hd).
  rewrite E2, El. cbn [bind]. case_ifs.
Qed.

(** With a pair in the hand [isXOfAKind(2)] finds it; a sorted hand of
    ranks that are not zero and without a pair keeps every loop inside
    the hand. *)
Lemma no_pair_in_bounds (g : globals) :
  hand_ok g -> sorted_hand g -> Forall (fun r => 2 <= r) (handRank g) ->
  isXOfAKind g 2 = Ok 0 -> deep_in_bounds g.
Proof.
  intros H. explicit_hand g. unfold sorted_hand, deep_in_bounds.
  cbn [handRank]. intros Hs Hf.
  repeat match goal with
    | H : Sorted _ (_ :: _) |- _ => apply Sorted_inv in H as [H ?]
    | H : HdRel _ _ (_ :: _) |- _ => apply HdRel_inv in H
    | H : Forall _ (_ :: _) |- _ => apply Forall_cons in H as [? H]
    end.
  unfold isXOfAKind, isFullHouse.
  split_ranks; intros E; try (injection E; lia); split_and!; eauto.
Qed.

Ltac sorted_ranks :=
  repeat match goal with
    | H : Sorted _ (_ :: _) |- _ => apply Sorted_inv in H as [H ?]
    | H : HdRel _ _ (_ :: _) |- _ => apply HdRel_inv in H
    | H : Forall _ (_ :: _) |- _ => apply Forall_cons in H as [? H]
    end.

(** A sorted hand in which [isTwoPair] finds nothing has three cards of
    one rank, which [isXOfAKind(3)] finds, or keeps every loop inside the
    hand. *)
Lemma no_two_pair_in_bounds (g : globals) :
  hand_ok g -> sorted_hand g -> Forall (fun r => 2 <= r) (handRank g) ->
  isTwoPair g = Ok 0 ->
  (exists v, isXOfAKind g 3 = Ok v /\ v <> 0) \/ deep_in_bounds g.
Proof.
  intros H. explicit_hand g. unfold sorted_hand, deep_in_bounds.
  cbn [handRank]. intros Hs Hf. sorted_ranks.
  unfold isXOfAKind, isFullHouse, isTwoPair.
  split_ranks; intros E; try (injection E; lia);
    first [ left; eexists; split; [reflexivity | lia]
          | right; split_and!; eauto ].
Qed.

Lemma case_ONE_PAIR_total (g : globals) (M m : Z) :
  hand_ok g -> length (pokerHandID g) = DIGITS_IN_POKER_HAND_ID ->
  sorted_hand g -> Forall (fun r => 2 <= r) (handRank g) ->
  M = HIGH_CARD \/ M = ONE_PAIR ->
  exists b, case_ONE_PAIR g M m = Ok b.
Proof.
  intros Hok Hid Hs Hf HM.
  destruct (isXOfAKind_2_total g Hok) as [v E].
  unfold case_ONE_PAIR. rewrite E. cbn [bind].
  destruct (Z.eqb_spec v 0) as [->|Hv]; cbn [negb].
  { apply case_TWO_PAIR_total; [done..|]. by apply no_pair_in_bounds. }
  destruct (ONE_PAIR >? M) eqn:EM; [eauto|].
  assert (M = ONE_PAIR) as -> by (destruct HM as [->| ->]; done).
  destruct (v >? m); [eauto|].
  destruct (isTwoPair_total g Hok) as [w Ew].
  unfold case_TWO_PAIR. rewrite Ew. cbn [bind].
  destruct (Z.eqb_spec w 0) as [->|Hw]; cbn [negb].
  2: { replace (TWO_PAIR >? ONE_PAIR) with true by done. eauto. }
  destruct (no_two_pair_in_bounds g Hok Hs Hf Ew) as [(t & Et & Ht)|Hd].
  - unfold case_THREE_OF_A_KIND. rewrite Et. cbn [bind].
    destruct (Z.eqb_spec t 0); [done|]. cbn [negb].
    replace (THREE_OF_A_KIND >? ONE_PAIR) with true by done. eauto.
  - by apply case_THREE_OF_A_KIND_total.
Qed.

(** Against a baseline of the category high card or one pair,
    [isBetterHand] stays inside every sorted hand. *)
Lemma isBetterHand_low_baseline (g : globals) (M : Z) :
  hand_ok g -> length (pokerHandID g) = DIGITS_IN_POKER_HAND_ID ->
  sorted_hand g -> Forall (fun r => 2 <= r) (handRank g) ->
  pokerHandID g !! MAJOR_RANK_DIGIT = Some M ->
  M = HIGH_CARD \/ M = ONE_PAIR ->
  exists b, isBetterHand g = Ok b.
Proof.
  intros Hok Hid Hs Hf HM Hlow.
  destruct (rd_lt (pokerHandID g) MINOR_RANK_DIGIT) as (m & Em & _).
  { rewrite Hid. unfold MINOR_RANK_DIGIT, DIGITS_IN_POKER_HAND_ID. lia. }
  apply rd_ok in HM. unfold isBetterHand. rewrite HM, Em. cbn [bind].
  pose proof (case_ONE_PAIR_total g M m Hok Hid Hs Hf Hlow) as Hone.
  destruct Hlow as [-> | ->].
  - replace (HIGH_CARD =? HIGH_CARD) with true by done.
    unfold case_HIGH_CARD. destruct (highCard_total g Hok) as [h ->].
    cbn [bind]. by destruct (h >? m); eauto.
  - replace (ONE_PAIR =? HIGH_CARD) with false by done.
    replace (ONE_PAIR =? ONE_PAIR) with true by done. done.
Qed.

(** Every loop stays inside a hand of at least four different ranks,
    whatever the baseline is. *)
Lemma four_ranks_in_bounds (g : globals) :
  hand_ok g -> (3 <= changes (handRank g))%nat -> deep_in_bounds g.
Proof.
  intros H. explicit_hand g. unfold deep_in_bounds.
  cbn [handRank changes]. intros Hc.
  unfold isXOfAKind, isFullHouse.
  split_ranks; cbn in Hc; try lia; split_and!; eauto.
Qed.

Lemma isBetterHand_deep (g : globals) :
  hand_ok g -> length (pokerHandID g) = DIGITS_IN_POKER_HAND_ID ->
  deep_in_bounds g ->
  exists b, isBetterHand g = Ok b.
Proof.
  intros Hok Hid Hd.
  destruct (rd_lt (pokerHandID g) MAJOR_RANK_DIGIT) as (M & EM & _).
  { rewrite Hid. unfold MAJOR_RANK_DIGIT, DIGITS_IN_POKER_HAND_ID. lia. }
  destruct (rd_lt (pokerHandID g) MINOR_RANK_DIGIT) as (m & Em & _).
  { rewrite Hid. unfold MINOR_RANK_DIGIT, DIGITS_IN_POKER_HAND_ID. lia. }
  unfold isBetterHand. rewrite EM, Em. cbn [bind].
  pose proof (case_TWO_PAIR_total g M m Hok Hid Hd) as Htwo.
  assert (Hone : exists b, case_ONE_PAIR g M m = Ok b).
  { unfold case_ONE_PAIR. destruct (isXOfAKind_2_total g Hok) as [v ->].
    cbn [bind]. case_ifs. }
  assert (Hhigh : exists b, case_HIGH_CARD g M m = Ok b).
  { unfold case_HIGH_CARD. destruct (highCard_total g Hok) as [h ->].
    cbn [bind]. case_ifs. }
  pose proof (case_THREE_OF_A_KIND_total g M m Hok Hd).
  pose proof (case_STRAIGHT_total g M m Hok Hd).
  pose proof (case_FLUSH_total g M m 0 Hok Hd).
  pose proof (case_FULL_HOUSE_total g M m 0 0 Hok Hd).
  pose proof (case_FOUR_OF_A_KIND_total g M m 0 0 Hok Hd).
  pose proof (case_STRAIGHT_FLUSH_total g M m 0 0 Hok).
  case_ifs.
Qed.

(** Four different ranks among five cards leave at most one pair. *)
Lemma changes_delete (hr : list Z) (k : nat) :
  length hr = HAND_SIZE -> NoDup (delete k hr) ->
  (3 <= changes hr)%nat.
Proof.
  intros (a & b & c & d & e & ->)%length_5.
  destruct k as [|[|[|[|[|k]]]]]; cbn [delete list_delete];
    intros Hnd;
    repeat match goal with
      | H : NoDup (_ :: _) |- _ => apply NoDup_cons in H as [? H]
      | H : _ ∉ _ :: _ |- _ => apply not_elem_of_cons in H as [? H]
      end;
    cbn [changes]; split_ranks; lia.
Qed.

Lemma safe_baseline_cascade (g : globals) (H : list (Z * ascii)) (i : nat) :
  globals_ok g -> H ≡ₚ copy_cards g -> safe_baseline g ->
  cascade_in_bounds H i (pokerHandID g).
Proof.
  intros Hok HH Hsafe g1 k Hid (Hok1 & _ & Hc1 & _) Hs1 (_ & Hk & Hfix).
  assert (Hlen : length (pokerHandID g1) = DIGITS_IN_POKER_HAND_ID).
  { rewrite Hid. apply Hok. }
  destruct Hsafe as [(M & HM & Hlow)|Hnd].
  - apply (isBetterHand_low_baseline g1 M); try done.
    + rewrite <- (cards_ranks g1 Hok1). apply Forall_fmap.
      eapply Forall_impl; [exact Hc1|]. intros c [Hc _]. simpl. lia.
    + by rewrite Hid.
  - apply isBetterHand_deep; [done..|].
    apply four_ranks_in_bounds; [done|].
    apply (changes_delete _ k); [apply Hok1|].
    rewrite <- (cards_ranks g1 Hok1), <- list_fmap_delete, Hfix.
    rewrite list_fmap_delete. eapply sublist_NoDup; [|apply sublist_delete].
    rewrite HH. unfold copy_cards. rewrite fst_zip; [done|].
    destruct Hok as (_ & -> & -> & _). done.
Qed.

Lemma rd_card_of_draws (r1 r2 : nat) :
  rd SUIT_LIST (r2 mod SUIT_COUNT) = Ok (card_of_draws r1 r2).2.
Proof.
  unfold card_of_draws, rd. cbn [snd].
  pose proof (Nat.mod_upper_bound r2 SUIT_COUNT ltac:(done)) as Hlt.
  destruct (r2 mod SUIT_COUNT)%nat as [|[|[|[|?]]]];
    [done..|unfold SUIT_COUNT in Hlt; lia].
Qed.

Lemma enough_draws_perm (cs cs' : list (Z * ascii)) (draws : list nat)
    (n : nat) :
  cs ≡ₚ cs' -> enough_draws cs draws n = enough_draws cs' draws n.
Proof.
  intros Hp. revert n.
  cut (forall n,
    enough_draws cs draws n = enough_draws cs' draws n /\
    forall r1, enough_draws cs (r1 :: draws) n
               = enough_draws cs' (r1 :: draws) n).
  { intros H n. apply H. }
  induction draws as [|r2 draws IH]; intros n.
  - by destruct n.
  - split; [apply IH|]. intros r1. destruct n as [|n]; [done|].
    cbn [enough_draws].
    rewrite (bool_decide_ext (card_of_draws r1 r2 ∈ cs)
               (card_of_draws r1 r2 ∈ cs')) by (by rewrite Hp).
    destruct (bool_decide _); apply IH.
Qed.

(** The do-while loop draws again while the card is in the original
    hand, and ends at the first card outside it. *)
Lemma getProbabilities_draw_total (H : list (Z * ascii)) (i : nat)
    (tempRank : Z) (tempSuit : ascii) (draws : list nat) (g : globals)
    (k n : nat) :
  valid_cards H -> H !! i = Some (tempRank, tempSuit) ->
  trial_inv H i g k ->
  enough_draws H draws (S n) = true ->
  exists g1 randRank randSuit rest,
    getProbabilities_draw draws g k tempRank tempSuit
    = Ok (g1, randRank, randSuit, rest) /\
    enough_draws H rest n = true.
Proof.
  intros Hv Ht. revert g.
  cut (forall g,
    (trial_inv H i g k -> enough_draws H draws (S n) = true ->
     exists g1 randRank randSuit rest,
       getProbabilities_draw draws g k tempRank tempSuit
       = Ok (g1, randRank, randSuit, rest) /\
       enough_draws H rest n = true) /\
    (forall r1,
     trial_inv H i g k -> enough_draws H (r1 :: draws) (S n) = true ->
     exists g1 randRank randSuit rest,
       getProbabilities_draw (r1 :: draws) g k tempRank tempSuit
       = Ok (g1, randRank, randSuit, rest) /\
       enough_draws H rest n = true)).
  { intros Hcut g. apply Hcut. }
  pose proof Hv as (_ & HcH & HndH).
  induction draws as [|r2 draws IH]; intros g.
  - split; [done | intros r1; done].
  - split; [apply IH|].
    intros r1 (Hok & Hk & Hfix) Hsupply. cbn [enough_draws] in Hsupply.
    pose proof (rd_card_of_draws r1 r2) as Hs.
    set (s := (card_of_draws r1 r2).2) in *.
    set (r := Z.of_nat (r1 mod RANK_COUNT) + 2).
    assert (Ec : card_of_draws r1 r2 = (r, s)) by done.
    rewrite Ec in Hsupply.
    assert (HfixC : Forall is_card (delete k (cards g))).
    { rewrite Hfix. by apply Forall_delete. }
    assert (HfixN : NoDup (delete k (cards g))).
    { rewrite Hfix. eapply sublist_NoDup; [done | apply sublist_delete]. }
    case_bool_decide as Hin.
    + cbn [getProbabilities_draw]. rewrite Hs. cbn [bind].
      pose proof Hok as [Hlr Hls].
      rewrite !wr_lt by lia. cbn [bind]. cbv zeta. fold r.
      set (g1 := set_hand g (<[k:=r]> (handRank g)) (<[k:=s]> (handSuit g))).
      assert (Hok1 : hand_ok g1).
      { split; simpl; by rewrite length_insert. }
      assert (Hc1 : cards g1 = <[k:=(r, s)]> (cards g))
        by apply cards_set_hand_insert.
      assert (Hlk : cards g1 !! k = Some (r, s)).
      { rewrite Hc1. apply list_lookup_insert_eq.
        rewrite cards_length by done. done. }
      assert (Hd1 : delete k (cards g1) = delete k (cards g)).
      { rewrite Hc1. apply delete_insert_same. }
      assert (Hall1 : Forall is_card (cards g1)).
      { rewrite (delete_Permutation _ _ _ Hlk), Hd1. constructor; [|done].
        by apply (drawn_card r1 r2). }
      destruct (repeatCards_spec g1 Hok1 Hall1) as (b & -> & Hb).
      cbn [bind].
      assert (b || (r =? tempRank) && Ascii.eqb s tempSuit = true) as ->.
      { rewrite (delete_Permutation _ _ _ Ht), <- Hfix in Hin.
        apply elem_of_cons in Hin as [[= -> ->]|Hin].
        - rewrite Z.eqb_refl, Ascii.eqb_refl. apply orb_true_r.
        - destruct b; [done|]. exfalso.
          assert (Hnd : NoDup (cards g1)) by (by apply Hb).
          rewrite (delete_Permutation _ _ _ Hlk), Hd1 in Hnd.
          by apply NoDup_cons in Hnd as [? _]. }
      destruct (IH g1) as [IH1 _]. apply IH1; [|done].
      split_and!; [done..|]. by rewrite Hd1.
    + destruct (getProbabilities_draw_accepts g k tempRank tempSuit r1 r2
                  draws s Hok Hk HfixC Hs) as (g1 & E); [|done|..].
      * intros Hin'. apply Hin. fold r in Hin'.
        rewrite Hfix in Hin'.
        eapply elem_of_submseteq; [exact Hin'|].
        apply sublist_submseteq, sublist_delete.
      * fold r. intros Heq. apply Hin. rewrite Heq.
        by eapply list_elem_of_lookup_2.
      * by exists g1, r, s, draws.
Qed.

(** With enough cards outside the original hand in the supply of draws
    the trials end. *)
Lemma getProbabilities_trials_total (H : list (Z * ascii)) (i n m : nat)
    (id : list Z) (g : globals) (k : nat) (tempRank : Z) (tempSuit : ascii)
    (num : Z) (draws : list nat) :
  valid_cards H -> H !! i = Some (tempRank, tempSuit) ->
  cascade_in_bounds H i id -> pokerHandID g = id ->
  trial_inv H i g k ->
  enough_draws H draws (n + m) = true ->
  exists g' k' num' draws',
    getProbabilities_trials n g k tempRank tempSuit num draws
    = Ok (g', k', num', draws') /\
    enough_draws H draws' m = true.
Proof.
  intros Hv Ht Hsafe. revert g k num draws.
  induction n as [|n IH]; intros g k num draws Hid Hinv Hsupply.
  - simpl. eauto 6.
  - cbn [Nat.add] in Hsupply.
    destruct (getProbabilities_draw_total H i tempRank tempSuit draws g k
                (n + m) Hv Ht Hinv Hsupply)
      as (g1 & rr & rs & rest & Edraw & Hrest).
    pose proof Hinv as (Hok & Hk & Hfix).
    pose proof Hv as (_ & HcH & HndH).
    cbn [getProbabilities_trials]. rewrite Edraw. cbn [bind].
    destruct (getProbabilities_draw_avoids H i _ _ _ _ _ _ _ _ _ Hv Ht Hinv
                Edraw) as (Hnew & _ & _ & Hok1 & Hlk1 & Hfix1).
    pose proof (getProbabilities_draw_spec _ _ _ _ _ _ _ _ _ Hok Hk
                  ltac:(rewrite Hfix; by apply Forall_delete) Edraw)
      as (_ & _ & Hcard & _ & Hnd1 & _).
    pose proof (getProbabilities_draw_frame _ _ _ _ _ _ _ _ _ Edraw)
      as (_ & _ & _ & Hid1).
    destruct (sortHand_spec g1 Hok1)
      as (g2 & -> & Hok2 & Hp2 & (_ & _ & _ & Hid2) & Hsorted2).
    cbn [bind].
    destruct (getProbabilities_locate_spec g2 rr rs HAND_SIZE 0 k Hok2)
      as (j & -> & Hj & Hlk2); [done | |].
    { rewrite drop_0, Hp2. by eapply list_elem_of_lookup_2. }
    cbn [bind].
    assert (Hinv2 : trial_inv H i g2 j).
    { split_and!; [done..|].
      apply (Permutation_cons_inv (a := (rr, rs))).
      rewrite <- (delete_Permutation _ _ _ Hlk2), Hp2.
      rewrite (delete_Permutation _ _ _ Hlk1). by rewrite Hfix1. }
    destruct (Hsafe g2 j) as (b & ->); [congruence | | done | done |].
    { split; [done|]. split_and!.
      - by apply cards_length.
      - rewrite Hp2, (delete_Permutation _ _ _ Hlk1), Hfix1.
        constructor; [done | by apply Forall_delete].
      - by rewrite Hp2. }
    cbn [bind]. apply IH; [congruence | done | done].
Qed.

Lemma safe_baseline_same (g g' : globals) :
  same_baseline g g' -> safe_baseline g -> safe_baseline g'.
Proof. intros (Eid & Ecr & _). unfold safe_baseline. by rewrite Eid, Ecr. Qed.

Lemma getProbabilities_position_total (sn : Z) (g : globals) (i m : nat)
    (draws : list nat) :
  globals_ok g -> valid_cards (copy_cards g) -> (i < HAND_SIZE)%nat ->
  safe_baseline g ->
  enough_draws (copy_cards g) draws (Z.to_nat sn + m) = true ->
  exists g' draws',
    getProbabilities_position sn g i draws = Ok (g', draws') /\
    enough_draws (copy_cards g) draws' m = true.
Proof.
  intros Hok Hv Hi Hsafe Hsupply.
  destruct (getProbabilities_enter_total g i Hok Hi) as (g2 & tr & ts & E).
  pose proof E as Henter.
  apply getProbabilities_enter_spec in Henter
    as (Hok2 & _ & Hp & Ht & Hrest2); [|done..].
  assert (Hv2 : valid_cards (cards g2)).
  { eapply valid_cards_perm; [symmetry|]; eauto. }
  assert (Hinv2 : trial_inv (cards g2) i g2 i) by (by split_and!).
  destruct (getProbabilities_trials_total (cards g2) i (Z.to_nat sn) m
              (pokerHandID g) g2 i tr ts 0 draws)
    as (gN & k & num & dN & E0 & HdN); try done.
  { by apply safe_baseline_cascade. }
  { apply Hrest2. }
  { by rewrite (enough_draws_perm _ _ _ _ Hp). }
  pose proof (getProbabilities_trials_frame _ _ _ _ _ _ _ _ _ _ _ E0)
    as HrestN.
  destruct (getProbabilities_trials_inv _ _ _ _ _ _ _ _ _ _ _ _ _
              Hv2 Ht Hinv2 E0) as [(HokN & _ & _) _].
  pose proof (same_rest_trans _ _ _ Hrest2 HrestN)
    as (Ecr & Ecs & Epr & Eid).
  assert (HokN' : globals_ok gN).
  { destruct Hok as (_ & ? & ? & ? & ?).
    split_and!; [done | congruence..]. }
  assert (Hcopy : copy_cards gN = copy_cards g).
  { unfold copy_cards. by rewrite Ecr, Ecs. }
  destruct (getProbabilities_store_spec sn gN tr ts num HAND_SIZE 0 HokN')
    as (j & Hj & Hlk & Estore); [done | |].
  { rewrite drop_0, Hcopy, <- Hp. by eapply list_elem_of_lookup_2. }
  unfold getProbabilities_position. rewrite E. cbn [bind]. cbn beta iota.
  rewrite E0. cbn [bind]. cbn beta iota. rewrite Estore. cbn [bind].
  rewrite (enough_draws_perm _ _ _ _ Hp) in HdN. eauto.
Qed.

Lemma getProbabilities_for_total (sn : Z) (n i m : nat) (g : globals)
    (draws : list nat) :
  globals_ok g -> valid_cards (copy_cards g) -> (i + n <= HAND_SIZE)%nat ->
  safe_baseline g ->
  enough_draws (copy_cards g) draws (n * Z.to_nat sn + m) = true ->
  exists g' draws',
    getProbabilities_for sn n i g draws = Ok (g', draws') /\
    enough_draws (copy_cards g) draws' m = true.
Proof.
  revert i g draws.
  induction n as [|n IH]; intros i g draws Hok Hv Hin Hsafe Hsupply.
  - simpl. eauto.
  - cbn [Nat.mul] in Hsupply. rewrite <- Nat.add_assoc in Hsupply.
    destruct (getProbabilities_position_total sn g i
                (n * Z.to_nat sn + m) draws)
      as (g1 & d1 & E & Hd1); [done | done | lia | done | done |].
    pose proof E as Hpos.
    apply getProbabilities_position_spec in Hpos
      as (_ & _ & _ & _ & _ & _ & _ & _ & _ & _ & _ & _ & _ & _ & Hok1 & Hb1);
      [|done | done | lia].
    assert (Hcopy1 : copy_cards g1 = copy_cards g).
    { destruct Hb1 as (_ & Ecr & Ecs). unfold copy_cards.
      by rewrite Ecr, Ecs. }
    destruct (IH (S i) g1 d1) as (g' & d' & E' & Hd');
      [done | by rewrite Hcopy1 | lia | by eapply safe_baseline_same
      | by rewrite Hcopy1 |].
    exists g', d'. cbn [getProbabilities_for]. rewrite E. cbn [bind].
    cbn beta iota. by rewrite <- Hcopy1.
Qed.

(** The estimation returns when the baseline is safe and the supply of
    draws holds [sampleNumber] cards outside the original hand for every
    position. *)
Lemma getProbabilities_total (sn : Z) (g : globals) (draws : list nat) :
  globals_ok g -> valid_cards (copy_cards g) -> safe_baseline g ->
  enough_draws (copy_cards g) draws (HAND_SIZE * Z.to_nat sn) = true ->
  exists g' draws', getProbabilities sn g draws = Ok (g', draws').
Proof.
  intros Hok Hv Hsafe Hsupply.
  destruct (getProbabilities_for_total sn HAND_SIZE 0 0 g draws)
    as (g' & d' & E & _); try done.
  - by rewrite Nat.add_0_r.
  - by exists g', d'.
Qed.

(** What [getProbabilities] does when it returns.  It returns when the
    baseline is a high card or one pair, or the original hand has five
    different ranks, and the supply of draws holds [sampleNumber] cards
    outside the original hand for each of the five positions.  When it
    returns, five values are in [probabilities], and the rounds of the
    outer loop have written the cells [js]: every original position
    once.  The round [i] that writes the cell [j] is the round that
    discards the card [c] at position [j] of the original hand, and the
    value in the cell is the [float] that the program computes from the
    number of improvements counted by the trials of this round. *)
Lemma getProbabilities_positions (sampleNumber : Z)
    (g : globals) (draws : list nat) :
  0 < sampleNumber ->
  globals_ok g -> valid_cards (copy_cards g) ->
  (safe_baseline g ->
   enough_draws (copy_cards g) draws (HAND_SIZE * Z.to_nat sampleNumber)
   = true ->
   exists g' draws', getProbabilities sampleNumber g draws = Ok (g', draws'))
  /\
  forall g' draws',
    getProbabilities sampleNumber g draws = Ok (g', draws') ->
    length (probabilities g') = HAND_SIZE /\
    exists js,
      js ≡ₚ seq 0 HAND_SIZE /\
      forall i j, js !! i = Some j ->
        exists c numOfImprovements gi di g2 gN swapIndex dN,
          copy_cards g !! j = Some c /\
          getProbabilities_for sampleNumber i 0 g draws = Ok (gi, di) /\
          getProbabilities_enter gi i = Ok (g2, c.1, c.2) /\
          getProbabilities_trials (Z.to_nat sampleNumber) g2 i c.1 c.2 0 di
          = Ok (gN, swapIndex, numOfImprovements, dN) /\
          0 <= numOfImprovements <= sampleNumber /\
          probabilities g' !! j
          = Some (percentage numOfImprovements sampleNumber).
Proof.
  intros Hsn Hok Hv. split; [by apply getProbabilities_total|].
  intros g' draws' H. unfold getProbabilities in H.
  apply getProbabilities_for_spec in H
    as (Hok' & _ & js & Hlen & Hnd & Hjs & _); [|done | done | lia].
  split; [by destruct Hok' as (_ & _ & _ & ? & _)|].
  exists js. split.
  - apply submseteq_length_Permutation.
    + apply NoDup_submseteq; [done|].
      intros j (t & Ht)%list_elem_of_lookup_1.
      apply elem_of_seq. destruct (Hjs t j Ht) as [? _]. lia.
    + rewrite length_seq. lia.
  - intros i j Hij.
    destruct (Hjs i j Hij) as (_ & c & num & gi & di & g2 & gN & k & dN &
                               _ & Hc & Hfor & He & Htr & Hnum & Hp).
    rewrite Z2Nat.id in Hnum by lia.
    exists c, num, gi, di, g2, gN, k, dN.
    split_and!; try done; try lia.
Qed.

(** C4, at the hand 5C 2C 5D 3D 5H: the hand is valid and [main] gives
    it the key of three fives, but [getProbabilities] produces no
    percentage at all when the first card drawn is the 5S.  The first
    trial puts the 5S in the place of the 2C; [isBetterHand] then calls
    [isFullHouse] on the ranks 3, 5, 5, 5, 5, which reads
    [handRank[5]].  This holds for every number of trials and whatever
    the later draws are. *)
Theorem C4_getProbabilities_leaves_the_hand :
  let typed := initial [5; 2; 5; 3; 5] ["C"; "C"; "D"; "D"; "H"]%char in
  valid_hand typed /\
  exists g,
    (let* g1 := main_copy_for HAND_SIZE 0 typed in
     let* g2 := sortHand g1 in
     getHandRank g2) = Ok g /\
    globals_ok g /\
    copy_cards g = cards typed /\
    pokerHandID g = [THREE_OF_A_KIND; 5; 0] /\
    forall (sampleNumber : Z) (draws : list nat),
      0 < sampleNumber ->
      getProbabilities sampleNumber g (3 :: 3 :: draws)%nat
      = Fault (OutOfBounds 5).
Proof.
  cbv zeta. split; [concrete_valid_hand|].
  eexists. split; [vm_compute; reflexivity|].
  split; [by repeat split|]. split; [reflexivity|]. split; [reflexivity|].
  intros sampleNumber draws Hsn.
  unfold getProbabilities, HAND_SIZE.
  cbn [getProbabilities_for]. unfold getProbabilities_position.
  replace (Z.to_nat sampleNumber) with (S (Z.to_nat (sampleNumber - 1)))
    by lia.
  vm_compute. reflexivity.
Qed.

(** The value stored for one improvement in three trials is the [float]
    8738134 * 2^-18 = 33.333335876..., not 100/3. *)
Example percentage_is_rounded :
  percentage 1 3 = S754_finite false 8738134 (-18).
Proof. reflexivity. Qed.

(** ** main *)

(** The copy that [main] makes before it sorts is the hand as it was
    read, in the order of the input. *)
Lemma main_copy_for_spec (g : globals) :
  globals_ok g ->
  main_copy_for HAND_SIZE 0 g = Ok (set_copy g (handRank g) (handSuit g)).
Proof.
  intros (H & Hcr & Hcs & _). explicit_hand g. simpl in Hcr, Hcs.
  apply length_5 in Hcr as (? & ? & ? & ? & ? & ->).
  apply length_5 in Hcs as (? & ? & ? & ? & ? & ->).
  reflexivity.
Qed.

(** * Further properties of the program *)

(** Closed side conditions of concrete lines: the cards are well typed,
    a decidable fact holds by computation. *)
Ltac typed_cards :=
  repeat (apply Forall_cons; split;
          [split; apply (bool_decide_unpack _); vm_compute; exact I|]);
  apply Forall_nil_2.

Ltac by_computation := apply (bool_decide_unpack _); vm_compute; exact I.

(** ** sortHand *)

(** One step of the sort leaves the hand alone or swaps two neighbours
    that are out of order. *)
Lemma sortHand_step_swap (g g' : globals) (sw sw' : bool) (i : nat) :
  hand_ok g -> (i < 4)%nat ->
  sortHand_step g sw i = Ok (g', sw') ->
  hand_ok g' /\
  (g' = g \/
   exists l1 a b l2,
     cards g = l1 ++ a :: b :: l2 /\ cards g' = l1 ++ b :: a :: l2 /\
     b.1 < a.1).
Proof.
  intros H Hi. explicit_hand g. unfold sortHand_step, cards.
  destruct i as [|[|[|[|i]]]]; [| | | |lia]; cbn;
    rewrite Z.gtb_ltb;
    match goal with
    | |- context [?y <? ?x] => destruct (Z.ltb_spec y x) as [Hlt|Hge]
    end; intros [= <- <-]; (split; [done|]); auto; right.
  - by exists [], (a, s), (b, s0), [(c, s1); (d, s2); (e, s3)].
  - by exists [(a, s)], (b, s0), (c, s1), [(d, s2); (e, s3)].
  - by exists [(a, s); (b, s0)], (c, s1), (d, s2), [(e, s3)].
  - by exists [(a, s); (b, s0); (c, s1)], (d, s2), (e, s3), [].
Qed.

Section sort_relation.
Variable R : relation (list (Z * ascii)).
Hypothesis R_refl : forall l, R l l.
Hypothesis R_trans : forall l1 l2 l3, R l1 l2 -> R l2 l3 -> R l1 l3.
Hypothesis R_swap :
  forall l1 a b l2, b.1 < a.1 -> R (l1 ++ a :: b :: l2) (l1 ++ b :: a :: l2).

Lemma sortHand_for_relation (n i : nat) (g g' : globals) (sw sw' : bool) :
  hand_ok g -> (i + n <= 4)%nat ->
  sortHand_for n i g sw = Ok (g', sw') ->
  hand_ok g' /\ R (cards g) (cards g').
Proof.
  revert i g sw. induction n as [|n IH]; intros i g sw Hok Hi H;
    cbn [sortHand_for] in H.
  - injection H as <- <-. auto.
  - step_bind H. destruct a as [g1 sw1]. cbn beta iota in H.
    apply sortHand_step_swap in E as [Hok1 Hstep]; [|done|lia].
    apply IH in H as [Hok' HR]; [|done|lia]. split; [done|].
    destruct Hstep as [->|(l1 & a & b & l2 & -> & E1 & Hlt)]; [done|].
    eapply R_trans; [|exact HR]. rewrite E1. by apply R_swap.
Qed.

Lemma sortHand_while_relation (fuel : nat) (g g' : globals) :
  hand_ok g -> sortHand_while fuel g = Ok g' -> R (cards g) (cards g').
Proof.
  revert g. induction fuel as [|fuel IH]; intros g Hok H; [done|].
  cbn [sortHand_while] in H. step_bind H. destruct a as [g1 sw].
  cbn beta iota in H.
  apply sortHand_for_relation in E as [Hok1 HR]; [|done|simpl; lia].
  destruct sw.
  - eapply R_trans; [exact HR|]. by apply IH.
  - by injection H as <-.
Qed.
End sort_relation.

(** X1: [sortHand] returns on every hand of five cells; the hand it leaves
    is in ascending order of rank and holds the same cards (each suit moved
    with its rank), and the copy of the hand, the percentages and
    [pokerHandID] are as before. *)
Theorem sortHand_sorts (g : globals) :
  hand_ok g ->
  exists g',
    sortHand g = Ok g' /\
    hand_ok g' /\ sorted_hand g' /\ cards g' ≡ₚ cards g /\ same_rest g g'.
Proof.
  intros Hok.
  destruct (sortHand_spec g Hok) as (g' & E & Hok' & Hp & Hrest & Hs).
  by exists g'.
Qed.

Lemma sortHand_sorts_witness :
  exists g',
    sortHand (initial [14; 2; 9; 2; 5] ["H"; "C"; "D"; "S"; "H"]%char)
    = Ok g' /\
    hand_ok g' /\ sorted_hand g' /\
    cards g' ≡ₚ cards (initial [14; 2; 9; 2; 5] ["H"; "C"; "D"; "S"; "H"]%char)
    /\ same_rest (initial [14; 2; 9; 2; 5] ["H"; "C"; "D"; "S"; "H"]%char) g'.
Proof. apply sortHand_sorts. by split. Defined.

(** X2: [sortHand] is stable: the cards of one rank are in the same order
    after the sort as before. *)
Theorem sortHand_stable (g g' : globals) (r : Z) :
  hand_ok g -> sortHand g = Ok g' ->
  filter (fun c => c.1 = r) (cards g') = filter (fun c => c.1 = r) (cards g).
Proof.
  intros Hok H. revert r.
  apply (sortHand_while_relation
           (fun l l' => forall r, filter (fun c : Z * ascii => c.1 = r) l'
                                  = filter (fun c => c.1 = r) l))
    with (fuel := sort_fuel); try done.
  - intros l1 l2 l3 H1 H2 r. by rewrite H2, H1.
  - intros l1 a b l2 Hlt r. rewrite !filter_app, !filter_cons.
    repeat case_decide; try done; lia.
Qed.

Lemma sortHand_stable_witness :
  filter (fun c => c.1 = 2)
    (cards (initial [2; 2; 5; 9; 14] ["C"; "S"; "H"; "D"; "H"]%char))
  = filter (fun c => c.1 = 2)
      (cards (initial [14; 2; 9; 2; 5] ["H"; "C"; "D"; "S"; "H"]%char)).
Proof.
  apply sortHand_stable; [by split | vm_compute; reflexivity].
Defined.

(** X3: On a hand already in ascending order of rank [sortHand] changes no
    global. *)
Theorem sortHand_sorted_hand (g : globals) :
  hand_ok g -> sorted_hand g -> sortHand g = Ok g.
Proof.
  intros H. explicit_hand g. unfold sorted_hand. cbn [handRank].
  intros (? & ? & ? & ?)%sorted_5.
  unfold sortHand, sort_fuel. simpl Nat.mul. cbn [sortHand_while].
  unfold sortHand_for, sortHand_step. cbn.
  repeat (rewrite Z.gtb_ltb;
          match goal with
          | |- context [?x <? ?y] => destruct (Z.ltb_spec x y); [lia|]; cbn
          end).
  done.
Qed.

Lemma sortHand_sorted_hand_witness :
  sortHand (initial [2; 2; 5; 9; 14] ["C"; "S"; "H"; "D"; "H"]%char)
  = Ok (initial [2; 2; 5; 9; 14] ["C"; "S"; "H"; "D"; "H"]%char).
Proof.
  apply sortHand_sorted_hand; [by split | repeat constructor; lia].
Defined.

(** ** The detectors and the key *)

(** X11: [isFullHouse] stays inside the hand exactly on the hands with at
    least three runs of equal neighbours, and returns 0 on them.  On every
    hand with fewer runs, every sorted full house among them, it reads
    [handRank[5]]: no full house is found without a read outside the
    array. *)
Theorem isFullHouse_bounds (g : globals) :
  hand_ok g ->
  ((3 <= length (runs (handRank g)))%nat /\ isFullHouse g = Ok 0) \/
  ((length (runs (handRank g)) < 3)%nat /\
   isFullHouse g = Fault (OutOfBounds 5)).
Proof.
  intros H. explicit_hand g. unfold isFullHouse. cbn [handRank].
  destruct (Z.eqb_spec a b), (Z.eqb_spec b c), (Z.eqb_spec c d),
    (Z.eqb_spec d e); subst; cbn; rewrite ?Z.eqb_refl; cbn;
    repeat match goal with
      | H : ?x <> ?y |- _ =>
          apply Z.eqb_neq in H; rewrite ?H; cbn
      end; (left; split; [lia | reflexivity]) || (right; split; [lia | reflexivity]).
Qed.

Lemma isFullHouse_bounds_witness :
  ((3 <= length (runs [2; 2; 2; 3; 3]%Z))%nat /\
   isFullHouse (initial [2; 2; 2; 3; 3] ["C"; "D"; "H"; "C"; "D"]%char) = Ok 0)
  \/
  ((length (runs [2; 2; 2; 3; 3]%Z) < 3)%nat /\
   isFullHouse (initial [2; 2; 2; 3; 3] ["C"; "D"; "H"; "C"; "D"]%char)
   = Fault (OutOfBounds 5)).
Proof.
  apply (isFullHouse_bounds
           (initial [2; 2; 2; 3; 3] ["C"; "D"; "H"; "C"; "D"]%char)).
  by split.
Defined.

(** Split on the four comparisons of neighbours that the detectors
    make, and run the detectors. *)
Ltac neighbours a b c d e :=
  destruct (Z.eqb_spec a b), (Z.eqb_spec b c), (Z.eqb_spec c d),
    (Z.eqb_spec d e); subst; cbn; rewrite ?Z.eqb_refl; cbn;
  repeat match goal with
    | H : ?x <> ?y |- _ =>
        let E := fresh "E" in
        pose proof H as E; apply Z.eqb_neq in E; rewrite ?E; cbn;
        revert H
    end; intros.

(** X8: For [x] of 2, 3 or 4 and ranks other than 0: when [x] equal ranks
    stand side by side, [isXOfAKind] returns a rank that is in the hand at
    least [x] times; when they do not, it returns 0 or reads [handRank[5]]. *)
Theorem isXOfAKind_finds (g : globals) (x : Z) :
  hand_ok g -> Forall (fun r => r <> 0) (handRank g) ->
  x = 2 \/ x = 3 \/ x = 4 ->
  (x <= Z.of_nat (longest_run (handRank g)) ->
   exists v, isXOfAKind g x = Ok v /\ v <> 0 /\
             x <= Z.of_nat (count_occ Z.eq_dec (handRank g) v)) /\
  (Z.of_nat (longest_run (handRank g)) < x ->
   isXOfAKind g x = Ok 0 \/ isXOfAKind g x = Fault (OutOfBounds 5)).
Proof.
  intros H. explicit_hand g. unfold isXOfAKind, longest_run.
  cbn [handRank]. intros Hf Hx. sorted_ranks.
  destruct Hx as [->|[->| ->]]; neighbours a b c d e;
    (split; intros Hl; try lia);
    first [ by left | by right
          | eexists; split; [reflexivity|]; split; [done|];
            repeat destruct (Z.eq_dec _ _); try done; lia ].
Qed.

Lemma isXOfAKind_finds_witness :
  exists v,
    isXOfAKind (initial [2; 5; 5; 5; 14] ["C"; "S"; "H"; "D"; "H"]%char) 3
    = Ok v /\ v <> 0 /\
    3 <= Z.of_nat (count_occ Z.eq_dec [2; 5; 5; 5; 14] v).
Proof.
  apply (isXOfAKind_finds
           (initial [2; 5; 5; 5; 14] ["C"; "S"; "H"; "D"; "H"]%char) 3);
    [by split | repeat constructor; lia | auto | vm_compute; discriminate].
Defined.

(** Evaluate the tests on counters, and split on the tests on ranks. *)
Ltac evaluate_test t :=
  let b := eval vm_compute in t in
  lazymatch b with
  | true => change t with true
  | false => change t with false
  end.

Ltac split_tests :=
  repeat (cbn;
    match goal with
    | |- context [?x <=? ?y] => evaluate_test (x <=? y)
    | |- context [?x =? ?y] =>
        first [ evaluate_test (x =? y)
              | destruct (Z.eqb_spec x y); try lia ]
    | |- context [?x <? ?y] =>
        first [ evaluate_test (x <? y)
              | destruct (Z.ltb_spec x y); try lia ]
    | |- context [?x >? ?y] => rewrite (Z.gtb_ltb x y)
    end);
  cbn.

Ltac decide_runs := apply (bool_decide_unpack _); vm_compute; exact I.

(** X9: [isXOfAKind] returns on every hand for 2 of a kind.  For 3 of a kind
    it reads [handRank[5]] exactly on the hands whose equal neighbours form
    two pairs, and for 4 of a kind exactly on those that form a pair and a
    triple. *)
Theorem isXOfAKind_bounds (g : globals) :
  hand_ok g ->
  (exists v, isXOfAKind g 2 = Ok v) /\
  ((runs (handRank g) ∈ two_pair_runs) /\
     isXOfAKind g 3 = Fault (OutOfBounds 5) \/
   (runs (handRank g) ∉ two_pair_runs) /\ exists v, isXOfAKind g 3 = Ok v) /\
  ((runs (handRank g) ∈ full_house_runs) /\
     isXOfAKind g 4 = Fault (OutOfBounds 5) \/
   (runs (handRank g) ∉ full_house_runs) /\ exists v, isXOfAKind g 4 = Ok v).
Proof.
  intros H. explicit_hand g. unfold isXOfAKind. cbn [handRank].
  neighbours a b c d e;
    (split; [eauto|]);
    (split;
     [ first [ left; split; [decide_runs | reflexivity]
             | right; split; [decide_runs | eauto] ].. ]).
Qed.

Lemma isXOfAKind_bounds_witness :
  (exists v,
     isXOfAKind (initial [2; 7; 7; 14; 14] ["C"; "H"; "S"; "C"; "D"]%char) 2
     = Ok v) /\
  ((runs [2; 7; 7; 14; 14] ∈ two_pair_runs) /\
     isXOfAKind (initial [2; 7; 7; 14; 14] ["C"; "H"; "S"; "C"; "D"]%char) 3
     = Fault (OutOfBounds 5) \/
   (runs [2; 7; 7; 14; 14] ∉ two_pair_runs) /\
   exists v,
     isXOfAKind (initial [2; 7; 7; 14; 14] ["C"; "H"; "S"; "C"; "D"]%char) 3
     = Ok v) /\
  ((runs [2; 7; 7; 14; 14] ∈ full_house_runs) /\
     isXOfAKind (initial [2; 7; 7; 14; 14] ["C"; "H"; "S"; "C"; "D"]%char) 4
     = Fault (OutOfBounds 5) \/
   (runs [2; 7; 7; 14; 14] ∉ full_house_runs) /\
   exists v,
     isXOfAKind (initial [2; 7; 7; 14; 14] ["C"; "H"; "S"; "C"; "D"]%char) 4
     = Ok v).
Proof.
  apply (isXOfAKind_bounds
           (initial [2; 7; 7; 14; 14] ["C"; "H"; "S"; "C"; "D"]%char)).
  by split.
Defined.

(** X10: With ranks other than 0, [isTwoPair] returns, and its value is not
    0 exactly when equal neighbours form two pairs and a single card; on a
    sorted hand the value is then the higher of the two paired ranks. *)
Theorem isTwoPair_finds (g : globals) :
  hand_ok g -> Forall (fun r => r <> 0) (handRank g) ->
  exists v,
    isTwoPair g = Ok v /\
    (v <> 0 <-> runs (handRank g) ∈ two_pair_runs) /\
    (sorted_hand g -> v <> 0 ->
     count_occ Z.eq_dec (handRank g) v = 2%nat /\
     forall r, count_occ Z.eq_dec (handRank g) r = 2%nat -> r <= v).
Proof.
  intros H. explicit_hand g. unfold isTwoPair, sorted_hand.
  cbn [handRank]. intros Hf. sorted_ranks.
  neighbours a b c d e; eexists; (split; [reflexivity|]);
    (split; [split; [try done; intros _; decide_runs
                    | try done; intros Hin; exfalso; revert Hin; decide_runs]|]);
    try done;
    intros Hs _; apply sorted_5 in Hs as (? & ? & ? & ?);
    (split; [|intros r]);
    repeat destruct (Z.eq_dec _ _); try done; try lia.
Qed.

Lemma isTwoPair_finds_witness :
  exists v,
    isTwoPair (initial [2; 7; 7; 14; 14] ["C"; "H"; "S"; "C"; "D"]%char)
    = Ok v /\
    (v <> 0 <-> runs [2; 7; 7; 14; 14] ∈ two_pair_runs) /\
    (sorted_hand (initial [2; 7; 7; 14; 14] ["C"; "H"; "S"; "C"; "D"]%char) ->
     v <> 0 ->
     count_occ Z.eq_dec [2; 7; 7; 14; 14] v = 2%nat /\
     forall r, count_occ Z.eq_dec [2; 7; 7; 14; 14] r = 2%nat -> r <= v).
Proof.
  apply (isTwoPair_finds
           (initial [2; 7; 7; 14; 14] ["C"; "H"; "S"; "C"; "D"]%char));
    [by split | repeat constructor; lia].
Defined.

Lemma pairs_no_flush (g : globals) (a b c d e : Z) :
  hand_ok g -> NoDup (cards g) -> handRank g = [a; b; c; d; e] ->
  a = b \/ b = c \/ c = d \/ d = e ->
  isFlush g = Ok 0.
Proof.
  intros Hok Hnd Hr Heq.
  destruct (isFlush_cases g Hok) as [[Hone _]|[_ E]]; [exfalso|done].
  explicit_hand g. cbn [handRank handSuit] in *. injection Hr as -> -> -> -> ->.
  assert (s0 = s /\ s1 = s /\ s2 = s /\ s3 = s) as (-> & -> & -> & ->).
  { split_and!; apply Hone; repeat constructor. }
  apply NoDup_5 in Hnd. destruct Hnd as (? & ? & ? & ? & ? & ? & ? & ? & ? & ?).
  destruct Heq as [->|[->|[->| ->]]]; done.
Qed.

(** The hand and the key cell by cell, [isFlush] replaced by its value
    [f], the other detectors unfolded. *)
Ltac unfold_getHandRank g Hok Hid f Ef :=
  unfold getHandRank, set_id;
  let x := fresh "x" in
  let y := fresh "y" in
  let z := fresh "z" in
  apply length_3 in Hid as (x & y & z & Hid); rewrite Hid;
  unfold LOW_PAIR_DIGIT;
  cbn [wr length Nat.ltb Nat.leb bind insert list_insert];
  change (isFlush (set_pokerHandID g [x; y; 0])) with (isFlush g);
  rewrite Ef;
  let H := fresh "H" in
  pose proof Hok as H; explicit_hand g; simpl in Hid; subst;
  unfold isStraight, isXOfAKind, isFullHouse, isTwoPair, highCard,
    set_major_minor, set_id;
  cbn [handRank set_pokerHandID].

Lemma valid_hand_ranks (g : globals) (a b c d e : Z) :
  valid_hand g -> handRank g = [a; b; c; d; e] ->
  2 <= a /\ 2 <= b /\ 2 <= c /\ 2 <= d /\ 2 <= e.
Proof.
  intros [Hok (_ & Hc & _)] Hr.
  assert (Hf : Forall (fun r => 2 <= r) (handRank g)).
  { rewrite <- (cards_ranks g Hok). apply Forall_fmap.
    eapply Forall_impl; [exact Hc|]. by intros ? [[? ?] _]. }
  rewrite Hr in Hf.
  repeat match goal with
    | H : Forall _ (_ :: _) |- _ => apply Forall_cons in H as [? H]
    end.
  done.
Qed.

Lemma getHandRank_returns_spec (g : globals) :
  valid_hand g -> length (pokerHandID g) = DIGITS_IN_POKER_HAND_ID ->
  ((runs (handRank g) ∈ two_pair_runs ++ full_house_runs) /\
   getHandRank g = Fault (OutOfBounds 5)) \/
  ((runs (handRank g) ∉ two_pair_runs ++ full_house_runs) /\
   exists M m,
     getHandRank g = Ok (set_pokerHandID g [M; m; 0]) /\
     M ∈ categories_in_bounds).
Proof.
  intros Hv Hid. pose proof Hv as [Hok (_ & _ & Hnd)].
  pose proof (pairs_no_flush g) as Hpairs.
  pose proof (valid_hand_ranks g) as Hge.
  destruct (isFlush_total g Hok) as [f Ef].
  unfold_getHandRank g Hok Hid f Ef.
  specialize (Hpairs a b c d e Hok Hnd eq_refl).
  specialize (Hge a b c d e Hv eq_refl).
  clear Hv Hnd Hok.
  neighbours a b c d e;
    try (rewrite Hpairs in Ef by tauto; injection Ef as <-);
    clear Hpairs; split_tests;
    first [ left; split; [decide_runs | reflexivity]
          | right; split;
            [decide_runs | eexists _, _; split; [reflexivity | decide_runs]] ].
Qed.

(** X12: On five different cards of the deck [getHandRank] stays inside the
    hand exactly when the equal neighbours form neither two pairs nor a
    pair and a triple; it then stores a key [[M; m; 0]] with [M] one of
    HIGH_CARD, ONE_PAIR, THREE_OF_A_KIND, STRAIGHT, FLUSH, FOUR_OF_A_KIND
    and STRAIGHT_FLUSH.  On two pairs and on a pair and a triple it reads
    [handRank[5]]: a run that stores TWO_PAIR or FULL_HOUSE for such a
    hand has read outside the array before. *)
Theorem getHandRank_bounds (g : globals) :
  valid_hand g -> length (pokerHandID g) = DIGITS_IN_POKER_HAND_ID ->
  ((runs (handRank g) ∈ two_pair_runs ++ full_house_runs) /\
   getHandRank g = Fault (OutOfBounds 5)) \/
  ((runs (handRank g) ∉ two_pair_runs ++ full_house_runs) /\
   exists M m,
     getHandRank g = Ok (set_pokerHandID g [M; m; 0]) /\
     M ∈ categories_in_bounds).
Proof. exact (getHandRank_returns_spec g). Qed.

Lemma getHandRank_bounds_witness :
  ((runs [2; 2; 5; 9; 14] ∈ two_pair_runs ++ full_house_runs) /\
   getHandRank (initial [2; 2; 5; 9; 14] ["C"; "S"; "H"; "D"; "H"]%char)
   = Fault (OutOfBounds 5)) \/
  ((runs [2; 2; 5; 9; 14] ∉ two_pair_runs ++ full_house_runs) /\
   exists M m,
     getHandRank (initial [2; 2; 5; 9; 14] ["C"; "S"; "H"; "D"; "H"]%char)
     = Ok (set_pokerHandID
             (initial [2; 2; 5; 9; 14] ["C"; "S"; "H"; "D"; "H"]%char)
             [M; m; 0]) /\
     M ∈ categories_in_bounds).
Proof.
  apply (getHandRank_bounds
           (initial [2; 2; 5; 9; 14] ["C"; "S"; "H"; "D"; "H"]%char));
    [concrete_valid_hand | reflexivity].
Defined.

(** The keys of the hands with one rank more than once. *)
Lemma getHandRank_of_a_kind_spec (g : globals) (r : Z) :
  valid_hand g -> sorted_hand g ->
  length (pokerHandID g) = DIGITS_IN_POKER_HAND_ID ->
  (count_occ Z.eq_dec (handRank g) r = 4%nat ->
   getHandRank g = Ok (set_pokerHandID g [FOUR_OF_A_KIND; r; 0])) /\
  (count_occ Z.eq_dec (handRank g) r = 3%nat ->
   length (runs (handRank g)) = 3%nat ->
   getHandRank g = Ok (set_pokerHandID g [THREE_OF_A_KIND; r; 0])) /\
  (count_occ Z.eq_dec (handRank g) r = 2%nat ->
   length (runs (handRank g)) = 4%nat ->
   getHandRank g = Ok (set_pokerHandID g [ONE_PAIR; r; 0])).
Proof.
  intros Hv Hs Hid. pose proof Hv as [Hok (_ & _ & Hnd)].
  pose proof (pairs_no_flush g) as Hpairs.
  pose proof (valid_hand_ranks g) as Hge.
  destruct (isFlush_total g Hok) as [f Ef].
  unfold sorted_hand in Hs.
  unfold_getHandRank g Hok Hid f Ef.
  specialize (Hpairs a b c d e Hok Hnd eq_refl).
  specialize (Hge a b c d e Hv eq_refl).
  apply sorted_5 in Hs.
  clear Hv Hnd Hok.
  neighbours a b c d e;
    try (rewrite Hpairs in Ef by tauto; injection Ef as <-);
    clear Hpairs;
    (split_and!; intros Hcount; try (intros Hruns; try done);
     revert Hcount; repeat destruct (Z.eq_dec _ _); try done; try lia;
     intros _; subst; split_tests; reflexivity).
Qed.

(** X13: The keys of the sorted hands with one rank more than once: four
    cards of rank [r] give [[FOUR_OF_A_KIND; r; 0]], three of rank [r]
    beside two other ranks give [[THREE_OF_A_KIND; r; 0]], and one pair of
    rank [r] beside three other ranks gives [[ONE_PAIR; r; 0]]. *)
Theorem getHandRank_of_a_kind (g : globals) (r : Z) :
  valid_hand g -> sorted_hand g ->
  length (pokerHandID g) = DIGITS_IN_POKER_HAND_ID ->
  (count_occ Z.eq_dec (handRank g) r = 4%nat ->
   getHandRank g = Ok (set_pokerHandID g [FOUR_OF_A_KIND; r; 0])) /\
  (count_occ Z.eq_dec (handRank g) r = 3%nat ->
   length (runs (handRank g)) = 3%nat ->
   getHandRank g = Ok (set_pokerHandID g [THREE_OF_A_KIND; r; 0])) /\
  (count_occ Z.eq_dec (handRank g) r = 2%nat ->
   length (runs (handRank g)) = 4%nat ->
   getHandRank g = Ok (set_pokerHandID g [ONE_PAIR; r; 0])).
Proof. exact (getHandRank_of_a_kind_spec g r). Qed.

Lemma getHandRank_of_a_kind_witness :
  getHandRank (initial [2; 2; 5; 9; 14] ["C"; "S"; "H"; "D"; "H"]%char)
  = Ok (set_pokerHandID
          (initial [2; 2; 5; 9; 14] ["C"; "S"; "H"; "D"; "H"]%char)
          [ONE_PAIR; 2; 0]).
Proof.
  apply (getHandRank_of_a_kind
           (initial [2; 2; 5; 9; 14] ["C"; "S"; "H"; "D"; "H"]%char) 2);
    [concrete_valid_hand | repeat constructor; lia | reflexivity
    | reflexivity | reflexivity].
Defined.

(** X14: The keys of the straights: five cards whose ranks go up by one, or
    2, 3, 4, 5, 14, get [[STRAIGHT_FLUSH; top; 0]] when they are of one suit
    and [[STRAIGHT; top; 0]] when they are not; [top] is the last rank, and
    5 for the run from the ace. *)
Theorem getHandRank_straight (g : globals) (r top : Z) :
  valid_hand g -> length (pokerHandID g) = DIGITS_IN_POKER_HAND_ID ->
  handRank g = [r; r + 1; r + 2; r + 3; r + 4] /\ top = r + 4 \/
  handRank g = specialStraight /\ top = 5 ->
  (one_suit (handSuit g) ->
   getHandRank g = Ok (set_pokerHandID g [STRAIGHT_FLUSH; top; 0])) /\
  (~ one_suit (handSuit g) ->
   getHandRank g = Ok (set_pokerHandID g [STRAIGHT; top; 0])).
Proof.
  intros Hv Hid Hr. pose proof Hv as [Hok _].
  pose proof (valid_hand_ranks g) as Hge.
  assert (Hf : (one_suit (handSuit g) ->
                exists f, isFlush g = Ok f /\ f <> 0) /\
               (~ one_suit (handSuit g) -> isFlush g = Ok 0)).
  { destruct (isFlush_cases g Hok) as [[Hone E]|[Hnot E]];
      (split; [|done]); [|done].
    intros _. eexists; split; [done|].
    destruct Hr as [[Hr _]|[Hr _]]; rewrite Hr in *.
    - specialize (Hge _ _ _ _ _ Hv eq_refl). unfold rank_sum. simpl. lia.
    - done. }
  destruct Hf as [Hf1 Hf0].
  split; intros Hone.
  - destruct (Hf1 Hone) as (f & Ef & Hf). clear Hf1 Hf0 Hone.
    unfold_getHandRank g Hok Hid f Ef.
    specialize (Hge a b c d e Hv eq_refl). clear Hv Hok.
    destruct Hr as [[[= -> -> -> -> ->] ->]|[[= -> -> -> -> ->] ->]];
      split_tests; reflexivity.
  - specialize (Hf0 Hone). clear Hf1 Hone.
    unfold_getHandRank g Hok Hid f Hf0.
    specialize (Hge a b c d e Hv eq_refl). clear Hv Hok.
    destruct Hr as [[[= -> -> -> -> ->] ->]|[[= -> -> -> -> ->] ->]];
      split_tests; reflexivity.
Qed.

Lemma getHandRank_straight_witness :
  (one_suit ["H"; "C"; "D"; "S"; "H"]%char ->
   getHandRank (initial [5; 6; 7; 8; 9] ["H"; "C"; "D"; "S"; "H"]%char)
   = Ok (set_pokerHandID
           (initial [5; 6; 7; 8; 9] ["H"; "C"; "D"; "S"; "H"]%char)
           [STRAIGHT_FLUSH; 9; 0])) /\
  (~ one_suit ["H"; "C"; "D"; "S"; "H"]%char ->
   getHandRank (initial [5; 6; 7; 8; 9] ["H"; "C"; "D"; "S"; "H"]%char)
   = Ok (set_pokerHandID
           (initial [5; 6; 7; 8; 9] ["H"; "C"; "D"; "S"; "H"]%char)
           [STRAIGHT; 9; 0])).
Proof.
  apply (getHandRank_straight
           (initial [5; 6; 7; 8; 9] ["H"; "C"; "D"; "S"; "H"]%char) 5 9);
    [concrete_valid_hand | reflexivity | left; split; reflexivity].
Defined.

(** X15: The key of a hand with nothing in it: five cards of strictly
    ascending ranks, not of one suit and no straight, get [[HIGH_CARD; e;
    0]] with [e] the highest rank. *)
Theorem getHandRank_high_card (g : globals) (a b c d e : Z) :
  valid_hand g -> length (pokerHandID g) = DIGITS_IN_POKER_HAND_ID ->
  handRank g = [a; b; c; d; e] ->
  a < b -> b < c -> c < d -> d < e ->
  ~ one_suit (handSuit g) -> ~ forms_straight (handRank g) ->
  getHandRank g = Ok (set_pokerHandID g [HIGH_CARD; e; 0]).
Proof.
  intros Hv Hid Hr Hab Hbc Hcd Hde Hone Hstr. pose proof Hv as [Hok _].
  destruct (no_equal_ranks g a b c d e Hr) as (E4 & Efh & E3 & Etp & E2);
    try done.
  pose proof (valid_hand_ranks g a b c d e Hv Hr) as Hge.
  apply length_3 in Hid as (x & y & z & Hid).
  eapply ladder_getHandRank; [|exact Hid].
  apply ladder_high_card; try done.
  - apply isStraight_no_straight; try done.
    unfold sorted_hand. rewrite Hr. repeat constructor; lia.
  - by destruct (isFlush_cases g Hok) as [[? _]|[_ ?]].
  - explicit_hand g. simpl in Hr. injection Hr as -> -> -> -> ->.
    unfold highCard. split_tests. reflexivity.
Qed.

Lemma getHandRank_high_card_witness :
  getHandRank (initial [2; 3; 5; 6; 9] ["H"; "H"; "H"; "H"; "C"]%char)
  = Ok (set_pokerHandID
          (initial [2; 3; 5; 6; 9] ["H"; "H"; "H"; "H"; "C"]%char)
          [HIGH_CARD; 9; 0]).
Proof.
  apply (getHandRank_high_card
           (initial [2; 3; 5; 6; 9] ["H"; "H"; "H"; "H"; "C"]%char)
           2 3 5 6 9);
    [concrete_valid_hand | reflexivity | reflexivity | lia | lia | lia | lia
    | | ].
  - intros H.
    assert (E : "H"%char = "C"%char) by (apply H; cbn; repeat constructor).
    discriminate E.
  - assert (H2 : (2 : Z) ∈ [2; 3; 5; 6; 9]) by repeat constructor.
    assert (H9 : (9 : Z) ∈ [2; 3; 5; 6; 9]) by repeat constructor.
    intros [[r Hp] | Hp]; cbn [handRank initial] in Hp;
      rewrite Hp in H2, H9; unfold specialStraight in *;
      repeat match goal with
        | H : _ ∈ _ :: _ |- _ => apply elem_of_cons in H as [?|H]
        | H : _ ∈ [] |- _ => apply elem_of_nil in H
        end; lia.
Defined.

Lemma max_if (x y : Z) : (if x <? y then y else x) = Z.max x y.
Proof. destruct (Z.ltb_spec x y); lia. Qed.

(** X6: [highCard] returns the greatest of the five ranks, or 0 when no rank
    is above 0: the result is never negative. *)
Theorem highCard_max (g : globals) :
  hand_ok g ->
  exists h,
    highCard g = Ok h /\ 0 <= h /\
    Forall (fun r => r <= h) (handRank g) /\
    (h = 0 \/ h ∈ handRank g).
Proof.
  intros H. explicit_hand g. unfold highCard. cbn.
  rewrite !max_if. eexists. split; [reflexivity|].
  set (h := Z.max _ e).
  assert (0 <= h /\ a <= h /\ b <= h /\ c <= h /\ d <= h /\ e <= h /\
          (h = 0 \/ h = a \/ h = b \/ h = c \/ h = d \/ h = e))
    as (? & ? & ? & ? & ? & ? & Hh) by lia.
  split; [done|]. split; [by repeat constructor|].
  destruct Hh as [->|[->|[->|[->|[->| ->]]]]];
    first [ by left | right; repeat constructor ].
Qed.

Lemma highCard_max_witness :
  exists h,
    highCard (initial [14; 2; 9; 2; 5] ["H"; "C"; "D"; "S"; "H"]%char) = Ok h /\
    0 <= h /\ Forall (fun r => r <= h) [14; 2; 9; 2; 5] /\
    (h = 0 \/ h ∈ [14; 2; 9; 2; 5]).
Proof.
  apply (highCard_max (initial [14; 2; 9; 2; 5] ["H"; "C"; "D"; "S"; "H"]%char)).
  by split.
Defined.

(** X7: [isStraight] reads the ranks in the order of the array: 5 for
    exactly 2, 3, 4, 5, 14; the last rank when each rank is one more than
    the one before; 0 for every other hand. *)
Theorem isStraight_value (g : globals) :
  hand_ok g ->
  exists s,
    isStraight g = Ok s /\
    (handRank g = specialStraight /\ s = 5 \/
     (exists r, handRank g = [r; r + 1; r + 2; r + 3; r + 4] /\ s = r + 4) \/
     handRank g <> specialStraight /\
     (forall r, handRank g <> [r; r + 1; r + 2; r + 3; r + 4]) /\ s = 0).
Proof.
  intros H. explicit_hand g. unfold isStraight, specialStraight.
  cbn [handRank].
  split_tests; eexists; (split; [reflexivity|]);
    first [ left; split; [congruence | lia]
          | right; left; exists a; split; [f_equal; repeat f_equal; lia | lia]
          | right; right; split_and!;
            [ intros [= ? ? ? ? ?]; lia
            | intros r [= ? ? ? ? ?]; lia
            | reflexivity ] ].
Qed.

Lemma isStraight_value_witness :
  exists s,
    isStraight (initial [5; 6; 7; 8; 9] ["H"; "C"; "D"; "S"; "H"]%char) = Ok s /\
    ([5; 6; 7; 8; 9] = specialStraight /\ s = 5 \/
     (exists r, [5; 6; 7; 8; 9] = [r; r + 1; r + 2; r + 3; r + 4] /\ s = r + 4) \/
     [5; 6; 7; 8; 9] <> specialStraight /\
     (forall r, [5; 6; 7; 8; 9] <> [r; r + 1; r + 2; r + 3; r + 4]) /\ s = 0).
Proof.
  apply (isStraight_value
           (initial [5; 6; 7; 8; 9] ["H"; "C"; "D"; "S"; "H"]%char)).
  by split.
Defined.

(** X4: On a hand of five cells whose ranks fit a [char], [repeatCards]
    returns, and it returns FALSE exactly when no card (rank and suit) is in
    the hand twice. *)
Theorem repeatCards_detects (g : globals) :
  hand_ok g -> Forall (fun r => -128 <= r < 128) (handRank g) ->
  exists b, repeatCards g = Ok b /\ (b = false <-> NoDup (cards g)).
Proof.
  intros Hok Hr. unfold repeatCards.
  rewrite repeatCards_outer_spec by done. simpl.
  eexists; split; [done|]. apply has_repeat_NoDup.
  rewrite <- (cards_ranks g Hok) in Hr.
  by apply Forall_fmap in Hr.
Qed.

Lemma repeatCards_detects_witness :
  exists b,
    repeatCards (initial [5; 2; 5; 3; 5] ["C"; "C"; "D"; "D"; "C"]%char)
    = Ok b /\
    (b = false <->
     NoDup (cards (initial [5; 2; 5; 3; 5] ["C"; "C"; "D"; "D"; "C"]%char))).
Proof.
  apply repeatCards_detects; [by split | repeat constructor; lia].
Defined.

(** X17: When [getHandRank] gives a key to the baseline hand and to the
    current hand and [isBetterHand] returns, its answer is the strict
    lexicographic comparison of the two keys. *)
Theorem isBetterHand_agrees_with_keys (gB gC gB' gC' : globals) (r : bool) :
  length (pokerHandID gB) = DIGITS_IN_POKER_HAND_ID ->
  length (pokerHandID gC) = DIGITS_IN_POKER_HAND_ID ->
  getHandRank gB = Ok gB' -> getHandRank gC = Ok gC' ->
  isBetterHand (with_baseline gC (pokerHandID gB')) = Ok r ->
  r = key_ltb (pokerHandID gB') (pokerHandID gC').
Proof.
  intros HB HC EB EC Hr.
  apply getHandRank_ladder in EB as (M & m & l & LB & _ & ->).
  apply getHandRank_ladder in EC as (M' & m' & l' & LC & _ & ->).
  apply length_3 in HB as (? & ? & ? & HB).
  apply length_3 in HC as (? & ? & ? & HC).
  rewrite HB, HC in *. simpl in *.
  apply (isBetterHand_compares_keys gB (with_baseline gC [M; m; l])
           M m l M' m' l' []); [done | | done | done].
  by apply (ladder_read_hand gC).
Qed.

Lemma isBetterHand_agrees_with_keys_witness :
  true = key_ltb [HIGH_CARD; 9; 0] [ONE_PAIR; 2; 0].
Proof.
  apply (isBetterHand_agrees_with_keys
           (initial [2; 3; 5; 6; 9] ["H"; "H"; "H"; "H"; "C"]%char)
           (initial [2; 2; 5; 9; 14] ["C"; "S"; "H"; "D"; "H"]%char)
           (set_pokerHandID
              (initial [2; 3; 5; 6; 9] ["H"; "H"; "H"; "H"; "C"]%char)
              [HIGH_CARD; 9; 0])
           (set_pokerHandID
              (initial [2; 2; 5; 9; 14] ["C"; "S"; "H"; "D"; "H"]%char)
              [ONE_PAIR; 2; 0])
           true);
    vm_compute; reflexivity.
Defined.

(** X16: Whenever [getHandRank] returns, the category it stores is the
    highest one whose detector found something: every detector of a higher
    category returned 0, and the primary tie-break stored is the value of
    the stored category's detector. *)
Theorem getHandRank_assigns_highest (g g' : globals) :
  getHandRank g = Ok g' ->
  exists M m l rest,
    pokerHandID g' = M :: m :: l :: rest /\
    HIGH_CARD <= M <= STRAIGHT_FLUSH /\
    detector g M = Ok m /\
    (M <> HIGH_CARD -> m <> 0) /\
    forall c, M < c <= STRAIGHT_FLUSH -> detector g c = Ok 0.
Proof. apply getHandRank_highest. Qed.

Lemma getHandRank_assigns_highest_witness :
  exists M m l rest,
    [ONE_PAIR; 2; 0] = M :: m :: l :: rest /\
    HIGH_CARD <= M <= STRAIGHT_FLUSH /\
    detector (initial [2; 2; 5; 9; 14] ["C"; "S"; "H"; "D"; "H"]%char) M
    = Ok m /\
    (M <> HIGH_CARD -> m <> 0) /\
    forall c, M < c <= STRAIGHT_FLUSH ->
      detector (initial [2; 2; 5; 9; 14] ["C"; "S"; "H"; "D"; "H"]%char) c
      = Ok 0.
Proof.
  apply (getHandRank_assigns_highest
           (initial [2; 2; 5; 9; 14] ["C"; "S"; "H"; "D"; "H"]%char)
           (set_pokerHandID
              (initial [2; 2; 5; 9; 14] ["C"; "S"; "H"; "D"; "H"]%char)
              [ONE_PAIR; 2; 0])).
  vm_compute. reflexivity.
Defined.

(** ** Two pairs and full houses: no key, and no answer on a tie *)

(** C6, at two pairs and at a full house: whatever the order of the
    cards, [classify] yields no key for such a hand.  After the sort
    [getHandRank] reads [handRank[5]] in [isXOfAKind] before it gets to
    the category of the hand, so what it stores is not determined by the
    five cards. *)
Theorem C6_classify_yields_no_key (g g' : globals) :
  valid_hand g -> hand_ok g' ->
  length (pokerHandID g) = DIGITS_IN_POKER_HAND_ID ->
  length (pokerHandID g') = DIGITS_IN_POKER_HAND_ID ->
  cards g' ≡ₚ cards g ->
  runs (merge_sort Z.le (handRank g)) ∈ two_pair_runs ++ full_house_runs ->
  classify g = Fault (OutOfBounds 5) /\
  classify g' = Fault (OutOfBounds 5).
Proof.
  intros Hv Hok' Hid Hid' Hperm Hruns. pose proof Hv as [Hok Hcards].
  assert (E : classify g = Fault (OutOfBounds 5)).
  { destruct (sortHand_spec g Hok) as
      (g1 & E1 & Hok1 & Hp1 & (_ & _ & _ & Hid1) & Hs1).
    assert (Hr1 : handRank g1 = merge_sort Z.le (handRank g)).
    { apply (Sorted_unique Z.le); [done | by apply Sorted_merge_sort, _ |].
      rewrite merge_sort_Permutation.
      rewrite <- (cards_ranks g1), <- (cards_ranks g) by done.
      by apply fmap_Permutation. }
    assert (Hv1 : valid_hand g1).
    { split; [done|]. by eapply valid_cards_perm. }
    unfold classify. rewrite E1. cbn [bind].
    destruct (getHandRank_returns_spec g1 Hv1) as [[_ ->]|[Hn _]];
      [congruence | reflexivity |].
    by rewrite Hr1 in Hn. }
  split; [exact E|].
  rewrite <- E. by apply classify_permutation_invariant.
Qed.

(** The hand 14C 14D 7H 7S 2C of the specification, and the same cards
    as 2C 7H 14C 7S 14D. *)
Lemma C6_witness :
  classify (initial [14; 14; 7; 7; 2] ["C"; "D"; "H"; "S"; "C"]%char)
  = Fault (OutOfBounds 5) /\
  classify (initial [2; 7; 14; 7; 14] ["C"; "H"; "C"; "S"; "D"]%char)
  = Fault (OutOfBounds 5).
Proof.
  apply (C6_classify_yields_no_key
           (initial [14; 14; 7; 7; 2] ["C"; "D"; "H"; "S"; "C"]%char)
           (initial [2; 7; 14; 7; 14] ["C"; "H"; "C"; "S"; "D"]%char));
    [concrete_valid_hand | by split | reflexivity | reflexivity
    | by_computation | by_computation].
Defined.

(** Split on the ranks that a count of occurrences compares. *)
Ltac count_cases H :=
  cbn in H;
  repeat match type of H with
    | context [Z.eq_dec ?x ?y] => destruct (Z.eq_dec x y); try subst; try lia
    end;
  try discriminate H.

(** C7, at every exact tie of two pairs and of a full house: the
    candidate is a valid sorted hand and the baseline key is the key of
    this very hand, two pairs of [hi] and [lo], or a full house with
    three cards of rank [t].  [isBetterHand] does not answer FALSE: from
    the case of the baseline it goes on to [isXOfAKind(3)], or starts
    with [isFullHouse], and reads [handRank[5]]. *)
Theorem C7_exact_tie_leaves_the_hand (g : globals) :
  valid_hand g -> sorted_hand g ->
  (forall hi lo : Z,
     lo < hi ->
     count_occ Z.eq_dec (handRank g) hi = 2%nat ->
     count_occ Z.eq_dec (handRank g) lo = 2%nat ->
     isBetterHand (with_baseline g [TWO_PAIR; hi; lo])
     = Fault (OutOfBounds 5)) /\
  (forall t p : Z,
     count_occ Z.eq_dec (handRank g) t = 3%nat ->
     count_occ Z.eq_dec (handRank g) p = 2%nat ->
     isBetterHand (with_baseline g [FULL_HOUSE; t; 0])
     = Fault (OutOfBounds 5)).
Proof.
  intros Hv Hsorted. pose proof Hv as [Hok _].
  pose proof (valid_hand_ranks g) as Hge.
  unfold isBetterHand, with_baseline, case_TWO_PAIR, case_THREE_OF_A_KIND,
    case_FULL_HOUSE, isTwoPair, isXOfAKind, isFullHouse.
  explicit_hand g. unfold sorted_hand in Hsorted. cbn [handRank] in *.
  apply sorted_5 in Hsorted as (Hab & Hbc & Hcd & Hde).
  specialize (Hge a b c d e Hv eq_refl).
  split.
  - intros hi lo Hlt Hhi Hlo.
    destruct (Z.eqb_spec a b), (Z.eqb_spec b c), (Z.eqb_spec c d),
      (Z.eqb_spec d e); subst;
      count_cases Hhi; count_cases Hlo.
    all: split_tests; reflexivity.
  - intros t p Ht Hp.
    destruct (Z.eqb_spec a b), (Z.eqb_spec b c), (Z.eqb_spec c d),
      (Z.eqb_spec d e); subst;
      count_cases Ht; count_cases Hp.
    all: split_tests; reflexivity.
Qed.

(** The two pairs 2C 7H 7S 14C 14D against the key of two pairs of 14
    and 7, and the full house 2C 2D 2H 3C 3D against the key of a full
    house of three 2. *)
Lemma C7_witness :
  isBetterHand
    (with_baseline
       (initial [2; 7; 7; 14; 14] ["C"; "H"; "S"; "C"; "D"]%char)
       [TWO_PAIR; 14; 7])
  = Fault (OutOfBounds 5) /\
  isBetterHand
    (with_baseline
       (initial [2; 2; 2; 3; 3] ["C"; "D"; "H"; "C"; "D"]%char)
       [FULL_HOUSE; 2; 0])
  = Fault (OutOfBounds 5).
Proof.
  split.
  - refine (proj1 (C7_exact_tie_leaves_the_hand
                     (initial [2; 7; 7; 14; 14]
                        ["C"; "H"; "S"; "C"; "D"]%char) _ _) 14 7 _ _ _);
      [concrete_valid_hand | repeat constructor; lia | lia | reflexivity
      | reflexivity].
  - refine (proj2 (C7_exact_tie_leaves_the_hand
                     (initial [2; 2; 2; 3; 3]
                        ["C"; "D"; "H"; "C"; "D"]%char) _ _) 2 3 _ _);
      [concrete_valid_hand | repeat constructor; lia | reflexivity
      | reflexivity].
Defined.

(** X5: After the copy loop of [main] has saved a hand, [loadCopyHand] puts
    that hand back in place of whatever the working hand has become, and
    writes nothing else. *)
Theorem loadCopyHand_restores (g g1 g2 : globals) :
  globals_ok g -> main_copy_for HAND_SIZE 0 g = Ok g1 ->
  hand_ok g2 ->
  copyHandRank g2 = copyHandRank g1 -> copyHandSuit g2 = copyHandSuit g1 ->
  exists g3,
    loadCopyHand g2 = Ok g3 /\
    handRank g3 = handRank g /\ handSuit g3 = handSuit g /\
    same_rest g2 g3.
Proof.
  intros Hok E1 Hok2 Hcr Hcs.
  rewrite main_copy_for_spec in E1 by done. injection E1 as <-.
  simpl in Hcr, Hcs. destruct Hok as ([Hr Hs] & _).
  rewrite loadCopyHand_spec by (done || congruence).
  eexists. split; [done|]. rewrite Hcr, Hcs. by repeat split.
Qed.

Lemma loadCopyHand_restores_witness :
  exists g3,
    loadCopyHand
      (set_hand
         (set_copy (initial [14; 2; 9; 2; 5] ["H"; "C"; "D"; "S"; "H"]%char)
            [14; 2; 9; 2; 5] ["H"; "C"; "D"; "S"; "H"]%char)
         [2; 2; 5; 9; 3] ["C"; "S"; "H"; "D"; "D"]%char)
    = Ok g3 /\
    handRank g3 = [14; 2; 9; 2; 5] /\
    handSuit g3 = ["H"; "C"; "D"; "S"; "H"]%char /\
    same_rest
      (set_hand
         (set_copy (initial [14; 2; 9; 2; 5] ["H"; "C"; "D"; "S"; "H"]%char)
            [14; 2; 9; 2; 5] ["H"; "C"; "D"; "S"; "H"]%char)
         [2; 2; 5; 9; 3] ["C"; "S"; "H"; "D"; "D"]%char)
      g3.
Proof.
  apply (loadCopyHand_restores
           (initial [14; 2; 9; 2; 5] ["H"; "C"; "D"; "S"; "H"]%char)
           (set_copy (initial [14; 2; 9; 2; 5] ["H"; "C"; "D"; "S"; "H"]%char)
              [14; 2; 9; 2; 5] ["H"; "C"; "D"; "S"; "H"]%char));
    [by repeat split | reflexivity | by split | reflexivity | reflexivity].
Defined.

(** ** Reading a line *)

Lemma isRank_RANK_LIST (c : ascii) :
  c ∈ take RANK_COUNT RANK_LIST ->
  isRank c = Ok TRUE /\ rankToInt c = Returns (rank_value c) /\
  2 <= rank_value c <= 14.
Proof.
  intros H. unfold RANK_COUNT, RANK_LIST in H. cbn in H.
  repeat (apply elem_of_cons in H as [->|H]; [by vm_compute|]).
  by apply elem_of_nil in H.
Qed.

Lemma isRank_other (c : ascii) :
  c ∉ take RANK_COUNT RANK_LIST ->
  isRank c = Ok FALSE /\ rankToInt c = Undefined Uninitialised.
Proof.
  intros H.
  destruct c as [[] [] [] [] [] [] [] []];
    first [ by vm_compute
          | exfalso; apply H; vm_compute; repeat constructor ].
Qed.

Lemma isSuit_SUIT_LIST (c : ascii) :
  c ∈ take SUIT_COUNT SUIT_LIST -> isSuit c = Ok TRUE.
Proof.
  intros H. unfold SUIT_COUNT, SUIT_LIST in H. cbn in H.
  repeat (apply elem_of_cons in H as [->|H]; [by vm_compute|]).
  by apply elem_of_nil in H.
Qed.

Lemma isSuit_other (c : ascii) :
  c ∉ take SUIT_COUNT SUIT_LIST -> isSuit c = Ok FALSE.
Proof.
  intros H.
  destruct c as [[] [] [] [] [] [] [] []];
    first [ by vm_compute
          | exfalso; apply H; vm_compute; repeat constructor ].
Qed.

(** The characters of a card end no line. *)
Lemma rank_in_line (c : ascii) :
  c ∈ take RANK_COUNT RANK_LIST ->
  negb (Ascii.eqb c newline) && negb (Ascii.eqb c EOF_char) = true.
Proof.
  intros H. unfold RANK_COUNT, RANK_LIST in H. cbn in H.
  repeat (apply elem_of_cons in H as [->|H]; [by vm_compute|]).
  by apply elem_of_nil in H.
Qed.

Lemma suit_in_line (c : ascii) :
  c ∈ take SUIT_COUNT SUIT_LIST ->
  negb (Ascii.eqb c newline) && negb (Ascii.eqb c EOF_char) = true.
Proof.
  intros H. unfold SUIT_COUNT, SUIT_LIST in H. cbn in H.
  repeat (apply elem_of_cons in H as [->|H]; [by vm_compute|]).
  by apply elem_of_nil in H.
Qed.

Lemma store_cards_hand_ok (n : nat) (cs : list (ascii * ascii))
    (g : globals) :
  hand_ok g -> hand_ok (store_cards n cs g).
Proof.
  revert n g. induction cs as [|[r s] cs IH]; intros n g Hok; [done|].
  simpl. apply IH. destruct Hok. split; simpl; by rewrite length_insert.
Qed.

(** The loop reads a space and a card, stores the card and goes on. *)
Lemma readLine_while_more_cards (cs : list (ascii * ascii)) (n : nat)
    (rest : list ascii) (output : list printed) (g : globals)
    (l : readLine_locals) :
  hand_ok g -> after_cards n l -> (n + length cs <= HAND_SIZE)%nat ->
  Forall typed_card cs ->
  readLine_while (more_cards cs ++ rest) output g l
  = readLine_while rest (output ++ (Char <$> more_cards cs))
      (store_cards n cs g) (count_cards (length cs) l).
Proof.
  revert n output g l.
  induction cs as [|[r s] cs IH]; intros n output g l Hok Hl Hn Hcs.
  - simpl. rewrite app_nil_r. f_equal. destruct l. unfold count_cards.
    simpl. f_equal; lia.
  - apply Forall_cons in Hcs as [[Hr Hs] Hcs]. simpl in Hr, Hs, Hn.
    destruct Hl as (Hrc & Hsc & Hic & Hb).
    destruct (isRank_RANK_LIST r Hr) as (Er & Ev & _).
    pose proof (isSuit_SUIT_LIST s Hs) as Es.
    pose proof (rank_in_line r Hr) as Hlr.
    pose proof (suit_in_line s Hs) as Hls.
    destruct Hok as [Hlenr Hlens].
    cbn [more_cards app readLine_while].
    change (negb (Ascii.eqb " " newline) && negb (Ascii.eqb " " EOF_char))
      with true. cbv iota zeta.
    rewrite Hb. change (2 + 1 >? 3) with false. cbv iota.
    change (2 + 1 =? 1) with false. change (2 + 1 =? 2) with false.
    change (2 + 1 =? 3) with true. change (Ascii.eqb " " " ") with true.
    cbv iota. cbn [branchNum rankCount suitCount inputCount isError charCount].
    rewrite Hlr. cbv iota zeta.
    change (2 + 1 + 1 >? 3) with true. cbv iota.
    change (1 =? 1) with true. cbv iota.
    rewrite Er. cbn [lift bind_outcome]. change (TRUE =? TRUE) with true.
    cbv iota. rewrite Ev. cbn [bind_outcome].
    rewrite wr_lt by (unfold HAND_SIZE in *; lia). cbn [lift bind_outcome].
    cbn [branchNum rankCount suitCount inputCount isError charCount].
    rewrite Hls. cbv iota zeta.
    change (1 + 1 >? 3) with false. cbv iota.
    change (1 + 1 =? 1) with false. change (1 + 1 =? 2) with true.
    cbv iota. rewrite Es. cbn [lift bind_outcome].
    change (TRUE =? TRUE) with true. cbv iota.
    cbn [handSuit set_hand handRank].
    rewrite wr_lt by (unfold HAND_SIZE in *; lia). cbn [lift bind_outcome].
    cbn [branchNum rankCount suitCount inputCount isError charCount].
    rewrite (IH (S n)).
    + f_equal.
      * rewrite <- !app_assoc. done.
      * simpl. rewrite Hrc, Hsc. done.
      * unfold count_cards. simpl. f_equal; lia.
    + split; simpl; rewrite length_insert; done.
    + split_and!; simpl; lia.
    + lia.
    + done.
Qed.

Definition chars (s : string) : list ascii := list_ascii_of_string s.


Lemma store_cards_hand (cs : list (ascii * ascii)) (n : nat) (g : globals) :
  (n + length cs <= length (handRank g))%nat ->
  (n + length cs <= length (handSuit g))%nat ->
  handRank (store_cards n cs g)
  = take n (handRank g) ++ (rank_value <$> cs.*1)
    ++ drop (n + length cs) (handRank g) /\
  handSuit (store_cards n cs g)
  = take n (handSuit g) ++ cs.*2 ++ drop (n + length cs) (handSuit g) /\
  same_rest g (store_cards n cs g).
Proof.
  revert n g. induction cs as [|[r s] cs IH]; intros n g Hr Hs.
  - simpl. rewrite Nat.add_0_r, !take_drop. by repeat split.
  - simpl in Hr, Hs. cbn [store_cards].
    destruct (IH (S n) (set_hand g (<[n:=rank_value r]> (handRank g))
                          (<[n:=s]> (handSuit g)))) as (E1 & E2 & E3).
    { simpl. rewrite length_insert. lia. }
    { simpl. rewrite length_insert. lia. }
    rewrite E1, E2. cbn [handRank handSuit set_hand fmap list_fmap fst snd
      length].
    replace (S n + length cs)%nat with (n + S (length cs))%nat by lia.
    split_and!.
    + rewrite drop_insert_lt by lia.
      rewrite (take_S_r _ _ (rank_value r))
        by (apply list_lookup_insert_eq; lia).
      rewrite take_insert_ge by lia. by rewrite <- app_assoc.
    + rewrite drop_insert_lt by lia.
      rewrite (take_S_r _ _ s) by (apply list_lookup_insert_eq; lia).
      rewrite take_insert_ge by lia. by rewrite <- app_assoc.
    + destruct E3 as (? & ? & ? & ?). by repeat split.
Qed.

(** What [readLine] gives for cards typed one after the other, up to
    five of them, when the line ends after the last card. *)
Lemma readLine_cards (cs : list (ascii * ascii)) (suffix rest : list ascii)
    (c : ascii) (output : list printed) (g : globals) :
  hand_ok g -> (length cs <= HAND_SIZE)%nat -> Forall typed_card cs ->
  suffix = [] /\ c = EOF_char /\ rest = [] \/
  suffix = c :: rest /\ (c = newline \/ c = EOF_char) ->
  exists repCard,
    repeatCards (store_cards 0 cs g) = Ok repCard /\
    readLine (line_of cs ++ suffix) output g
    = Returns
        (if Ascii.eqb c EOF_char then EOF
         else if repCard then 0
         else if (length cs =? HAND_SIZE)%nat then 1 else 0,
         rest, output ++ (Char <$> line_of cs), store_cards 0 cs g).
Proof.
  intros Hok Hk Hcs Hend.
  assert (Hstop : forall out g' l,
    readLine_while suffix out g' l = Returns (c, l, rest, out, g')).
  { intros out g' l.
    destruct Hend as [(-> & -> & ->)|(-> & [->| ->])]; reflexivity. }
  pose proof (store_cards_hand_ok 0 cs g Hok) as Hok'.
  assert (exists b, repeatCards (store_cards 0 cs g) = Ok b) as [b Eb].
  { unfold repeatCards. rewrite repeatCards_outer_spec by done. eauto. }
  exists b. split; [done|]. unfold readLine.
  destruct cs as [|[r s] cs].
  - simpl line_of. cbn [app]. rewrite Hstop. cbn [bind_outcome].
    simpl in Eb. rewrite Eb. cbn [lift bind_outcome inputCount isError].
    rewrite app_nil_r. destruct (Ascii.eqb c EOF_char), b; reflexivity.
  - apply Forall_cons in Hcs as [[Hr Hs] Hcs]. simpl in Hr, Hs, Hk.
    destruct (isRank_RANK_LIST r Hr) as (Er & Ev & _).
    pose proof (isSuit_SUIT_LIST s Hs) as Es.
    pose proof (rank_in_line r Hr) as Hlr.
    pose proof (suit_in_line s Hs) as Hls.
    pose proof Hok as [Hlenr Hlens].
    cbn [line_of app readLine_while].
    rewrite Hlr. cbv iota zeta.
    cbn [branchNum rankCount suitCount inputCount isError charCount].
    change (0 + 1 >? 3) with false. cbv iota.
    change (0 + 1 =? 1) with true. cbv iota.
    rewrite Er. cbn [lift bind_outcome]. change (TRUE =? TRUE) with true.
    cbv iota. rewrite Ev. cbn [bind_outcome].
    rewrite wr_lt by (unfold HAND_SIZE in *; lia). cbn [lift bind_outcome].
    cbn [branchNum rankCount suitCount inputCount isError charCount].
    rewrite Hls. cbv iota zeta.
    change (0 + 1 + 1 >? 3) with false. cbv iota.
    change (0 + 1 + 1 =? 1) with false. change (0 + 1 + 1 =? 2) with true.
    cbv iota. rewrite Es. cbn [lift bind_outcome].
    change (TRUE =? TRUE) with true. cbv iota.
    cbn [handSuit set_hand handRank].
    rewrite wr_lt by (unfold HAND_SIZE in *; lia). cbn [lift bind_outcome].
    cbn [branchNum rankCount suitCount inputCount isError charCount].
    rewrite (readLine_while_more_cards cs 1).
    + rewrite Hstop. cbn [bind_outcome]. cbn [store_cards] in Eb.
      match goal with
      | |- context [store_cards 1 cs ?g1] =>
          change g1 with (set_hand g (<[0%nat:=rank_value r]> (handRank g))
                            (<[0%nat:=s]> (handSuit g)))
      end.
      rewrite Eb. cbn [lift bind_outcome count_cards inputCount isError].
      rewrite <- !app_assoc. cbn [app fmap list_fmap length].
      replace (0 + 1 + Z.of_nat (length cs) =? Z.of_nat HAND_SIZE)
        with (S (length cs) =? HAND_SIZE)%nat.
      * destruct (Ascii.eqb c EOF_char), b, (S (length cs) =? HAND_SIZE)%nat;
          reflexivity.
      * destruct (Nat.eqb_spec (S (length cs)) HAND_SIZE);
          symmetry; [apply Z.eqb_eq | apply Z.eqb_neq]; lia.
    + split; simpl; rewrite length_insert; done.
    + by split_and!.
    + simpl. lia.
    + done.
Qed.

Lemma rank_value_inj (r r' : ascii) :
  r ∈ take RANK_COUNT RANK_LIST -> r' ∈ take RANK_COUNT RANK_LIST ->
  rank_value r = rank_value r' -> r = r'.
Proof.
  intros H H'. unfold RANK_COUNT, RANK_LIST in H, H'. cbn in H, H'.
  repeat (apply elem_of_cons in H as [->|H]);
    try (by apply elem_of_nil in H);
    repeat (apply elem_of_cons in H' as [->|H']);
    try (by apply elem_of_nil in H');
    vm_compute; congruence.
Qed.

Lemma card_value_inj (c c' : ascii * ascii) :
  typed_card c -> typed_card c' -> card_value c = card_value c' -> c = c'.
Proof.
  destruct c as [r s], c' as [r' s']. intros [Hr _] [Hr' _] [= E ->].
  f_equal. by apply rank_value_inj.
Qed.

Lemma typed_card_is_card (c : ascii * ascii) :
  typed_card c -> is_card (card_value c).
Proof.
  intros [Hr Hs]. split; [|done]. by apply isRank_RANK_LIST.
Qed.

Lemma zip_card_value (cs : list (ascii * ascii)) :
  zip (rank_value <$> cs.*1) cs.*2 = card_value <$> cs.
Proof.
  induction cs as [|[r s] cs IH]; [done|]. csimpl. by rewrite IH.
Qed.

Lemma store_cards_five (cs : list (ascii * ascii)) (g : globals) :
  hand_ok g -> length cs = HAND_SIZE ->
  cards (store_cards 0 cs g) = card_value <$> cs /\
  same_rest g (store_cards 0 cs g).
Proof.
  intros [Hr Hs] Hk.
  destruct (store_cards_hand cs 0 g) as (E1 & E2 & E3); [lia..|].
  split; [|done]. unfold cards. rewrite E1, E2. simpl.
  rewrite !drop_ge, !app_nil_r by lia. apply zip_card_value.
Qed.

Lemma typed_cards_valid (cs : list (ascii * ascii)) :
  length cs = HAND_SIZE -> Forall typed_card cs -> NoDup cs ->
  valid_cards (card_value <$> cs).
Proof.
  intros Hk Hcs Hnd. split_and!.
  - by rewrite length_fmap.
  - apply Forall_fmap. eapply Forall_impl; [done|].
    apply typed_card_is_card.
  - apply NoDup_fmap_2_strong; [|done].
    intros c c' Hc Hc'. rewrite Forall_forall in Hcs.
    apply card_value_inj; by apply Hcs.
Qed.

(** A line of five different cards, ended by a newline, is read into the
    hand in the order of the line; [readLine] returns 1. *)
Lemma readLine_good_line_spec (cs : list (ascii * ascii)) (rest : list ascii)
    (output : list printed) (g : globals) :
  hand_ok g -> length cs = HAND_SIZE -> Forall typed_card cs -> NoDup cs ->
  exists g',
    readLine (line_of cs ++ newline :: rest) output g
    = Returns (1, rest, output ++ (Char <$> line_of cs), g') /\
    cards g' = card_value <$> cs /\ valid_hand g' /\ same_rest g g'.
Proof.
  intros Hok Hk Hcs Hnd.
  destruct (readLine_cards cs (newline :: rest) rest newline output g)
    as (b & Eb & E); [done | lia | done | right; auto |].
  destruct (store_cards_five cs g Hok Hk) as [Ec Erest].
  pose proof (store_cards_hand_ok 0 cs g Hok) as Hok'.
  pose proof (typed_cards_valid cs Hk Hcs Hnd) as Hv.
  rewrite <- Ec in Hv.
  destruct (repeatCards_spec _ Hok' (proj1 (proj2 Hv))) as (b' & Eb' & Hb).
  rewrite Eb in Eb'. injection Eb' as <-.
  assert (b = false) as -> by (apply Hb, Hv).
  exists (store_cards 0 cs g). rewrite E, Hk. by split_and!.
Qed.

(** X21: A line of five different cards, one space between them, ended by a
    newline: [readLine] returns 1, echoes the line, leaves the input after
    the newline, and stores the five cards in the order of the line; the
    hand is a valid hand, and nothing but the hand is written. *)
Theorem readLine_good_line (cs : list (ascii * ascii)) (rest : list ascii)
    (output : list printed) (g : globals) :
  hand_ok g -> length cs = HAND_SIZE -> Forall typed_card cs -> NoDup cs ->
  exists g',
    readLine (line_of cs ++ newline :: rest) output g
    = Returns (1, rest, output ++ (Char <$> line_of cs), g') /\
    cards g' = card_value <$> cs /\ valid_hand g' /\ same_rest g g'.
Proof. exact (readLine_good_line_spec cs rest output g). Qed.

(** The line [2H 3H 9C 5H 6H]. *)
Lemma readLine_good_line_witness :
  exists g',
    readLine
      (line_of [("2", "H"); ("3", "H"); ("9", "C"); ("5", "H"); ("6", "H")]%char
       ++ newline :: [])
      []
      (initial [0; 0; 0; 0; 0] ["000"; "000"; "000"; "000"; "000"]%char)
    = Returns
        (1, [],
         [] ++ (Char <$> line_of [("2", "H"); ("3", "H"); ("9", "C");
                                  ("5", "H"); ("6", "H")]%char),
         g') /\
    cards g'
    = card_value <$> [("2", "H"); ("3", "H"); ("9", "C"); ("5", "H");
                      ("6", "H")]%char /\
    valid_hand g' /\
    same_rest
      (initial [0; 0; 0; 0; 0] ["000"; "000"; "000"; "000"; "000"]%char) g'.
Proof.
  apply (readLine_good_line
           [("2", "H"); ("3", "H"); ("9", "C"); ("5", "H"); ("6", "H")]%char
           [] []
           (initial [0; 0; 0; 0; 0] ["000"; "000"; "000"; "000"; "000"]%char));
    [by split | reflexivity | typed_cards | by_computation].
Defined.

(** Fewer than five cards on the line, or a card twice: [readLine]
    returns 0.  The cards read are in the first cells of the hand. *)
Lemma readLine_rejects_spec (cs : list (ascii * ascii)) (rest : list ascii)
    (output : list printed) (g : globals) :
  hand_ok g -> (length cs <= HAND_SIZE)%nat -> Forall typed_card cs ->
  (length cs < HAND_SIZE)%nat \/ ~ NoDup cs ->
  exists g',
    readLine (line_of cs ++ newline :: rest) output g
    = Returns (0, rest, output ++ (Char <$> line_of cs), g') /\
    handRank g' = (rank_value <$> cs.*1) ++ drop (length cs) (handRank g) /\
    handSuit g' = cs.*2 ++ drop (length cs) (handSuit g) /\
    same_rest g g'.
Proof.
  intros Hok Hk Hcs Hbad.
  destruct (readLine_cards cs (newline :: rest) rest newline output g)
    as (b & Eb & E); [done | lia | done | right; auto |].
  pose proof Hok as [Hr Hs].
  destruct (store_cards_hand cs 0 g) as (E1 & E2 & E3); [lia..|].
  exists (store_cards 0 cs g). split_and!; try done.
  rewrite E. do 4 f_equal. change (Ascii.eqb newline EOF_char) with false.
  cbv iota. destruct b; [done|].
  destruct (Nat.eqb_spec (length cs) HAND_SIZE) as [Hfive|]; [|done].
  exfalso. destruct Hbad as [?|Hdup]; [lia|]. apply Hdup.
  destruct (store_cards_five cs g Hok Hfive) as [Ec _].
  pose proof (store_cards_hand_ok 0 cs g Hok) as Hok'.
  destruct (repeatCards_spec (store_cards 0 cs g) Hok') as (b' & Eb' & Hb).
  { rewrite Ec. apply Forall_fmap. eapply Forall_impl; [done|].
    apply typed_card_is_card. }
  rewrite Eb in Eb'. injection Eb' as <-.
  eapply NoDup_fmap_1. rewrite <- Ec. by apply Hb.
Qed.

(** X22: Fewer than five cards on the line, or a card twice: [readLine]
    reads to the newline and returns 0.  The cards read are in the first
    cells of the hand, the other cells are as before. *)
Theorem readLine_rejects (cs : list (ascii * ascii)) (rest : list ascii)
    (output : list printed) (g : globals) :
  hand_ok g -> (length cs <= HAND_SIZE)%nat -> Forall typed_card cs ->
  (length cs < HAND_SIZE)%nat \/ ~ NoDup cs ->
  exists g',
    readLine (line_of cs ++ newline :: rest) output g
    = Returns (0, rest, output ++ (Char <$> line_of cs), g') /\
    handRank g' = (rank_value <$> cs.*1) ++ drop (length cs) (handRank g) /\
    handSuit g' = cs.*2 ++ drop (length cs) (handSuit g) /\
    same_rest g g'.
Proof. exact (readLine_rejects_spec cs rest output g). Qed.

(** The line [2H 3H 2H 5H 6H] names a card twice. *)
Lemma readLine_rejects_witness :
  exists g',
    readLine
      (line_of [("2", "H"); ("3", "H"); ("2", "H"); ("5", "H"); ("6", "H")]%char
       ++ newline :: [])
      []
      (initial [0; 0; 0; 0; 0] ["000"; "000"; "000"; "000"; "000"]%char)
    = Returns
        (0, [],
         [] ++ (Char <$> line_of [("2", "H"); ("3", "H"); ("2", "H");
                                  ("5", "H"); ("6", "H")]%char),
         g') /\
    handRank g'
    = (rank_value <$> [("2", "H"); ("3", "H"); ("2", "H"); ("5", "H");
                       ("6", "H")]%char.*1)
      ++ drop 5 [0; 0; 0; 0; 0] /\
    handSuit g'
    = [("2", "H"); ("3", "H"); ("2", "H"); ("5", "H"); ("6", "H")]%char.*2
      ++ drop 5 ["000"; "000"; "000"; "000"; "000"]%char /\
    same_rest
      (initial [0; 0; 0; 0; 0] ["000"; "000"; "000"; "000"; "000"]%char) g'.
Proof.
  apply (readLine_rejects
           [("2", "H"); ("3", "H"); ("2", "H"); ("5", "H"); ("6", "H")]%char
           [] []
           (initial [0; 0; 0; 0; 0] ["000"; "000"; "000"; "000"; "000"]%char));
    [by split | reflexivity | typed_cards | right].
  intros H. apply (bool_decide_pack _) in H. vm_compute in H. exact H.
Defined.

(** When the input ends before the newline, or the byte 255 comes where
    the newline should, [readLine] returns [EOF], whatever the line
    holds. *)
Lemma readLine_no_newline_spec (cs : list (ascii * ascii)) (suffix : list ascii)
    (output : list printed) (g : globals) :
  hand_ok g -> (length cs <= HAND_SIZE)%nat -> Forall typed_card cs ->
  suffix = [] \/ (exists rest, suffix = EOF_char :: rest) ->
  exists g',
    readLine (line_of cs ++ suffix) output g
    = Returns (EOF, tail suffix, output ++ (Char <$> line_of cs), g') /\
    handRank g' = (rank_value <$> cs.*1) ++ drop (length cs) (handRank g) /\
    handSuit g' = cs.*2 ++ drop (length cs) (handSuit g) /\
    same_rest g g'.
Proof.
  intros Hok Hk Hcs Hend.
  destruct (readLine_cards cs suffix (tail suffix) EOF_char output g)
    as (b & Eb & E); [done | lia | done | |].
  { destruct Hend as [->|[rest ->]]; [left | right]; auto. }
  pose proof Hok as [Hr Hs].
  destruct (store_cards_hand cs 0 g) as (E1 & E2 & E3); [lia..|].
  exists (store_cards 0 cs g). by rewrite E.
Qed.

(** X23: When the input ends before the newline, or the byte 255 comes where
    the newline should, [readLine] returns [EOF], whatever the line holds. *)
Theorem readLine_no_newline (cs : list (ascii * ascii)) (suffix : list ascii)
    (output : list printed) (g : globals) :
  hand_ok g -> (length cs <= HAND_SIZE)%nat -> Forall typed_card cs ->
  suffix = [] \/ (exists rest, suffix = EOF_char :: rest) ->
  exists g',
    readLine (line_of cs ++ suffix) output g
    = Returns (EOF, tail suffix, output ++ (Char <$> line_of cs), g') /\
    handRank g' = (rank_value <$> cs.*1) ++ drop (length cs) (handRank g) /\
    handSuit g' = cs.*2 ++ drop (length cs) (handSuit g) /\
    same_rest g g'.
Proof. exact (readLine_no_newline_spec cs suffix output g). Qed.

(** The input ends after [2H 3H]. *)
Lemma readLine_no_newline_witness :
  exists g',
    readLine (line_of [("2", "H"); ("3", "H")]%char ++ []) []
      (initial [0; 0; 0; 0; 0] ["000"; "000"; "000"; "000"; "000"]%char)
    = Returns
        (EOF, tail [],
         [] ++ (Char <$> line_of [("2", "H"); ("3", "H")]%char), g') /\
    handRank g'
    = (rank_value <$> [("2", "H"); ("3", "H")]%char.*1)
      ++ drop 2 [0; 0; 0; 0; 0] /\
    handSuit g'
    = [("2", "H"); ("3", "H")]%char.*2
      ++ drop 2 ["000"; "000"; "000"; "000"; "000"]%char /\
    same_rest
      (initial [0; 0; 0; 0; 0] ["000"; "000"; "000"; "000"; "000"]%char) g'.
Proof.
  apply (readLine_no_newline [("2", "H"); ("3", "H")]%char [] []
           (initial [0; 0; 0; 0; 0] ["000"; "000"; "000"; "000"; "000"]%char));
    [by split | vm_compute; lia | typed_cards | by left].
Defined.

(** The loop until five cards are stored and the line goes on. *)
Lemma readLine_while_line (r s : ascii) (cs : list (ascii * ascii))
    (rest : list ascii) (output : list printed) (g : globals) :
  hand_ok g -> (S (length cs) <= HAND_SIZE)%nat ->
  Forall typed_card ((r, s) :: cs) ->
  exists l,
    (after_cards (S (length cs)) l /\ isError l = 1) /\
    readLine_while (line_of ((r, s) :: cs) ++ rest) output g
      {| isError := 1; charCount := 0; inputCount := 0; rankCount := 0;
         suitCount := 0; branchNum := 0 |}
    = readLine_while rest (output ++ (Char <$> line_of ((r, s) :: cs)))
        (store_cards 0 ((r, s) :: cs) g) l.
Proof.
  intros Hok Hk Hcs.
  apply Forall_cons in Hcs as [[Hr Hs] Hcs]. simpl in Hr, Hs.
  destruct (isRank_RANK_LIST r Hr) as (Er & Ev & _).
  pose proof (isSuit_SUIT_LIST s Hs) as Es.
  pose proof (rank_in_line r Hr) as Hlr.
  pose proof (suit_in_line s Hs) as Hls.
  pose proof Hok as [Hlenr Hlens].
  eexists. split; [|].
  2: { cbn [line_of app readLine_while].
    rewrite Hlr. cbv iota zeta.
    cbn [branchNum rankCount suitCount inputCount isError charCount].
    change (0 + 1 >? 3) with false. cbv iota.
    change (0 + 1 =? 1) with true. cbv iota.
    rewrite Er. cbn [lift bind_outcome]. change (TRUE =? TRUE) with true.
    cbv iota. rewrite Ev. cbn [bind_outcome].
    rewrite wr_lt by (unfold HAND_SIZE in *; lia). cbn [lift bind_outcome].
    cbn [branchNum rankCount suitCount inputCount isError charCount].
    rewrite Hls. cbv iota zeta.
    change (0 + 1 + 1 >? 3) with false. cbv iota.
    change (0 + 1 + 1 =? 1) with false. change (0 + 1 + 1 =? 2) with true.
    cbv iota. rewrite Es. cbn [lift bind_outcome].
    change (TRUE =? TRUE) with true. cbv iota.
    cbn [handSuit set_hand handRank].
    rewrite wr_lt by (unfold HAND_SIZE in *; lia). cbn [lift bind_outcome].
    cbn [branchNum rankCount suitCount inputCount isError charCount].
    rewrite (readLine_while_more_cards cs 1);
      [ | split; simpl; rewrite length_insert; done
        | by split_and! | simpl; lia | done ].
    rewrite <- !app_assoc. reflexivity. }
  split; [split_and!; simpl; lia | reflexivity].
Qed.

(** X25: A sixth card on the line is stored in [handRank[5]], outside the
    array. *)
Theorem readLine_sixth_card (cs : list (ascii * ascii)) (r : ascii)
    (rest : list ascii) (output : list printed) (g : globals) :
  hand_ok g -> length cs = HAND_SIZE -> Forall typed_card cs ->
  r ∈ take RANK_COUNT RANK_LIST ->
  readLine (line_of cs ++ " "%char :: r :: rest) output g
  = Undefined (MemoryFault (OutOfBounds 5)).
Proof.
  intros Hok Hk Hcs Hr.
  destruct cs as [|[r0 s0] cs]; [done|]. simpl in Hk.
  destruct (readLine_while_line r0 s0 cs (" "%char :: r :: rest) output g)
    as (l & ((Hrc & Hsc & Hic & Hb) & _) & E); [done | lia | done |].
  unfold readLine. rewrite E. clear E.
  destruct (isRank_RANK_LIST r Hr) as (Er & Ev & _).
  pose proof (rank_in_line r Hr) as Hlr.
  pose proof (store_cards_hand_ok 0 ((r0, s0) :: cs) g Hok) as [Hlen _].
  cbn [readLine_while].
  change (negb (Ascii.eqb " " newline) && negb (Ascii.eqb " " EOF_char))
    with true. cbv iota zeta.
  rewrite Hb. change (2 + 1 >? 3) with false. cbv iota.
  change (2 + 1 =? 1) with false. change (2 + 1 =? 2) with false.
  change (2 + 1 =? 3) with true. change (Ascii.eqb " " " ") with true.
  cbv iota. cbn [branchNum rankCount suitCount inputCount isError charCount].
  rewrite Hlr. cbv iota zeta.
  change (2 + 1 + 1 >? 3) with true. cbv iota.
  change (1 =? 1) with true. cbv iota.
  rewrite Er. cbn [lift bind_outcome]. change (TRUE =? TRUE) with true.
  cbv iota. rewrite Ev. cbn [bind_outcome].
  rewrite Hrc. unfold wr. rewrite Hlen.
  replace (S (length cs)) with 5%nat by (unfold HAND_SIZE in *; lia).
  reflexivity.
Qed.

(** The line [2H 3H 9C 5H 6H 7] goes on after the fifth card. *)
Lemma readLine_sixth_card_witness :
  readLine
    (line_of [("2", "H"); ("3", "H"); ("9", "C"); ("5", "H"); ("6", "H")]%char
     ++ " "%char :: "7"%char :: [newline])
    []
    (initial [0; 0; 0; 0; 0] ["000"; "000"; "000"; "000"; "000"]%char)
  = Undefined (MemoryFault (OutOfBounds 5)).
Proof.
  apply (readLine_sixth_card
           [("2", "H"); ("3", "H"); ("9", "C"); ("5", "H"); ("6", "H")]%char
           "7"%char [newline] []
           (initial [0; 0; 0; 0; 0] ["000"; "000"; "000"; "000"; "000"]%char));
    [by split | reflexivity | typed_cards | by_computation].
Defined.

(** X26: A character that is no rank where the line should start, or no
    space after a card (and neither the newline nor the end of the input):
    [readLine] takes the value of [trashToEndOfLine], which has no [return],
    so the behaviour is undefined. *)
Theorem readLine_wrong_character (cs : list (ascii * ascii)) (c : ascii)
    (rest : list ascii) (output : list printed) (g : globals) :
  hand_ok g -> (length cs <= HAND_SIZE)%nat -> Forall typed_card cs ->
  c <> newline -> c <> EOF_char ->
  (cs = [] -> c ∉ take RANK_COUNT RANK_LIST) ->
  (cs <> [] -> c <> " "%char) ->
  readLine (line_of cs ++ c :: rest) output g = Undefined NoReturnValue.
Proof.
  intros Hok Hk Hcs Hnl Heof Hfirst Hsep.
  assert (Hin : negb (Ascii.eqb c newline) && negb (Ascii.eqb c EOF_char)
                = true).
  { apply andb_true_iff.
    split; apply negb_true_iff; by apply Ascii.eqb_neq. }
  unfold readLine. destruct cs as [|[r0 s0] cs].
  - destruct (isRank_other c (Hfirst eq_refl)) as [Er _].
    cbn [line_of app readLine_while]. rewrite Hin. cbv iota zeta.
    cbn [branchNum]. change (0 + 1 >? 3) with false. cbv iota.
    change (0 + 1 =? 1) with true. cbv iota.
    rewrite Er. cbn [lift bind_outcome]. change (FALSE =? TRUE) with false.
    cbv iota. by destruct (trashToEndOfLine _ _).
  - simpl in Hk.
    destruct (readLine_while_line r0 s0 cs (c :: rest) output g)
      as (l & ((Hrc & Hsc & Hic & Hb) & _) & E); [done | lia | done |].
    rewrite E. clear E. cbn [readLine_while]. rewrite Hin. cbv iota zeta.
    rewrite Hb. change (2 + 1 >? 3) with false. cbv iota.
    change (2 + 1 =? 1) with false. change (2 + 1 =? 2) with false.
    change (2 + 1 =? 3) with true. cbv iota.
    assert (Ascii.eqb c " " = false) as ->
      by (apply Ascii.eqb_neq; by apply Hsep).
    by destruct (trashToEndOfLine _ _).
Qed.

(** The line [2H,3H]: a comma where a space is expected. *)
Lemma readLine_wrong_character_witness :
  readLine
    (line_of [("2", "H")]%char ++ ","%char :: ["3"; "H"; newline]%char)
    []
    (initial [0; 0; 0; 0; 0] ["000"; "000"; "000"; "000"; "000"]%char)
  = Undefined NoReturnValue.
Proof.
  apply (readLine_wrong_character [("2", "H")]%char ","%char
           ["3"; "H"; newline]%char []
           (initial [0; 0; 0; 0; 0] ["000"; "000"; "000"; "000"; "000"]%char));
    [by split | vm_compute; lia | typed_cards | discriminate | discriminate
    | discriminate | discriminate].
Defined.

(** ** The loop of main *)

Lemma main_print_for_spec (g : globals) (n i : nat)
    (output : list printed) :
  (i + n = length (probabilities g))%nat ->
  main_print_for g n i output
  = Ok (output ++ (Percent <$> drop i (probabilities g))).
Proof.
  revert i output. induction n as [|n IH]; intros i output Hn; simpl.
  - rewrite drop_ge by lia. by rewrite app_nil_r.
  - destruct (rd_lt (probabilities g) i) as (p & -> & Hp); [lia|].
    cbn [bind]. rewrite IH by lia. rewrite (drop_S _ _ _ Hp).
    by rewrite <- app_assoc.
Qed.

Lemma printHandRank_spec (g : globals) (output : list printed) (major : Z) :
  pokerHandID g !! MAJOR_RANK_DIGIT = Some major ->
  printHandRank g output = Ok (output ++ category_name major).
Proof.
  intros H. unfold printHandRank. apply rd_ok in H. rewrite H. cbn [bind].
  unfold category_name.
  repeat match goal with
    | |- context [?x =? ?y] => destruct (x =? y); [done|]
    end.
  by rewrite app_nil_r.
Qed.

(** A sorted hand with at least four different ranks: no rank twice, or
    one rank twice. *)
Lemma four_ranks (hr : list Z) :
  length hr = HAND_SIZE -> Sorted Z.le hr ->
  (4 <= length (runs hr))%nat ->
  (runs hr ∉ two_pair_runs ++ full_house_runs) /\
  (NoDup hr \/
   exists r, count_occ Z.eq_dec hr r = 2%nat /\ length (runs hr) = 4%nat).
Proof.
  intros (a & b & c & d & e & ->)%length_5 (? & ? & ? & ?)%sorted_5.
  neighbours a b c d e; try (exfalso; simpl in *; lia);
    (split; [decide_runs|]).
  all: first
    [ left;
      repeat (apply NoDup_cons_2;
              [ intros Hin;
                repeat (apply elem_of_cons in Hin as [?|Hin]; [lia|]);
                by apply elem_of_nil in Hin | ]);
      apply NoDup_nil_2
    | right;
      match goal with
      | r : Z |- _ =>
          exists r; (split; [|done]);
          repeat destruct (Z.eq_dec _ _); try done; lia
      end ].
Qed.

Lemma same_rest_globals_ok (g g' : globals) :
  globals_ok g -> same_rest g g' -> hand_ok g' -> globals_ok g'.
Proof.
  intros (_ & ? & ? & ? & ?) (Ecr & Ecs & Ep & Eid) Hok.
  split_and!; [done | congruence..].
Qed.

(** A good line of a hand with at least four different ranks: [main]
    echoes the line and prints [" >>>"], the name of the category, the
    five percentages in the order of the line and a newline. *)
Lemma main_body_good_line_spec (sampleNumber : Z) (w : world)
    (cs : list (ascii * ascii)) (rest : list ascii) :
  0 < sampleNumber -> globals_ok (memory w) ->
  length cs = HAND_SIZE -> Forall typed_card cs -> NoDup cs ->
  (4 <= length (runs (merge_sort Z.le (rank_value <$> cs.*1))))%nat ->
  stdin w = line_of cs ++ newline :: rest ->
  enough_draws (card_value <$> cs) (rand w)
    (HAND_SIZE * Z.to_nat sampleNumber) = true ->
  exists g1 g' draws' major,
    cards g1 = card_value <$> cs /\
    main_good_line sampleNumber g1 (rand w) = Ok (g', draws') /\
    pokerHandID g' !! MAJOR_RANK_DIGIT = Some major /\
    copy_cards g' = card_value <$> cs /\ globals_ok g' /\
    main_body sampleNumber w
    = Returns
        (true,
         {| stdin := rest;
            stdout := stdout w ++ (Char <$> line_of cs) ++ [Text " >>>"]
                      ++ category_name major
                      ++ (Percent <$> probabilities g')
                      ++ [Text (String newline EmptyString)];
            memory := g'; rand := draws' |}).
Proof.
  intros Hsn Hok0 Hk Hcs Hnd Hfour Hin Hdraws.
  pose proof Hok0 as [Hhand0 _].
  destruct (readLine_good_line_spec cs rest (stdout w) (memory w))
    as (g1 & Eread & Ec1 & Hv1 & Hrest1); try done.
  pose proof Hv1 as [Hok1 Hvc1].
  pose proof (same_rest_globals_ok _ _ Hok0 Hrest1 Hok1) as Hg1.
  pose proof (main_copy_for_spec g1 Hg1) as Ecopy.
  set (g2 := set_copy g1 (handRank g1) (handSuit g1)) in *.
  assert (Hok2 : hand_ok g2) by done.
  destruct (sortHand_spec g2 Hok2)
    as (g3 & Esort & Hok3 & Hp3 & (Ecr3 & Ecs3 & Epr3 & Eid3) & Hs3).
  change (cards g2) with (cards g1) in Hp3.
  assert (Hv3 : valid_hand g3).
  { split; [done|]. by apply (valid_cards_perm (cards g1)). }
  assert (Hr1 : handRank g1 = rank_value <$> cs.*1).
  { rewrite <- (cards_ranks g1 Hok1), Ec1.
    clear. induction cs as [|[r s] cs IH]; [done|]. csimpl. by rewrite IH. }
  assert (Hr3 : handRank g3 = merge_sort Z.le (rank_value <$> cs.*1)).
  { apply (Sorted_unique Z.le); [done | by apply Sorted_merge_sort, _ |].
    rewrite merge_sort_Permutation, <- Hr1.
    rewrite <- (cards_ranks g3 Hok3), <- (cards_ranks g1 Hok1).
    by rewrite Hp3. }
  rewrite <- Hr3 in Hfour.
  destruct (four_ranks (handRank g3)) as [Hruns Hshape];
    [apply Hok3 | done | done |].
  assert (Hid3 : length (pokerHandID g3) = DIGITS_IN_POKER_HAND_ID).
  { rewrite Eid3. simpl. apply Hg1. }
  destruct (getHandRank_returns_spec g3 Hv3 Hid3)
    as [[Hbad _]|(_ & M & m & Erank & HM)]; [done|].
  set (g4 := set_pokerHandID g3 [M; m; 0]) in *.
  assert (Hg2 : globals_ok g2).
  { destruct Hg1 as ([? ?] & _ & _ & ? & ?). by split_and!. }
  assert (Hg3 : globals_ok g3).
  { by apply (same_rest_globals_ok g2). }
  assert (Hg4 : globals_ok g4).
  { destruct Hg3 as (? & ? & ? & ? & _). by split_and!. }
  assert (Hcopy4 : copy_cards g4 = card_value <$> cs).
  { unfold copy_cards. simpl. rewrite Ecr3, Ecs3. simpl. exact Ec1. }
  assert (Hsafe : safe_baseline g4).
  { destruct Hshape as [Hnodup|(r & Hr & Hlen)].
    - right. simpl. rewrite Ecr3. simpl.
      rewrite <- (cards_ranks g1 Hok1), <- Hp3, (cards_ranks g3 Hok3).
      done.
    - left. exists ONE_PAIR. split; [|by right].
      destruct (getHandRank_of_a_kind_spec g3 r Hv3 Hs3 Hid3) as (_ & _ & Hpair).
      rewrite (Hpair Hr Hlen) in Erank. by injection Erank as <- <-. }
  destruct (getProbabilities_total sampleNumber g4 (rand w))
    as (g5 & draws' & Eprob); try done.
  { rewrite Hcopy4. by apply typed_cards_valid. }
  { by rewrite Hcopy4. }
  pose proof Eprob as Hspec. unfold getProbabilities in Hspec.
  apply getProbabilities_for_spec in Hspec
    as (Hg5 & (Eid5 & Ecr5 & Ecs5) & _); [|done| |simpl; lia].
  2: { rewrite Hcopy4. by apply typed_cards_valid. }
  exists g1, g5, draws', M. split_and!.
  - done.
  - unfold main_good_line. rewrite Ecopy. cbn [bind].
    rewrite Esort. cbn [bind]. rewrite Erank. cbn [bind]. done.
  - by rewrite Eid5.
  - unfold copy_cards. rewrite Ecr5, Ecs5. exact Hcopy4.
  - done.
  - unfold main_body. rewrite Hin, Eread. cbn [bind_outcome].
    change (1 =? EOF) with false. cbv iota.
    rewrite Ecopy. cbn [lift bind_outcome]. change (1 =? 1) with true.
    cbv iota. rewrite Esort. cbn [lift bind_outcome].
    rewrite Erank. cbn [lift bind_outcome].
    rewrite Eprob. cbn [lift bind_outcome].
    rewrite (printHandRank_spec g5 _ M) by (by rewrite Eid5).
    cbn [lift bind_outcome].
    rewrite main_print_for_spec by (symmetry; apply Hg5).
    cbn [lift bind_outcome]. rewrite drop_0.
    rewrite <- !app_assoc. reflexivity.
Qed.

(** X27: One turn of the loop of [main] on a good line of a hand with at
    least four different ranks, with enough usable draws: [main] echoes the
    line and prints [" >>>"], the name of the category, the five percentages
    and a newline; the loop goes on, the copy arrays hold the hand as typed
    and the globals keep their sizes. *)
Theorem main_body_good_line (sampleNumber : Z) (w : world)
    (cs : list (ascii * ascii)) (rest : list ascii) :
  0 < sampleNumber -> globals_ok (memory w) ->
  length cs = HAND_SIZE -> Forall typed_card cs -> NoDup cs ->
  (4 <= length (runs (merge_sort Z.le (rank_value <$> cs.*1))))%nat ->
  stdin w = line_of cs ++ newline :: rest ->
  enough_draws (card_value <$> cs) (rand w)
    (HAND_SIZE * Z.to_nat sampleNumber) = true ->
  exists g1 g' draws' major,
    cards g1 = card_value <$> cs /\
    main_good_line sampleNumber g1 (rand w) = Ok (g', draws') /\
    pokerHandID g' !! MAJOR_RANK_DIGIT = Some major /\
    copy_cards g' = card_value <$> cs /\ globals_ok g' /\
    main_body sampleNumber w
    = Returns
        (true,
         {| stdin := rest;
            stdout := stdout w ++ (Char <$> line_of cs) ++ [Text " >>>"]
                      ++ category_name major
                      ++ (Percent <$> probabilities g')
                      ++ [Text (String newline EmptyString)];
            memory := g'; rand := draws' |}).
Proof. exact (main_body_good_line_spec sampleNumber w cs rest). Qed.

Lemma main_body_good_line_witness :
  exists g1 g' draws' major,
    cards g1
    = card_value <$> [("2", "H"); ("3", "H"); ("9", "C"); ("5", "H");
                      ("6", "H")]%char /\
    main_good_line 1 g1 [0; 2; 0; 0; 1; 1; 2; 2; 3; 3; 4; 4]%nat
    = Ok (g', draws') /\
    pokerHandID g' !! MAJOR_RANK_DIGIT = Some major /\
    copy_cards g'
    = card_value <$> [("2", "H"); ("3", "H"); ("9", "C"); ("5", "H");
                      ("6", "H")]%char /\
    globals_ok g' /\
    main_body 1
      {| stdin := line_of [("2", "H"); ("3", "H"); ("9", "C"); ("5", "H");
                           ("6", "H")]%char ++ newline :: [];
         stdout := [];
         memory := initial [0; 0; 0; 0; 0]
                     ["000"; "000"; "000"; "000"; "000"]%char;
         rand := [0; 2; 0; 0; 1; 1; 2; 2; 3; 3; 4; 4]%nat |}
    = Returns
        (true,
         {| stdin := [];
            stdout := [] ++ (Char <$> line_of [("2", "H"); ("3", "H");
                                               ("9", "C"); ("5", "H");
                                               ("6", "H")]%char)
                      ++ [Text " >>>"] ++ category_name major
                      ++ (Percent <$> probabilities g')
                      ++ [Text (String newline EmptyString)];
            memory := g'; rand := draws' |}).
Proof.
  apply (main_body_good_line 1
           {| stdin := line_of [("2", "H"); ("3", "H"); ("9", "C");
                                ("5", "H"); ("6", "H")]%char
                       ++ newline :: [];
              stdout := [];
              memory := initial [0; 0; 0; 0; 0]
                          ["000"; "000"; "000"; "000"; "000"]%char;
              rand := [0; 2; 0; 0; 1; 1; 2; 2; 3; 3; 4; 4]%nat |}
           [("2", "H"); ("3", "H"); ("9", "C"); ("5", "H"); ("6", "H")]%char
           []);
    [lia | by repeat split | reflexivity | typed_cards | by_computation
    | vm_compute; lia | reflexivity | vm_compute; reflexivity].
Defined.

(** X28: One turn of the loop of [main] on a line that [readLine] rejects:
    [main] echoes it and prints [" >>>"], ["Error"] and a newline, uses no
    draw, and leaves the key and the percentages alone; the copy of the hand
    is overwritten all the same. *)
Theorem main_body_rejected_line (sampleNumber : Z) (w : world)
    (cs : list (ascii * ascii)) (rest : list ascii) :
  globals_ok (memory w) ->
  (length cs <= HAND_SIZE)%nat -> Forall typed_card cs ->
  (length cs < HAND_SIZE)%nat \/ ~ NoDup cs ->
  stdin w = line_of cs ++ newline :: rest ->
  exists g',
    main_body sampleNumber w
    = Returns
        (true,
         {| stdin := rest;
            stdout := stdout w ++ (Char <$> line_of cs)
                      ++ [Text " >>>"; Text "Error";
                          Text (String newline EmptyString)];
            memory := g'; rand := rand w |}) /\
    handRank g'
    = (rank_value <$> cs.*1) ++ drop (length cs) (handRank (memory w)) /\
    copyHandRank g' = handRank g' /\ copyHandSuit g' = handSuit g' /\
    pokerHandID g' = pokerHandID (memory w) /\
    probabilities g' = probabilities (memory w).
Proof.
  intros Hok0 Hk Hcs Hbad Hin. pose proof Hok0 as [Hhand0 _].
  destruct (readLine_rejects_spec cs rest (stdout w) (memory w))
    as (g1 & Eread & Er1 & Es1 & Hrest1); try done.
  assert (Hok1 : hand_ok g1).
  { destruct Hhand0 as [Hr Hs]. split.
    - rewrite Er1, length_app, length_fmap, length_fmap, length_drop. lia.
    - rewrite Es1, length_app, length_fmap, length_drop. lia. }
  pose proof (same_rest_globals_ok _ _ Hok0 Hrest1 Hok1) as Hg1.
  exists (set_copy g1 (handRank g1) (handSuit g1)). split_and!; try done.
  - unfold main_body. rewrite Hin, Eread. cbn [bind_outcome].
    change (0 =? EOF) with false. cbv iota.
    rewrite (main_copy_for_spec g1 Hg1). cbn [lift bind_outcome].
    change (0 =? 1) with false. cbv iota.
    by rewrite <- !app_assoc.
  - apply Hrest1.
  - apply Hrest1.
Qed.

(** The line [2H 3H] has too few cards. *)
Lemma main_body_rejected_line_witness :
  exists g',
    main_body 1
      {| stdin := line_of [("2", "H"); ("3", "H")]%char ++ newline :: [];
         stdout := [];
         memory := initial [0; 0; 0; 0; 0]
                     ["000"; "000"; "000"; "000"; "000"]%char;
         rand := [] |}
    = Returns
        (true,
         {| stdin := [];
            stdout := [] ++ (Char <$> line_of [("2", "H"); ("3", "H")]%char)
                      ++ [Text " >>>"; Text "Error";
                          Text (String newline EmptyString)];
            memory := g'; rand := [] |}) /\
    handRank g'
    = (rank_value <$> [("2", "H"); ("3", "H")]%char.*1)
      ++ drop 2 [0; 0; 0; 0; 0] /\
    copyHandRank g' = handRank g' /\ copyHandSuit g' = handSuit g' /\
    pokerHandID g' = [0; 0; 0] /\
    probabilities g'
    = [S754_zero false; S754_zero false; S754_zero false; S754_zero false;
       S754_zero false].
Proof.
  apply (main_body_rejected_line 1
           {| stdin := line_of [("2", "H"); ("3", "H")]%char ++ newline :: [];
              stdout := [];
              memory := initial [0; 0; 0; 0; 0]
                          ["000"; "000"; "000"; "000"; "000"]%char;
              rand := [] |}
           [("2", "H"); ("3", "H")]%char []);
    [by repeat split | vm_compute; lia | typed_cards
    | left; vm_compute; lia | reflexivity].
Defined.

Lemma globals_eq (g g' : globals) :
  handRank g' = handRank g -> handSuit g' = handSuit g -> same_rest g g' ->
  g' = g.
Proof.
  destruct g, g'. simpl. intros -> -> (E1 & E2 & E3 & E4). simpl in *.
  by subst.
Qed.

(** The end of the input where a line should end: the loop of [main] is
    left, and what was typed on the last line gets no answer. *)
Lemma main_body_end_of_input (sampleNumber : Z) (w : world)
    (cs : list (ascii * ascii)) (suffix : list ascii) :
  hand_ok (memory w) ->
  (length cs <= HAND_SIZE)%nat -> Forall typed_card cs ->
  suffix = [] \/ (exists rest, suffix = EOF_char :: rest) ->
  stdin w = line_of cs ++ suffix ->
  exists g',
    main_body sampleNumber w
    = Returns
        (false,
         {| stdin := tail suffix;
            stdout := stdout w ++ (Char <$> line_of cs);
            memory := g'; rand := rand w |}) /\
    handRank g'
    = (rank_value <$> cs.*1) ++ drop (length cs) (handRank (memory w)) /\
    handSuit g' = cs.*2 ++ drop (length cs) (handSuit (memory w)) /\
    same_rest (memory w) g'.
Proof.
  intros Hok Hk Hcs Hend Hin.
  destruct (readLine_no_newline_spec cs suffix (stdout w) (memory w))
    as (g' & E & ?); try done.
  exists g'. split; [|done]. unfold main_body. rewrite Hin, E. reflexivity.
Qed.

(** X29: The whole program on an input of one good line: [main] returns 0
    with the input used up, and has printed the line, [" >>>"], the name of
    the category, five percentages and a newline, and nothing else. *)
Theorem main_one_good_line (sampleNumber : Z) (cs : list (ascii * ascii))
    (draws : list nat) :
  0 < sampleNumber ->
  length cs = HAND_SIZE -> Forall typed_card cs -> NoDup cs ->
  (4 <= length (runs (merge_sort Z.le (rank_value <$> cs.*1))))%nat ->
  enough_draws (card_value <$> cs) draws
    (HAND_SIZE * Z.to_nat sampleNumber) = true ->
  exists w major,
    main sampleNumber (line_of cs ++ [newline]) draws = Returns (0, w) /\
    pokerHandID (memory w) !! MAJOR_RANK_DIGIT = Some major /\
    copy_cards (memory w) = card_value <$> cs /\
    stdin w = [] /\
    stdout w = (Char <$> line_of cs) ++ [Text " >>>"]
               ++ category_name major
               ++ (Percent <$> probabilities (memory w))
               ++ [Text (String newline EmptyString)].
Proof.
  intros Hsn Hk Hcs Hnd Hfour Hdraws.
  destruct (main_body_good_line_spec sampleNumber
              (startup (line_of cs ++ [newline]) draws) cs [])
    as (g1 & g' & draws' & major & _ & _ & Hmajor & Hcopy & Hok' & Ebody);
    try done.
  match type of Ebody with
  | _ = Returns (true, ?w0) => set (w1 := w0) in *
  end.
  destruct (main_body_end_of_input sampleNumber w1 [] [])
    as (g'' & Eend & Er & Es & Hrest); try done.
  { apply Hok'. }
  { simpl. lia. }
  { by left. }
  simpl in Er, Es. rewrite ?drop_0 in Er, Es.
  apply globals_eq in Hrest; [|done..]. subst g''.
  eexists _, major. split; [|split_and!].
  - unfold main, main_fuel. rewrite length_app. simpl length.
    replace (length (line_of cs) + 1)%nat with (S (length (line_of cs)))
      by lia.
    cbn [main_while]. rewrite Ebody. cbn [bind_outcome].
    rewrite Eend. cbn [bind_outcome]. reflexivity.
  - done.
  - done.
  - done.
  - simpl. by rewrite app_nil_r.
Qed.

Lemma main_one_good_line_witness :
  exists w major,
    main 1
      (line_of [("2", "H"); ("3", "H"); ("9", "C"); ("5", "H"); ("6", "H")]%char
       ++ [newline])
      [0; 2; 0; 0; 1; 1; 2; 2; 3; 3; 4; 4]%nat
    = Returns (0, w) /\
    pokerHandID (memory w) !! MAJOR_RANK_DIGIT = Some major /\
    copy_cards (memory w)
    = card_value <$> [("2", "H"); ("3", "H"); ("9", "C"); ("5", "H");
                      ("6", "H")]%char /\
    stdin w = [] /\
    stdout w
    = (Char <$> line_of [("2", "H"); ("3", "H"); ("9", "C"); ("5", "H");
                         ("6", "H")]%char)
      ++ [Text " >>>"] ++ category_name major
      ++ (Percent <$> probabilities (memory w))
      ++ [Text (String newline EmptyString)].
Proof.
  apply (main_one_good_line 1
           [("2", "H"); ("3", "H"); ("9", "C"); ("5", "H"); ("6", "H")]%char
           [0; 2; 0; 0; 1; 1; 2; 2; 3; 3; 4; 4]%nat);
    [lia | reflexivity | typed_cards | by_computation
    | vm_compute; lia | vm_compute; reflexivity].
Defined.

(** ** More on reading a line *)

(** X20: For every character: either it is one of the thirteen rank
    characters, at place [i] of [RANK_LIST], [isRank] accepts it and
    [rankToInt] gives [i + 2]; or it is none of them, [isRank] refuses it
    and [rankToInt] returns a local that was never assigned. *)
Theorem rankToInt_of_rank_character (c : ascii) :
  (exists i,
     (i < RANK_COUNT)%nat /\ RANK_LIST !! i = Some c /\
     isRank c = Ok TRUE /\ rankToInt c = Returns (Z.of_nat i + 2)) \/
  (c ∉ take RANK_COUNT RANK_LIST) /\
  isRank c = Ok FALSE /\ rankToInt c = Undefined Uninitialised.
Proof.
  destruct (decide (c ∈ take RANK_COUNT RANK_LIST)) as [H|H].
  - left. unfold RANK_COUNT, RANK_LIST in H. cbn in H.
    let place n :=
      (exists n; split_and!;
       [unfold RANK_COUNT; lia | reflexivity | reflexivity | reflexivity]) in
    repeat (apply elem_of_cons in H as [->|H];
            [first [ place 0%nat | place 1%nat | place 2%nat | place 3%nat
                   | place 4%nat | place 5%nat | place 6%nat | place 7%nat
                   | place 8%nat | place 9%nat | place 10%nat
                   | place 11%nat | place 12%nat ]|]).
    by apply elem_of_nil in H.
  - right. by destruct (isRank_other c H).
Qed.

(** X24: A space between the last card and the newline changes nothing but
    the echo: [readLine] returns the same value and leaves the same globals. *)
Theorem readLine_trailing_space (cs : list (ascii * ascii))
    (rest : list ascii) (output : list printed) (g : globals) :
  hand_ok g -> cs <> [] -> (length cs <= HAND_SIZE)%nat ->
  Forall typed_card cs ->
  exists status g',
    readLine (line_of cs ++ newline :: rest) output g
    = Returns (status, rest, output ++ (Char <$> line_of cs), g') /\
    readLine (line_of cs ++ " "%char :: newline :: rest) output g
    = Returns (status, rest,
               output ++ (Char <$> line_of cs) ++ [Char " "%char], g').
Proof.
  intros Hok Hne Hk Hcs. destruct cs as [|[r s] cs]; [done|]. simpl in Hk.
  destruct (readLine_while_line r s cs (newline :: rest) output g)
    as (l & ((_ & _ & Hic0 & _) & He) & E); [done | lia | done |].
  destruct (readLine_while_line r s cs (" "%char :: newline :: rest) output g)
    as (l' & ((Hrc & Hsc & Hic & Hb) & He') & E'); [done | lia | done |].
  pose proof (store_cards_hand_ok 0 ((r, s) :: cs) g Hok) as Hok'.
  assert (exists b, repeatCards (store_cards 0 ((r, s) :: cs) g) = Ok b)
    as [b Eb].
  { unfold repeatCards. rewrite repeatCards_outer_spec by done. eauto. }
  unfold readLine. rewrite E, E'. cbn [readLine_while].
  change (negb (Ascii.eqb newline newline) && negb (Ascii.eqb newline EOF_char))
    with false.
  change (negb (Ascii.eqb " " newline) && negb (Ascii.eqb " " EOF_char))
    with true. cbv iota zeta.
  rewrite Hb. change (2 + 1 >? 3) with false. cbv iota.
  change (2 + 1 =? 1) with false. change (2 + 1 =? 2) with false.
  change (2 + 1 =? 3) with true. change (Ascii.eqb " " " ") with true.
  cbv iota. cbn [bind_outcome]. rewrite Eb. cbn [lift bind_outcome].
  cbn [inputCount isError]. rewrite Hic, Hic0, He, He'.
  eexists _, _. split; [reflexivity|]. by rewrite <- app_assoc.
Qed.

Lemma readLine_trailing_space_witness :
  exists status g',
    readLine
      (line_of [("2", "H"); ("3", "H"); ("9", "C"); ("5", "H"); ("6", "H")]%char
       ++ newline :: [])
      []
      (initial [0; 0; 0; 0; 0] ["000"; "000"; "000"; "000"; "000"]%char)
    = Returns
        (status, [],
         [] ++ (Char <$> line_of [("2", "H"); ("3", "H"); ("9", "C");
                                  ("5", "H"); ("6", "H")]%char),
         g') /\
    readLine
      (line_of [("2", "H"); ("3", "H"); ("9", "C"); ("5", "H"); ("6", "H")]%char
       ++ " "%char :: newline :: [])
      []
      (initial [0; 0; 0; 0; 0] ["000"; "000"; "000"; "000"; "000"]%char)
    = Returns
        (status, [],
         [] ++ (Char <$> line_of [("2", "H"); ("3", "H"); ("9", "C");
                                  ("5", "H"); ("6", "H")]%char)
         ++ [Char " "%char],
         g').
Proof.
  apply (readLine_trailing_space
           [("2", "H"); ("3", "H"); ("9", "C"); ("5", "H"); ("6", "H")]%char
           [] []
           (initial [0; 0; 0; 0; 0] ["000"; "000"; "000"; "000"; "000"]%char));
    [by split | discriminate | vm_compute; lia | typed_cards].
Defined.

(** ** The draws that the estimation needs *)

Lemma enough_draws_le (cs : list (Z * ascii)) (draws : list nat)
    (n m : nat) :
  (m <= n)%nat -> enough_draws cs draws n = true ->
  enough_draws cs draws m = true.
Proof.
  revert n m.
  cut (forall n m, (m <= n)%nat ->
    (enough_draws cs draws n = true -> enough_draws cs draws m = true) /\
    forall r1, enough_draws cs (r1 :: draws) n = true ->
               enough_draws cs (r1 :: draws) m = true).
  { intros H n m Hle. by apply H. }
  induction draws as [|r2 draws IH]; intros n m Hle.
  - destruct n, m; try done; lia.
  - split; [by apply IH|]. intros r1.
    destruct n as [|n], m as [|m]; try done; [lia|].
    cbn [enough_draws]. destruct (bool_decide _); apply IH; lia.
Qed.

(** A run of the do-while loop that ends has found a card outside the
    original hand in the supply. *)
Lemma getProbabilities_draw_needs (H : list (Z * ascii)) (i : nat)
    (tempRank : Z) (tempSuit : ascii) (draws rest : list nat)
    (g g1 : globals) (k n : nat) (randRank : Z) (randSuit : ascii) :
  valid_cards H -> H !! i = Some (tempRank, tempSuit) ->
  trial_inv H i g k ->
  getProbabilities_draw draws g k tempRank tempSuit
  = Ok (g1, randRank, randSuit, rest) ->
  enough_draws H rest n = true ->
  enough_draws H draws (S n) = true.
Proof.
  intros Hv Ht. revert g.
  cut (forall g,
    (trial_inv H i g k ->
     getProbabilities_draw draws g k tempRank tempSuit
     = Ok (g1, randRank, randSuit, rest) ->
     enough_draws H rest n = true -> enough_draws H draws (S n) = true) /\
    (forall r1,
     trial_inv H i g k ->
     getProbabilities_draw (r1 :: draws) g k tempRank tempSuit
     = Ok (g1, randRank, randSuit, rest) ->
     enough_draws H rest n = true ->
     enough_draws H (r1 :: draws) (S n) = true)).
  { intros Hcut g. apply Hcut. }
  induction draws as [|r2 draws IH]; intros g.
  - split; [done | intros r1; done].
  - split; [apply IH|].
    intros r1 Hinv Hrun Hrest.
    pose proof Hrun as Havoid.
    apply (getProbabilities_draw_avoids H i) in Havoid
      as (Hnew & _); [|done..].
    pose proof Hinv as (Hok & Hk & Hfix).
    cbn [getProbabilities_draw] in Hrun.
    rewrite (rd_card_of_draws r1 r2) in Hrun. cbn [bind] in Hrun.
    destruct Hok as [Hlr Hls].
    rewrite !wr_lt in Hrun by lia. cbn [bind] in Hrun. cbv zeta in Hrun.
    step_bind Hrun. cbn [enough_draws].
    match type of Hrun with
    | (if ?b then _ else _) = _ => destruct b
    end.
    + (* the card is drawn again *)
      match type of Hrun with
      | getProbabilities_draw _ ?g' _ _ _ = _ =>
          destruct (IH g') as [IH1 _]
      end.
      assert (enough_draws H draws (S n) = true) as Hmore.
      { apply IH1; [|done..].
        split_and!; [split; simpl; by rewrite length_insert | done |].
        rewrite cards_set_hand_insert, delete_insert_same. done. }
      case_bool_decide; [done|].
      apply (enough_draws_le H draws (S n)); [lia | done].
    + injection Hrun as <- <- <- <-.
      rewrite bool_decide_eq_false_2; [done|].
      exact Hnew.
Qed.

Lemma getProbabilities_trials_needs (H : list (Z * ascii)) (i n m : nat)
    (g g' : globals) (k k' : nat) (tempRank : Z) (tempSuit : ascii)
    (num num' : Z) (draws draws' : list nat) :
  valid_cards H -> H !! i = Some (tempRank, tempSuit) ->
  trial_inv H i g k ->
  getProbabilities_trials n g k tempRank tempSuit num draws
  = Ok (g', k', num', draws') ->
  enough_draws H draws' m = true ->
  enough_draws H draws (n + m) = true.
Proof.
  intros Hv Ht. revert g k num draws.
  induction n as [|n IH]; intros g k num draws Hinv Hrun Hrest;
    cbn [getProbabilities_trials] in Hrun.
  - by injection Hrun as <- <- <- <-.
  - step_bind Hrun. destruct a as [[[g1 rr] rs] d1]. cbn beta iota in Hrun.
    eapply (getProbabilities_draw_needs H i); try done.
    destruct (getProbabilities_draw_avoids H i _ _ _ _ _ _ _ _ _ Hv Ht Hinv E)
      as (_ & _ & _ & Hok1 & Hlk1 & Hfix1).
    destruct (sortHand_spec g1 Hok1) as (g2 & E2 & Hok2 & Hp2 & _ & _).
    rewrite E2 in Hrun. cbn [bind] in Hrun.
    destruct (getProbabilities_locate_spec g2 rr rs HAND_SIZE 0 k Hok2)
      as (j & Ej & Hj & Hlk2); [done | |].
    { rewrite drop_0, Hp2. by eapply list_elem_of_lookup_2. }
    rewrite Ej in Hrun. cbn [bind] in Hrun.
    step_bind Hrun.
    eapply IH; [|exact Hrun|done].
    split_and!; [done..|].
    apply (Permutation_cons_inv (a := (rr, rs))).
    rewrite <- (delete_Permutation _ _ _ Hlk2), Hp2.
    rewrite (delete_Permutation _ _ _ Hlk1). by rewrite Hfix1.
Qed.

Lemma getProbabilities_for_needs (sn : Z) (n i m : nat) (g g' : globals)
    (draws draws' : list nat) :
  globals_ok g -> valid_cards (copy_cards g) -> (i + n <= HAND_SIZE)%nat ->
  getProbabilities_for sn n i g draws = Ok (g', draws') ->
  enough_draws (copy_cards g) draws' m = true ->
  enough_draws (copy_cards g) draws (n * Z.to_nat sn + m) = true.
Proof.
  revert i g draws.
  induction n as [|n IH]; intros i g draws Hok Hv Hin Hrun Hrest;
    cbn [getProbabilities_for] in Hrun.
  - by injection Hrun as <- <-.
  - step_bind Hrun. destruct a as [g1 d1]. cbn beta iota in Hrun.
    pose proof E as Hpos.
    apply getProbabilities_position_spec in Hpos
      as (g2 & tr & ts & gN & k & num & j & Henter & _ & Htrials & _ & _ &
          _ & _ & Hok1 & Hb1); [|done | done | lia].
    assert (Hcopy1 : copy_cards g1 = copy_cards g).
    { destruct Hb1 as (_ & Ecr & Ecs). unfold copy_cards.
      by rewrite Ecr, Ecs. }
    apply getProbabilities_enter_spec in Henter
      as (Hok2 & _ & Hp & Ht & _); [|done | lia].
    cbn [Nat.mul]. rewrite <- Nat.add_assoc.
    rewrite <- (enough_draws_perm _ _ _ _ Hp).
    eapply (getProbabilities_trials_needs (cards g2) i); try done.
    + eapply valid_cards_perm; [symmetry|]; eauto.
    + split_and!; [done | lia | done].
    + rewrite (enough_draws_perm _ _ _ _ Hp), <- Hcopy1.
      eapply IH; try done; [by rewrite Hcopy1 | lia | by rewrite Hcopy1].
Qed.

(** X18: Every run of [getProbabilities] that returns has found, in the
    supply of random numbers, a card outside the original hand for each of
    the [5 * sampleNumber] replacements: with fewer usable draws the
    function does not return. *)
Theorem getProbabilities_needs_draws (sampleNumber : Z) (g g' : globals)
    (draws draws' : list nat) :
  globals_ok g -> valid_cards (copy_cards g) ->
  getProbabilities sampleNumber g draws = Ok (g', draws') ->
  enough_draws (copy_cards g) draws (HAND_SIZE * Z.to_nat sampleNumber)
  = true.
Proof.
  intros Hok Hv Hrun.
  rewrite <- (Nat.add_0_r (HAND_SIZE * _)).
  eapply (getProbabilities_for_needs sampleNumber HAND_SIZE 0); try done.
  by destruct draws' as [|? [|? ?]].
Qed.

Lemma getProbabilities_needs_draws_witness :
  enough_draws [(2, "H"); (3, "H"); (9, "C"); (5, "H"); (6, "H")]%char
    [0; 2; 0; 0; 1; 1; 2; 2; 3; 3; 4; 4]%nat (HAND_SIZE * Z.to_nat 1)
  = true.
Proof.
  assert (E : exists p,
             getProbabilities 1
               (set_pokerHandID
                  (set_copy
                     (initial [2; 3; 5; 6; 9] ["H"; "H"; "H"; "H"; "C"]%char)
                     [2; 3; 9; 5; 6] ["H"; "H"; "C"; "H"; "H"]%char)
                  [HIGH_CARD; 9; 0])
               [0; 2; 0; 0; 1; 1; 2; 2; 3; 3; 4; 4]%nat = Ok p)
    by (vm_compute; eexists; reflexivity).
  destruct E as [[g' draws'] E].
  apply (getProbabilities_needs_draws 1
           (set_pokerHandID
              (set_copy
                 (initial [2; 3; 5; 6; 9] ["H"; "H"; "H"; "H"; "C"]%char)
                 [2; 3; 9; 5; 6] ["H"; "H"; "C"; "H"; "H"]%char)
              [HIGH_CARD; 9; 0])
           g' [0; 2; 0; 0; 1; 1; 2; 2; 3; 3; 4; 4]%nat draws');
    [by repeat split | concrete_valid_hand | exact E].
Defined.

(** ** No loop runs forever *)

Ltac ends_step :=
  first
    [ apply rd_terminates | apply wr_terminates
    | apply isXOfAKind_never_diverges | apply isFullHouse_never_diverges
    | discriminate
    | match goal with
      | |- (if ?c then _ else _) <> _ => destruct c
      | |- bind _ _ <> _ => apply bind_terminates; [|intros ? ?]
      | H : ?m = Ok _ |- ?m <> _ => rewrite H; discriminate
      | |- Ok _ <> _ => discriminate
      end ].

Lemma total_ends {A : Type} (r : result A) :
  (exists v, r = Ok v) -> r <> Fault Diverges.
Proof. intros [v ->]. discriminate. Qed.

Lemma set_id_ends (g : globals) (i : nat) (v : Z) :
  set_id g i v <> Fault Diverges.
Proof. unfold set_id. repeat ends_step. Qed.

Lemma set_id_hand (g g' : globals) (i : nat) (v : Z) :
  set_id g i v = Ok g' -> hand_ok g -> hand_ok g'.
Proof. intros [_ ->]%set_id_ok. done. Qed.

Lemma set_major_minor_ends (g : globals) (M m : Z) :
  set_major_minor g M m <> Fault Diverges.
Proof. unfold set_major_minor. repeat ends_step; apply set_id_ends. Qed.

Lemma getHandRank_ends (g : globals) :
  hand_ok g -> getHandRank g <> Fault Diverges.
Proof.
  intros Hok. unfold getHandRank.
  apply bind_terminates; [apply set_id_ends|]. intros g1 E1.
  pose proof (set_id_hand _ _ _ _ E1 Hok) as Hok1.
  repeat first
    [ apply set_major_minor_ends | apply set_id_ends
    | apply total_ends;
      first [ by apply isStraight_total | by apply isFlush_total
            | by apply isTwoPair_total | by apply highCard_total ]
    | ends_step ].
  all: try (eapply set_id_hand; [eassumption|]).
  all: try (apply set_major_minor_ends).
Qed.

Ltac ends_cascade Hok :=
  repeat first
    [ apply total_ends;
      first [ by apply isStraight_total | by apply isFlush_total
            | by apply isTwoPair_total | by apply highCard_total ]
    | ends_step
    | assumption ].

Lemma isBetterHand_ends (g : globals) :
  hand_ok g -> isBetterHand g <> Fault Diverges.
Proof.
  intros Hok.
  assert (H9 : forall M m s f, case_STRAIGHT_FLUSH g M m s f <> Fault Diverges).
  { intros. unfold case_STRAIGHT_FLUSH. ends_cascade Hok. }
  assert (H8 : forall M m s f, case_FOUR_OF_A_KIND g M m s f <> Fault Diverges).
  { intros. unfold case_FOUR_OF_A_KIND. ends_cascade Hok; apply H9. }
  assert (H7 : forall M m s f, case_FULL_HOUSE g M m s f <> Fault Diverges).
  { intros. unfold case_FULL_HOUSE. ends_cascade Hok; apply H8. }
  assert (H6 : forall M m s, case_FLUSH g M m s <> Fault Diverges).
  { intros. unfold case_FLUSH. ends_cascade Hok; apply H7. }
  assert (H5 : forall M m, case_STRAIGHT g M m <> Fault Diverges).
  { intros. unfold case_STRAIGHT. ends_cascade Hok; apply H6. }
  assert (H4 : forall M m, case_THREE_OF_A_KIND g M m <> Fault Diverges).
  { intros. unfold case_THREE_OF_A_KIND. ends_cascade Hok; apply H5. }
  assert (H3 : forall M m, case_TWO_PAIR g M m <> Fault Diverges).
  { intros. unfold case_TWO_PAIR. ends_cascade Hok; apply H4. }
  assert (H2 : forall M m, case_ONE_PAIR g M m <> Fault Diverges).
  { intros. unfold case_ONE_PAIR. ends_cascade Hok; apply H3. }
  assert (H1 : forall M m, case_HIGH_CARD g M m <> Fault Diverges).
  { intros. unfold case_HIGH_CARD. ends_cascade Hok; apply H2. }
  unfold isBetterHand. ends_cascade Hok; auto.
Qed.

Lemma repeatCards_ends (g : globals) :
  hand_ok g -> exists b, repeatCards g = Ok b.
Proof.
  intros Hok. unfold repeatCards. rewrite repeatCards_outer_spec by done.
  eauto.
Qed.

Lemma getProbabilities_draw_ends (draws : list nat) (g : globals) (k : nat)
    (tempRank : Z) (tempSuit : ascii) :
  hand_ok g ->
  getProbabilities_draw draws g k tempRank tempSuit <> Fault Diverges /\
  forall g' r s rest,
    getProbabilities_draw draws g k tempRank tempSuit = Ok (g', r, s, rest) ->
    hand_ok g'.
Proof.
  revert g.
  cut (forall g, hand_ok g ->
    (getProbabilities_draw draws g k tempRank tempSuit <> Fault Diverges /\
     forall g' r s rest,
       getProbabilities_draw draws g k tempRank tempSuit
       = Ok (g', r, s, rest) -> hand_ok g') /\
    (forall r1,
     getProbabilities_draw (r1 :: draws) g k tempRank tempSuit
     <> Fault Diverges /\
     forall g' r s rest,
       getProbabilities_draw (r1 :: draws) g k tempRank tempSuit
       = Ok (g', r, s, rest) -> hand_ok g')).
  { intros H g Hok. by apply H. }
  induction draws as [|r2 draws IH]; intros g Hok.
  - split; [split; [done | discriminate]|].
    intros r1. split; [done | discriminate].
  - split; [by apply IH|]. intros r1. cbn [getProbabilities_draw].
    destruct (rd SUIT_LIST (r2 mod SUIT_COUNT)) as [s|f] eqn:Es; cbn [bind].
    2: { split; [|discriminate]. unfold rd in Es.
         destruct (SUIT_LIST !! _); [done|]. by injection Es as <-. }
    destruct (wr (handRank g) k _) as [hr|f] eqn:Er; cbn [bind].
    2: { split; [|discriminate]. unfold wr in Er.
         destruct (k <? _)%nat; [done|]. by injection Er as <-. }
    destruct (wr (handSuit g) k _) as [hs|f] eqn:Ehs; cbn [bind].
    2: { split; [|discriminate]. unfold wr in Ehs.
         destruct (k <? _)%nat; [done|]. by injection Ehs as <-. }
    cbv zeta.
    apply wr_ok in Er as [_ ->]. apply wr_ok in Ehs as [_ ->].
    match goal with
    | |- context [repeatCards ?g1] =>
        assert (Hok1 : hand_ok g1)
          by (destruct Hok; split; simpl; by rewrite length_insert);
        destruct (repeatCards_ends g1 Hok1) as [b ->]; cbn [bind];
        destruct (IH g1 Hok1) as [IH1 _]
    end.
    destruct (b || _).
    + exact IH1.
    + split; [discriminate|]. by intros ? ? ? ? [= <- _ _ _].
Qed.

Lemma getProbabilities_locate_ends (g : globals) (randRank : Z)
    (randSuit : ascii) (n k swapIndex : nat) :
  getProbabilities_locate g randRank randSuit n k swapIndex
  <> Fault Diverges.
Proof.
  revert k. induction n as [|n IH]; intros k; simpl; [discriminate|].
  repeat ends_step; apply IH.
Qed.

Lemma getProbabilities_trials_ends (n : nat) (g : globals) (k : nat)
    (tempRank : Z) (tempSuit : ascii) (num : Z) (draws : list nat) :
  hand_ok g ->
  getProbabilities_trials n g k tempRank tempSuit num draws
  <> Fault Diverges /\
  forall g' k' num' draws',
    getProbabilities_trials n g k tempRank tempSuit num draws
    = Ok (g', k', num', draws') -> hand_ok g'.
Proof.
  revert g k num draws.
  induction n as [|n IH]; intros g k num draws Hok;
    cbn [getProbabilities_trials].
  - split; [discriminate|]. by intros ? ? ? ? [= <- _ _ _].
  - destruct (getProbabilities_draw_ends draws g k tempRank tempSuit Hok)
      as [Hd Hd'].
    destruct (getProbabilities_draw draws g k tempRank tempSuit)
      as [[[[g1 rr] rs] d1]|f] eqn:Ed; cbn [bind];
      [|split; [congruence|discriminate]].
    pose proof (Hd' _ _ _ _ eq_refl) as Hok1.
    destruct (sortHand_spec g1 Hok1) as (g2 & -> & Hok2 & _). cbn [bind].
    pose proof (getProbabilities_locate_ends g2 rr rs HAND_SIZE 0 k) as Hl.
    destruct (getProbabilities_locate g2 rr rs HAND_SIZE 0 k) as [j|f] eqn:El;
      cbn [bind]; [|split; [congruence|discriminate]].
    pose proof (isBetterHand_ends g2 Hok2) as Hb.
    destruct (isBetterHand g2) as [b|f] eqn:Eb; cbn [bind];
      [|split; [congruence|discriminate]].
    by apply IH.
Qed.

Lemma getProbabilities_store_ends (sn : Z) (g : globals) (tempRank : Z)
    (tempSuit : ascii) (num : Z) (n j : nat) :
  getProbabilities_store sn g tempRank tempSuit num n j <> Fault Diverges.
Proof.
  revert j. induction n as [|n IH]; intros j; simpl; [discriminate|].
  repeat ends_step; apply IH.
Qed.

Lemma loadCopyHand_for_ends (n i : nat) (g : globals) :
  hand_ok g ->
  loadCopyHand_for n i g <> Fault Diverges /\
  forall g', loadCopyHand_for n i g = Ok g' -> hand_ok g'.
Proof.
  revert i g. induction n as [|n IH]; intros i g Hok; simpl.
  - split; [discriminate|]. by intros ? [= <-].
  - destruct (rd (copyHandRank g) i) as [r|f] eqn:E1; cbn [bind].
    2: { split; [|discriminate]. pose proof (rd_terminates (copyHandRank g) i).
         congruence. }
    destruct (wr (handRank g) i r) as [hr|f] eqn:E2; cbn [bind].
    2: { split; [|discriminate]. pose proof (wr_terminates (handRank g) i r).
         congruence. }
    destruct (rd (copyHandSuit g) i) as [s|f] eqn:E3; cbn [bind].
    2: { split; [|discriminate]. pose proof (rd_terminates (copyHandSuit g) i).
         congruence. }
    destruct (wr (handSuit g) i s) as [hs|f] eqn:E4; cbn [bind].
    2: { split; [|discriminate]. pose proof (wr_terminates (handSuit g) i s).
         congruence. }
    apply IH. apply wr_ok in E2 as [_ ->]. apply wr_ok in E4 as [_ ->].
    destruct Hok. split; simpl; by rewrite length_insert.
Qed.

Lemma getProbabilities_enter_ends (g : globals) (i : nat) :
  hand_ok g ->
  getProbabilities_enter g i <> Fault Diverges /\
  forall g2 tr ts, getProbabilities_enter g i = Ok (g2, tr, ts) -> hand_ok g2.
Proof.
  intros Hok. unfold getProbabilities_enter, loadCopyHand.
  destruct (loadCopyHand_for_ends HAND_SIZE 0 g Hok) as [Hl Hl'].
  destruct (loadCopyHand_for HAND_SIZE 0 g) as [g1|f] eqn:E1; cbn [bind];
    [|split; [congruence|discriminate]].
  pose proof (Hl' _ eq_refl) as Hok1.
  destruct (sortHand_spec g1 Hok1) as (g2 & -> & Hok2 & _). cbn [bind].
  split.
  - repeat ends_step.
  - intros g2' tr ts H. repeat step_bind H. by injection H as <- _ _.
Qed.

Lemma getProbabilities_position_ends (sn : Z) (g : globals) (i : nat)
    (draws : list nat) :
  hand_ok g ->
  getProbabilities_position sn g i draws <> Fault Diverges /\
  forall g' draws',
    getProbabilities_position sn g i draws = Ok (g', draws') -> hand_ok g'.
Proof.
  intros Hok. unfold getProbabilities_position.
  destruct (getProbabilities_enter_ends g i Hok) as [He He'].
  destruct (getProbabilities_enter g i) as [[[g2 tr] ts]|f] eqn:E1;
    cbn [bind]; [|split; [congruence|discriminate]].
  pose proof (He' _ _ _ eq_refl) as Hok2.
  destruct (getProbabilities_trials_ends (Z.to_nat sn) g2 i tr ts 0 draws Hok2)
    as [Ht Ht'].
  destruct (getProbabilities_trials _ g2 i tr ts 0 draws)
    as [[[[g3 k] num] d]|f] eqn:E2; cbn [bind];
    [|split; [congruence|discriminate]].
  pose proof (Ht' _ _ _ _ eq_refl) as Hok3.
  pose proof (getProbabilities_store_ends sn g3 tr ts num HAND_SIZE 0) as Hs.
  destruct (getProbabilities_store sn g3 tr ts num HAND_SIZE 0)
    as [g4|f] eqn:E3; cbn [bind]; [|split; [congruence|discriminate]].
  split; [discriminate|]. intros ? ? [= <- _].
  apply getProbabilities_store_frame in E3 as (_ & Er & Es & _).
  destruct Hok3. split; congruence.
Qed.

Lemma getProbabilities_for_ends (sn : Z) (n i : nat) (g : globals)
    (draws : list nat) :
  hand_ok g ->
  getProbabilities_for sn n i g draws <> Fault Diverges /\
  forall g' draws',
    getProbabilities_for sn n i g draws = Ok (g', draws') -> hand_ok g'.
Proof.
  revert i g draws. induction n as [|n IH]; intros i g draws Hok;
    cbn [getProbabilities_for].
  - split; [discriminate|]. by intros ? ? [= <- _].
  - destruct (getProbabilities_position_ends sn g i draws Hok) as [Hp Hp'].
    destruct (getProbabilities_position sn g i draws) as [[g1 d1]|f] eqn:E;
      cbn [bind]; [|split; [congruence|discriminate]].
    apply IH. by eapply Hp'.
Qed.

Lemma main_copy_for_ends (n i : nat) (g : globals) :
  hand_ok g ->
  main_copy_for n i g <> Fault Diverges /\
  forall g', main_copy_for n i g = Ok g' -> hand_ok g'.
Proof.
  revert i g. induction n as [|n IH]; intros i g Hok; simpl.
  - split; [discriminate|]. by intros ? [= <-].
  - destruct (rd (handRank g) i) as [r|f] eqn:E1; cbn [bind].
    2: { split; [|discriminate]. pose proof (rd_terminates (handRank g) i).
         congruence. }
    destruct (wr (copyHandRank g) i r) as [cr|f] eqn:E2; cbn [bind].
    2: { split; [|discriminate].
         pose proof (wr_terminates (copyHandRank g) i r). congruence. }
    destruct (rd (handSuit g) i) as [s|f] eqn:E3; cbn [bind].
    2: { split; [|discriminate]. pose proof (rd_terminates (handSuit g) i).
         congruence. }
    destruct (wr (copyHandSuit g) i s) as [cs|f] eqn:E4; cbn [bind].
    2: { split; [|discriminate].
         pose proof (wr_terminates (copyHandSuit g) i s). congruence. }
    by apply IH.
Qed.

Lemma lift_ends {A : Type} (r : result A) :
  r <> Fault Diverges ->
  match lift r with
  | Returns _ => True
  | Undefined u => u <> MemoryFault Diverges
  end.
Proof. destruct r as [a|f]; simpl; [done | congruence]. Qed.

Lemma bind_outcome_ends {A B : Type} (P : A -> Prop) (Q : B -> Prop)
    (m : outcome A) (k : A -> outcome B) :
  ends_with P m -> (forall a, P a -> ends_with Q (k a)) ->
  ends_with Q (bind_outcome m k).
Proof. destruct m as [a|u]; simpl; auto. Qed.

Lemma lift_ends_with {A : Type} (P : A -> Prop) (r : result A) :
  r <> Fault Diverges -> (forall a, r = Ok a -> P a) ->
  ends_with P (lift r).
Proof. destruct r as [a|f]; simpl; [auto | congruence]. Qed.

Lemma isRank_total (c : ascii) : exists v, isRank c = Ok v.
Proof.
  destruct (decide (c ∈ take RANK_COUNT RANK_LIST)) as [H|H].
  - exists TRUE. by apply isRank_RANK_LIST.
  - exists FALSE. by apply isRank_other.
Qed.

Lemma isSuit_total (c : ascii) : exists v, isSuit c = Ok v.
Proof.
  destruct (decide (c ∈ take SUIT_COUNT SUIT_LIST)) as [H|H].
  - exists TRUE. by apply isSuit_SUIT_LIST.
  - exists FALSE. by apply isSuit_other.
Qed.

Lemma rankToInt_ends (c : ascii) : ends_with (fun _ => True) (rankToInt c).
Proof.
  destruct (decide (c ∈ take RANK_COUNT RANK_LIST)) as [H|H].
  - destruct (isRank_RANK_LIST c H) as (_ & -> & _). done.
  - destruct (isRank_other c H) as (_ & ->). done.
Qed.

Lemma readLine_while_ends (input : list ascii) (output : list printed)
    (g : globals) (l : readLine_locals) :
  hand_ok g ->
  ends_with
    (fun '(c, _, input', _, g') =>
       hand_ok g' /\
       (c = EOF_char \/ (length input' < length input)%nat))
    (readLine_while input output g l).
Proof.
  revert output g l.
  induction input as [|c input IH]; intros output g l Hok;
    cbn [readLine_while].
  - simpl. auto.
  - assert (Hnext : forall output g l, hand_ok g ->
      ends_with
        (fun '(c0, _, input', _, g') =>
           hand_ok g' /\
           (c0 = EOF_char \/ (length input' < length (c :: input))%nat))
        (readLine_while input output g l)).
    { intros output' g' l' Hok'. specialize (IH output' g' l' Hok').
      destruct (readLine_while input output' g' l')
        as [[[[[c0 l0] input0] output0] g0]|u]; [|done].
      simpl in *. destruct IH as [? [?|?]]; (split; [done|]); [by left|right; lia]. }
    destruct (negb (Ascii.eqb c newline) && negb (Ascii.eqb c EOF_char));
      [|simpl; split; [done|right; lia]].
    cbv zeta.
    destruct (isRank_total c) as [vr Er]. destruct (isSuit_total c) as [vs Es].
    repeat match goal with
      | |- ends_with _ (if ?b then _ else _) => destruct b
      | |- ends_with _ (let '(_, _) := ?t in _) => destruct t
      end;
      rewrite ?Er, ?Es; cbn [lift bind_outcome];
      repeat match goal with
      | |- ends_with _ (if ?b then _ else _) => destruct b
      | |- ends_with _ (let '(_, _) := ?t in _) => destruct t
      end;
      try done; try (by apply Hnext).
    + eapply bind_outcome_ends; [apply rankToInt_ends|]. intros v _.
      destruct (wr (handRank g) (rankCount l) v) as [hr|f] eqn:E;
        cbn [lift bind_outcome].
      * apply Hnext. apply wr_ok in E as [_ ->]. destruct Hok.
        split; simpl; [by rewrite length_insert | done].
      * simpl. pose proof (wr_terminates (handRank g) (rankCount l) v).
        congruence.
    + destruct (wr (handSuit g) (suitCount l) c) as [hs|f] eqn:E;
        cbn [lift bind_outcome].
      * apply Hnext. apply wr_ok in E as [_ ->]. destruct Hok.
        split; simpl; [done | by rewrite length_insert].
      * simpl. pose proof (wr_terminates (handSuit g) (suitCount l) c).
        congruence.
Qed.

Lemma readLine_ends (input : list ascii) (output : list printed)
    (g : globals) :
  hand_ok g ->
  ends_with
    (fun '(status, input', _, g') =>
       hand_ok g' /\
       (status = EOF \/ (length input' < length input)%nat))
    (readLine input output g).
Proof.
  intros Hok. unfold readLine.
  eapply bind_outcome_ends; [by apply readLine_while_ends|].
  intros [[[[c l] input'] output'] g'] [Hok' Hlen].
  destruct (repeatCards_ends g' Hok') as [b ->]. cbn [lift bind_outcome].
  simpl. split; [done|].
  destruct Hlen as [->|?]; [left|by right].
  by change (Ascii.eqb EOF_char EOF_char) with true.
Qed.

Lemma main_print_for_ends (g : globals) (n i : nat) (output : list printed) :
  main_print_for g n i output <> Fault Diverges.
Proof.
  revert i output. induction n as [|n IH]; intros i output; simpl;
    [discriminate|].
  repeat ends_step; apply IH.
Qed.

Lemma main_body_ends (sampleNumber : Z) (w : world) :
  hand_ok (memory w) ->
  ends_with
    (fun '(continue, w') =>
       hand_ok (memory w') /\
       (continue = true -> (length (stdin w') < length (stdin w))%nat))
    (main_body sampleNumber w).
Proof.
  intros Hok. unfold main_body.
  eapply bind_outcome_ends; [by apply readLine_ends|].
  intros [[[status input] output] g] [Hokg Hlen].
  destruct (Z.eqb_spec status EOF) as [->|Hne]; [by simpl|].
  destruct Hlen as [?|Hlen]; [done|].
  destruct (main_copy_for_ends HAND_SIZE 0 g Hokg) as [Hc Hc'].
  eapply bind_outcome_ends;
    [apply (lift_ends_with hand_ok); [exact Hc | exact Hc']|].
  intros g1 Hok1. cbv zeta.
  destruct (status =? 1); [|by simpl].
  destruct (sortHand_spec g1 Hok1) as (g2 & -> & Hok2 & _).
  cbn [lift bind_outcome].
  eapply bind_outcome_ends.
  { apply (lift_ends_with hand_ok); [by apply getHandRank_ends|].
    intros g3 (? & ? & ? & _ & _ & ->)%getHandRank_ladder. done. }
  intros g3 Hok3.
  eapply bind_outcome_ends.
  { apply (lift_ends_with (fun '(g', _) => hand_ok g')).
    - by apply getProbabilities_for_ends.
    - intros [g4 d] E. by eapply getProbabilities_for_ends. }
  intros [g4 d] Hok4.
  eapply bind_outcome_ends.
  { apply (lift_ends_with (fun _ => True)); [|done].
    unfold printHandRank. repeat ends_step. }
  intros out1 _.
  eapply bind_outcome_ends.
  { apply (lift_ends_with (fun _ => True)); [|done].
    apply main_print_for_ends. }
  intros out2 _. by simpl.
Qed.

Lemma main_while_ends (fuel : nat) (sampleNumber : Z) (w : world) :
  hand_ok (memory w) -> (length (stdin w) < fuel)%nat ->
  ends_with (fun _ => True) (main_while fuel sampleNumber w).
Proof.
  revert w. induction fuel as [|fuel IH]; intros w Hok Hfuel; [lia|].
  cbn [main_while].
  eapply bind_outcome_ends; [by apply main_body_ends|].
  intros [[] w'] [Hok' Hlen]; [|done].
  apply IH; [done|]. specialize (Hlen eq_refl). lia.
Qed.

(** X30: No run of the program uses up the bound of a loop: on every input
    and every supply of draws each line is read to an end, each sort
    finishes and the loop of [main] stops with the input; the run returns,
    or is undefined for another reason, or the draws run out. *)
Theorem main_never_diverges (sampleNumber : Z) (input : list ascii)
    (draws : list nat) :
  main sampleNumber input draws <> Undefined (MemoryFault Diverges).
Proof.
  unfold main.
  pose proof (main_while_ends (main_fuel input) sampleNumber
                (startup input draws)) as H.
  destruct (main_while _ _ _) as [w|u]; [done|].
  simpl in *. intros [= ->]. apply H; [by split | | done].
  unfold main_fuel. simpl. lia.
Qed.

(** X19: No loop of [getProbabilities] uses up its bound: from any state
    with a hand of five cells the function returns, runs out of draws or
    reads outside an array, and the sort inside it always finishes. *)
Theorem getProbabilities_never_diverges (sampleNumber : Z) (g : globals)
    (draws : list nat) :
  hand_ok g -> getProbabilities sampleNumber g draws <> Fault Diverges.
Proof. intros Hok. by apply getProbabilities_for_ends. Qed.

Lemma getProbabilities_never_diverges_witness :
  getProbabilities 1
    (initial [2; 3; 5; 6; 9] ["H"; "H"; "H"; "H"; "C"]%char) []
  <> Fault Diverges.
Proof.
  apply (getProbabilities_never_diverges 1
           (initial [2; 3; 5; 6; 9] ["H"; "H"; "H"; "H"; "C"]%char) []).
  by split.
Defined.
